(** * Slack request bot (main.py): due-date normalizer, extraction,
      validation and spreadsheet numbering

    A shallow embedding of [src/main.py].  Python values are modelled as the
    interpreter has them: a [str] is a sequence of Unicode code points, an
    [int] is unbounded ([Z]), an exception is a [Raise] result, a [dict] is a
    finite map, and the wall clock, the language model, Slack and the
    spreadsheet are explicit inputs or explicit state.

    Layout: the Python runtime pieces the program calls ([Py]), the calendar
    arithmetic of [datetime] and [calendar] ([Cal]), then the functions of
    main.py under their own names, then the theorems. *)

From Stdlib Require Import ZArith NArith List String Ascii Lia Bool Sorted.
From stdpp Require Import gmap strings list.

Set Default Proof Using "Type".
Set Warnings "-register-all".

(* ===================================================================== *)
(** ** The Python runtime used by main.py                                  *)
(* ===================================================================== *)

Module Py.

(** A [str] is a sequence of code points; [len] counts code points. *)
Abbreviation char := N (only parsing).
Abbreviation pystr := (list N) (only parsing).

(** String literals of the source are written [u "..."]: the UTF-8 bytes of
    the Rocq literal decoded to code points. *)
Fixpoint utf8 (bs : list N) : pystr :=
  match bs with
  | [] => []
  | b0 :: t0 =>
    if (b0 <? 0x80)%N then b0 :: utf8 t0
    else match t0 with
    | [] => []
    | b1 :: t1 =>
      if (b0 <? 0xE0)%N then ((b0 - 0xC0) * 64 + (b1 - 0x80))%N :: utf8 t1
      else match t1 with
      | [] => []
      | b2 :: t2 =>
        if (b0 <? 0xF0)%N
        then ((b0 - 0xE0) * 4096 + (b1 - 0x80) * 64 + (b2 - 0x80))%N :: utf8 t2
        else match t2 with
        | [] => []
        | b3 :: t3 =>
          ((b0 - 0xF0) * 262144 + (b1 - 0x80) * 4096
           + (b2 - 0x80) * 64 + (b3 - 0x80))%N :: utf8 t3
        end
      end
    end
  end.

Definition u (s : string) : pystr :=
  utf8 (map N_of_ascii (list_ascii_of_string s)).

(** Exceptions the modelled code can meet, and results of fallible calls. *)
Inductive exn :=
  | ValueError | OverflowError | TypeError | KeyError | AttributeError
  | ExternalError.

Inductive result (A : Type) :=
  | Ok (a : A)
  | Raise (e : exn).
Arguments Ok {A} a.
Arguments Raise {A} e.

Global Instance result_ret : MRet result := @Ok.
Global Instance result_bind : MBind result := fun A B k r =>
  match r with Ok a => k a | Raise e => Raise e end.

(** [try: body / except ValueError: pass] around a block that may [return]:
    the body yields [Ok (Some v)] when it returned [v], [Ok None] when it
    ran to its end; a [ValueError] is swallowed, any other exception
    propagates. *)
Definition try_except_ValueError {A} (body : result (option A))
  : option (result A) :=
  match body with
  | Ok (Some v) => Some (Ok v)
  | Ok None => None
  | Raise ValueError => None
  | Raise e => Some (Raise e)
  end.

(** [not l] for a sequence: it is empty. *)
Definition is_nil {A} (l : list A) : bool :=
  match l with [] => true | _ => false end.

Definition pystr_eqb (a b : pystr) : bool := bool_decide (a = b).

(** [x in [a; b; ...]] for strings. *)
Definition str_in (x : pystr) (l : list pystr) : bool := existsb (pystr_eqb x) l.

(** *** Character classes (Unicode 14, as in CPython 3.11's unicodedata) *)

(** First code point of every run of ten decimal digits (category Nd). *)
Definition nd_starts : list N :=
  [0x30; 0x660; 0x6F0; 0x7C0; 0x966; 0x9E6; 0xA66; 0xAE6; 0xB66; 0xBE6;
   0xC66; 0xCE6; 0xD66; 0xDE6; 0xE50; 0xED0; 0xF20; 0x1040; 0x1090; 0x17E0;
   0x1810; 0x1946; 0x19D0; 0x1A80; 0x1A90; 0x1B50; 0x1BB0; 0x1C40; 0x1C50;
   0xA620; 0xA8D0; 0xA900; 0xA9D0; 0xA9F0; 0xAA50; 0xABF0; 0xFF10; 0x104A0;
   0x10D30; 0x11066; 0x110F0; 0x11136; 0x111D0; 0x112F0; 0x11450; 0x114D0;
   0x11650; 0x116C0; 0x11730; 0x118E0; 0x11950; 0x11C50; 0x11D50; 0x11DA0;
   0x16A60; 0x16AC0; 0x16B50; 0x1D7CE; 0x1D7D8; 0x1D7E2; 0x1D7EC; 0x1D7F6;
   0x1E140; 0x1E2F0; 0x1E950; 0x1FBF0]%N.

(** The decimal value of a code point, when it is a decimal digit. *)
Fixpoint decimal_in (starts : list N) (c : char) : option N :=
  match starts with
  | [] => None
  | s :: rest =>
    if ((s <=? c) && (c <? s + 10))%N then Some (c - s)%N
    else decimal_in rest c
  end.

Definition decimal_value (c : char) : option N := decimal_in nd_starts c.

(** [\d] of [re] on a [str], and [str.isdecimal] on one character. *)
Definition is_decimal (c : char) : bool :=
  match decimal_value c with Some _ => true | None => false end.

Definition in_ranges (rs : list (N * N)) (c : char) : bool :=
  existsb (fun r => ((fst r <=? c) && (c <=? snd r))%N) rs.

(** Digits that are not decimal (superscripts, circled digits, ...):
    [str.isdigit] accepts them, [int] does not. *)
Definition other_digit_ranges : list (N * N) :=
  [(0xB2,0xB3); (0xB9,0xB9); (0x1369,0x1371); (0x19DA,0x19DA);
   (0x2070,0x2070); (0x2074,0x2079); (0x2080,0x2089); (0x2460,0x2468);
   (0x2474,0x247C); (0x2488,0x2490); (0x24EA,0x24EA); (0x24F5,0x24FD);
   (0x24FF,0x24FF); (0x2776,0x277E); (0x2780,0x2788); (0x278A,0x2792);
   (0x10A40,0x10A43); (0x10E60,0x10E68); (0x11052,0x1105A);
   (0x1F100,0x1F10A)]%N.

Definition is_digit_char (c : char) : bool :=
  is_decimal c || in_ranges other_digit_ranges c.

(** [str.isdigit]: non-empty and every character a digit. *)
Definition isdigit (s : pystr) : bool :=
  match s with [] => false | _ => forallb is_digit_char s end.

(** [\s] of [re] on a [str], and the characters [str.strip] removes. *)
Definition space_ranges : list (N * N) :=
  [(0x9,0xD); (0x1C,0x20); (0x85,0x85); (0xA0,0xA0); (0x1680,0x1680);
   (0x2000,0x200A); (0x2028,0x2029); (0x202F,0x202F); (0x205F,0x205F);
   (0x3000,0x3000)]%N.

Definition is_space (c : char) : bool := in_ranges space_ranges c.

Fixpoint lstrip (s : pystr) : pystr :=
  match s with
  | c :: t => if is_space c then lstrip t else s
  | [] => []
  end.

Definition strip (s : pystr) : pystr := rev (lstrip (rev (lstrip s))).

(** [str.lower], as far as a comparison with the ASCII words "null" and
    "none" can observe it: the only code points whose lowercase is one of
    n, u, l, o, e are these letters and their ASCII capitals, and no code
    point lowers to the empty string; the model lowers A-Z and leaves every
    other code point alone. *)
Definition lower_char (c : char) : char :=
  if ((0x41 <=? c) && (c <=? 0x5A))%N then (c + 32)%N else c.

Definition lower (s : pystr) : pystr := map lower_char s.

(** *** Integers and text *)

(** [str(n)] for a natural number: decimal digits, most significant
    first.  The fuel is the number of bits of [n], which bounds the number
    of decimal digits. *)
Fixpoint digits_of (fuel : nat) (n : N) : pystr :=
  match fuel with
  | O => []
  | S f =>
    if (n <? 10)%N then [(48 + n)%N]
    else digits_of f (n / 10)%N ++ [(48 + n mod 10)%N]
  end.

Definition str_of_N (n : N) : pystr := digits_of (S (N.to_nat (N.log2 n))) n.

(** [str(z)] and [f"{z}"] for an [int]. *)
Definition str_of_int (z : Z) : pystr :=
  if (z <? 0)%Z then 45%N :: str_of_N (Z.to_N (- z)) else str_of_N (Z.to_N z).

(** [f"{z:02d}"]: zero-padded to width two (the sign counts). *)
Definition fmt_02d (z : Z) : pystr :=
  let s := str_of_int z in
  if (length s <? 2)%nat then 48%N :: s else s.

(** The digits of an [int] literal: decimal digits of any script, single
    underscores allowed between digits. *)
Fixpoint parse_digits (after_digit : bool) (acc : Z) (s : pystr) : option Z :=
  match s with
  | [] => if after_digit then Some acc else None
  | c :: t =>
    match decimal_value c with
    | Some d => parse_digits true (acc * 10 + Z.of_N d)%Z t
    | None =>
      if ((c =? 0x5F)%N && after_digit)%bool then parse_digits false acc t
      else None
    end
  end.

(** [sys.int_info.default_max_str_digits]: the largest number of digits
    [int] converts from text. *)
Definition int_max_str_digits : Z := 4300.

(** [int(s)] in base ten: surrounding whitespace, an optional sign, then
    digits; [ValueError] otherwise, and also for a numeral of more than
    [int_max_str_digits] digits (leading zeros count, underscores and the
    sign do not). *)
Definition int_of_str (s : pystr) : result Z :=
  let t := strip s in
  let '(neg, body) :=
    match t with
    | c :: r =>
      if (c =? 0x2B)%N then (false, r)
      else if (c =? 0x2D)%N then (true, r)
      else (false, t)
    | [] => (false, t)
    end in
  match parse_digits false 0%Z body with
  | Some v =>
    if (int_max_str_digits <? Z.of_nat (length (List.filter is_decimal body)))%Z
    then Raise ValueError
    else Ok (if neg then (- v)%Z else v)
  | None => Raise ValueError
  end.

(** [s.translate(str.maketrans('０１２３４５６７８９', '0123456789'))]. *)
Definition translate_fullwidth (s : pystr) : pystr :=
  map (fun c => if ((0xFF10 <=? c) && (c <=? 0xFF19))%N
                then (c - 0xFF10 + 0x30)%N else c) s.

(** *** Regular-expression pieces

    The patterns of main.py are concatenations of literals, one greedy
    character-class repetition and one alternation.  A pattern is modelled
    as a function that matches at the head of its input and returns what the
    code reads from the match; [re_search] tries it at every start position
    from the left and keeps the first success, as [re.search] does. *)

(** Longest prefix of characters in a class, and the rest. *)
Fixpoint span (p : char -> bool) (s : pystr) : pystr * pystr :=
  match s with
  | c :: t => if p c then let '(a, b) := span p t in (c :: a, b) else ([], s)
  | [] => ([], [])
  end.

(** A literal at the head of the input: the rest after it. *)
Fixpoint lit (l s : pystr) : option pystr :=
  match l, s with
  | [], _ => Some s
  | a :: l', b :: s' => if (a =? b)%N then lit l' s' else None
  | _ :: _, [] => None
  end.

(** An alternation of literals: the first alternative that matches, with
    the rest after it. *)
Fixpoint alt (alts : list pystr) (s : pystr) : option (pystr * pystr) :=
  match alts with
  | [] => None
  | a :: rest =>
    match lit a s with
    | Some r => Some (a, r)
    | None => alt rest s
    end
  end.

Fixpoint re_search {A} (pat : pystr -> option A) (s : pystr) : option A :=
  match pat s with
  | Some r => Some r
  | None =>
    match s with
    | [] => None
    | _ :: t => re_search pat t
    end
  end.

Definition matched {A} (o : option A) : bool :=
  match o with Some _ => true | None => false end.

End Py.

(* ===================================================================== *)
(** ** Dates: the parts of [datetime] and [calendar] the program calls     *)
(* ===================================================================== *)

Module Cal.
Import Py.
Local Open Scope Z_scope.

(** What main.py reads from [datetime.now()]. *)
Record datetime := mk_datetime {
  year : Z; month : Z; day : Z;
  hour : Z; minute : Z; second : Z
}.

Definition MINYEAR : Z := 1.
Definition MAXYEAR : Z := 9999.

(** [calendar.isleap]. *)
Definition isleap (y : Z) : bool :=
  (y mod 4 =? 0) && (negb (y mod 100 =? 0) || (y mod 400 =? 0)).

(** [calendar.mdays], indexed by month. *)
Definition mdays : list Z := [0; 31; 28; 31; 30; 31; 30; 31; 31; 30; 31; 30; 31].

(** [datetime._DAYS_BEFORE_MONTH], indexed by month. *)
Definition DAYS_BEFORE_MONTH : list Z :=
  [0; 0; 31; 59; 90; 120; 151; 181; 212; 243; 273; 304; 334].

Definition b2z (b : bool) : Z := if b then 1 else 0.

Definition days_in_month (y m : Z) : Z :=
  nth (Z.to_nat m) mdays 0 + b2z ((m =? 2) && isleap y).

Definition days_before_year (y : Z) : Z :=
  let y' := y - 1 in y' * 365 + y' / 4 - y' / 100 + y' / 400.

Definition days_before_month (y m : Z) : Z :=
  nth (Z.to_nat m) DAYS_BEFORE_MONTH 0 + b2z ((2 <? m) && isleap y).

(** [datetime._ymd2ord]: 0001-01-01 is day 1. *)
Definition ymd2ord (y m d : Z) : Z :=
  days_before_year y + days_before_month y m + d.

Definition DI400Y : Z := 146097.
Definition DI100Y : Z := 36524.
Definition DI4Y : Z := 1461.
Definition MAXORDINAL : Z := 3652059.

(** [datetime._ord2ymd]. *)
Definition ord2ymd (n : Z) : Z * Z * Z :=
  let n := n - 1 in
  let n400 := n / DI400Y in let n := n mod DI400Y in
  let y := n400 * 400 + 1 in
  let n100 := n / DI100Y in let n := n mod DI100Y in
  let n4 := n / DI4Y in let n := n mod DI4Y in
  let n1 := n / 365 in let n := n mod 365 in
  let y := y + n100 * 100 + n4 * 4 + n1 in
  if (n1 =? 4) || (n100 =? 4) then (y - 1, 12, 31)
  else
    let leapyear := (n1 =? 3) && (negb (n4 =? 24) || (n100 =? 3)) in
    let m := Z.shiftr (n + 50) 5 in
    let preceding := nth (Z.to_nat m) DAYS_BEFORE_MONTH 0
                     + b2z ((2 <? m) && leapyear) in
    if n <? preceding then
      let m := m - 1 in
      let preceding := preceding
        - (nth (Z.to_nat m) mdays 0 + b2z ((m =? 2) && leapyear)) in
      (y, m, n - preceding + 1)
    else (y, m, n - preceding + 1).

Definition toordinal (d : datetime) : Z := ymd2ord (year d) (month d) (day d).

(** [datetime.weekday]: Monday is 0, Sunday is 6. *)
Definition weekday (d : datetime) : Z := (toordinal d + 6) mod 7.

(** [calendar.monthrange]: weekday of the first of the month and the number
    of days in the month; an illegal month raises [IllegalMonthError], a
    [ValueError]. *)
Definition monthrange (y m : Z) : result (Z * Z) :=
  if negb ((1 <=? m) && (m <=? 12)) then Raise ValueError
  else
    let y' := if (MINYEAR <=? y) && (y <=? MAXYEAR) then y
              else 2000 + y mod 400 in
    Ok ((ymd2ord y' m 1 + 6) mod 7, days_in_month y m).

(** [timedelta(days=n)]: magnitudes over 999999999 days are refused. *)
Definition timedelta (days : Z) : result Z :=
  if Z.abs days <=? 999999999 then Ok days else Raise OverflowError.

(** [now + delta] for a whole number of days: the time of day is kept, a
    date outside years 1..9999 raises [OverflowError]. *)
Definition datetime_add (d : datetime) (delta : Z) : result datetime :=
  let o := toordinal d + delta in
  if (0 <? o) && (o <=? MAXORDINAL) then
    let '(y, m, dd) := ord2ymd o in
    Ok (mk_datetime y m dd (hour d) (minute d) (second d))
  else Raise OverflowError.

(** [strftime("%Y-%m-%d")]; the year is printed as glibc does, without
    padding (the same text as the padded form from year 1000 on). *)
Definition strftime_ymd (d : datetime) : pystr :=
  str_of_int (year d) ++ u "-" ++ fmt_02d (month d) ++ u "-" ++ fmt_02d (day d).

(** [strftime("%Y-%m-%d %H:%M:%S")]. *)
Definition strftime_ymd_hms (d : datetime) : pystr :=
  strftime_ymd d ++ u " " ++ fmt_02d (hour d) ++ u ":" ++ fmt_02d (minute d)
  ++ u ":" ++ fmt_02d (second d).

(** A value [datetime.now()] can return. *)
Definition valid_datetime (d : datetime) : Prop :=
  MINYEAR <= year d <= MAXYEAR /\ 1 <= month d <= 12 /\
  1 <= day d <= days_in_month (year d) (month d) /\
  0 <= hour d < 24 /\ 0 <= minute d < 60 /\ 0 <= second d < 60.

End Cal.

(* ===================================================================== *)
(** ** normalize_due_date                                                  *)
(* ===================================================================== *)

Import Py Cal.

(** [r'^\d{4}-\d{2}-\d{2}$'] with [re.match]: ten characters, optionally
    followed by one final newline (which [$] tolerates). *)
Definition re_match_iso (s : pystr) : bool :=
  match s with
  | y1 :: y2 :: y3 :: y4 :: h1 :: m1 :: m2 :: h2 :: d1 :: d2 :: rest =>
    forallb is_decimal [y1; y2; y3; y4; m1; m2; d1; d2]
    && (h1 =? 0x2D)%N && (h2 =? 0x2D)%N
    && match rest with [] => true | [c] => (c =? 0x0A)%N | _ => false end
  | _ => false
  end.

(** The class [[０-９0-9]]. *)
Definition digit_class (c : char) : bool :=
  (((0xFF10 <=? c) && (c <=? 0xFF19)) || ((0x30 <=? c) && (c <=? 0x39)))%N.

(** [r'([０-９0-9]+)月(中|末|まで)'] at the head of the input: groups 1 and 2.
    The repetition is greedy and what follows it is not in the class, so
    the longest run of digits is the only candidate. *)
Definition month_pattern (s : pystr) : option (pystr * pystr) :=
  let '(g1, r) := span digit_class s in
  match g1 with
  | [] => None
  | _ =>
    r' ← lit (u "月") r;
    '(g2, _) ← alt [u "中"; u "末"; u "まで"] r';
    Some (g1, g2)
  end.

(** [r'今月(末|中|まで)']. *)
Definition this_month_pattern (s : pystr) : option unit :=
  r ← lit (u "今月") s; _ ← alt [u "末"; u "中"; u "まで"] r; Some tt.

(** [r'来月(末|中|まで)?']: the suffix is optional. *)
Definition next_month_pattern (s : pystr) : option unit :=
  r ← lit (u "来月") s;
  match alt [u "末"; u "中"; u "まで"] r with Some _ | None => Some tt end.

(** [r'来週(末|まで)?']. *)
Definition next_week_pattern (s : pystr) : option unit :=
  r ← lit (u "来週") s;
  match alt [u "末"; u "まで"] r with Some _ | None => Some tt end.

(** [r'今週(末|まで)']. *)
Definition this_week_pattern (s : pystr) : option unit :=
  r ← lit (u "今週") s; _ ← alt [u "末"; u "まで"] r; Some tt.

(** [r'([０-９0-9]+)日(後|以内|まで)']: group 1. *)
Definition days_pattern (s : pystr) : option pystr :=
  let '(g1, r) := span digit_class s in
  match g1 with
  | [] => None
  | _ =>
    r' ← lit (u "日") r;
    _ ← alt [u "後"; u "以内"; u "まで"] r';
    Some g1
  end.

(** [f"{y}-{m:02d}-{d:02d}"]. *)
Definition fmt_date (y m d : Z) : pystr :=
  str_of_int y ++ u "-" ++ fmt_02d m ++ u "-" ++ fmt_02d d.

(** The block for [N月(中|末|まで)]: [Some r] when the block returns [r],
    [None] when control falls through to the next pattern. *)
Definition month_rule (current_year : Z) (s : pystr)
  : option (result (option pystr)) :=
  match re_search month_pattern s with
  | None => None
  | Some (g1, g2) =>
    let month_str := translate_fullwidth g1 in
    try_except_ValueError (
      month ← int_of_str month_str;
      if ((1 <=? month) && (month <=? 12))%Z then
        if pystr_eqb g2 (u "末") then
          '(_, last_day) ← monthrange current_year month;
          Ok (Some (Some (fmt_date current_year month last_day)))
        else if str_in g2 [u "中"; u "まで"] then
          '(_, last_day) ← monthrange current_year month;
          Ok (Some (Some (fmt_date current_year month last_day)))
        else Ok None
      else Ok None)
  end.

(** The block for [N日(後|以内|まで)]. *)
Definition days_rule (now : datetime) (s : pystr)
  : option (result (option pystr)) :=
  match re_search days_pattern s with
  | None => None
  | Some g1 =>
    let days_str := translate_fullwidth g1 in
    try_except_ValueError (
      days ← int_of_str days_str;
      delta ← timedelta days;
      target_date ← datetime_add now delta;
      Ok (Some (Some (strftime_ymd target_date))))
  end.

(** [normalize_due_date]; [now] is what [datetime.now()] returns during the
    call.  Logging is not modelled. *)
Definition normalize_due_date (now : datetime) (due_date_str : option pystr)
  : result (option pystr) :=
  match due_date_str with
  | None => Ok None
  | Some s =>
    if is_nil s || str_in (lower s) [u "null"; u "none"; u ""]
    then Ok None
    else if re_match_iso s then Ok (Some s)
    else
      let current_year := year now in
      let current_month := month now in
      match month_rule current_year s with
      | Some r => r
      | None =>
      if matched (re_search this_month_pattern s) then
        '(_, last_day) ← monthrange current_year current_month;
        Ok (Some (fmt_date current_year current_month last_day))
      else if matched (re_search next_month_pattern s) then
        let next_month := (current_month + 1)%Z in
        let next_year := current_year in
        let '(next_month, next_year) :=
          if (12 <? next_month)%Z then (1%Z, (next_year + 1)%Z)
          else (next_month, next_year) in
        '(_, last_day) ← monthrange next_year next_month;
        Ok (Some (fmt_date next_year next_month last_day))
      else if matched (re_search next_week_pattern s) then
        let days_until_next_week := (7 - weekday now)%Z in
        delta ← timedelta (days_until_next_week + 6)%Z;
        next_week_date ← datetime_add now delta;
        Ok (Some (strftime_ymd next_week_date))
      else if matched (re_search this_week_pattern s) then
        let days_until_sunday := (6 - weekday now)%Z in
        delta ← timedelta days_until_sunday;
        this_weekend ← datetime_add now delta;
        Ok (Some (strftime_ymd this_weekend))
      else
        match days_rule now s with
        | Some r => r
        | None => Ok (Some s)
        end
      end
  end.

(* ===================================================================== *)
(** ** Values of the JSON reply and of a spreadsheet row                   *)
(* ===================================================================== *)

(** The Python values [json.loads] produces (numbers with a fraction or an
    exponent are left out), which are also the values a row is built
    from. *)
Inductive pyval :=
  | VNone
  | VBool (b : bool)
  | VInt (z : Z)
  | VStr (s : pystr)
  | VList (l : list pyval)
  | VDict (m : gmap string pyval).

(** Truth value of a Python value ([if v:], [not v], [a or b]). *)
Definition truthy (v : pyval) : bool :=
  match v with
  | VNone => false
  | VBool b => b
  | VInt z => negb (z =? 0)%Z
  | VStr s => negb (is_nil s)
  | VList l => negb (is_nil l)
  | VDict m => negb (bool_decide (m = ∅))
  end.

(** [v == "literal"] for a [str] literal. *)
Definition eq_str (v : pyval) (s : pystr) : bool :=
  match v with VStr t => pystr_eqb t s | _ => false end.

(** [d.get(k)] and [d.get(k, default)]. *)
Definition get (d : gmap string pyval) (k : string) : pyval :=
  default VNone (d !! k).
Definition get_or (d : gmap string pyval) (k : string) (dflt : pyval) : pyval :=
  default dflt (d !! k).

(** One extracted request: the object the language model returns for it. *)
Abbreviation item := (gmap string pyval).

(* ===================================================================== *)
(** ** extract_info_with_gemini                                            *)
(* ===================================================================== *)

(** What [json.loads] gives for the model's reply: one object or an array
    of objects, as the prompt demands. *)
Inductive reply_json :=
  | JsonObject (o : item)
  | JsonArray (l : list item).

(** [normalize_due_date(item["due_date"])] on a truthy value: a value that
    is not a [str] has no [lower]. *)
Definition normalize_value (now : datetime) (d : pyval) : result pyval :=
  match d with
  | VStr s =>
    r ← normalize_due_date now (Some s);
    Ok (match r with Some t => VStr t | None => VNone end)
  | _ => Raise AttributeError
  end.

(** The body of the loop over the extracted records. *)
Definition normalize_item (now : datetime) (it : item) : result item :=
  match it !! "due_date" with
  | Some d =>
    if truthy d then
      normalized_date ← normalize_value now d;
      Ok (<["due_date" := normalized_date]> it)
    else Ok it
  | None => Ok it
  end.

(** The loop; [clock i] is what [datetime.now()] returns while record [i]
    is normalized. *)
Fixpoint normalize_items (clock : nat -> datetime) (i : nat) (l : list item)
  : result (list item) :=
  match l with
  | [] => Ok []
  | it :: rest =>
    it' ← normalize_item (clock i) it;
    rest' ← normalize_items clock (S i) rest;
    Ok (it' :: rest')
  end.

(** [extract_info_with_gemini], from the parsed reply on.  [reply] is the
    outcome of the model call, of stripping the code fence and of
    [json.loads]; any failure there is re-raised. *)
Definition extract_info_with_gemini (clock : nat -> datetime)
    (reply : result reply_json) : result (list item) :=
  parsed ← reply;
  let extracted_data_list :=
    match parsed with JsonArray l => l | JsonObject o => [o] end in
  normalize_items clock 0 extracted_data_list.

(* ===================================================================== *)
(** ** write_to_spreadsheet                                                *)
(* ===================================================================== *)

(** The worksheet as [get_all_values] returns it: rows of text cells. *)
Abbreviation sheet_rows := (list (list pystr)).

(** What one existing row contributes to the maximum: the first cell, when
    the row has one, it is not empty, its stripped text passes [isdigit]
    and [int] accepts it. *)
Definition row_inquiry_no (row : list pystr) : option Z :=
  match row with
  | [] => None
  | c :: _ =>
    if is_nil c then None
    else
      let no_str := strip c in
      if isdigit no_str then
        match int_of_str no_str with
        | Ok n => Some n
        | Raise _ => None
        end
      else None
  end.

(** The loop that finds the largest inquiry number below the header. *)
Definition max_inquiry_no_of (existing_rows : sheet_rows) : Z :=
  if (1 <? length existing_rows)%nat then
    fold_left (fun max_inquiry_no row =>
                 match row_inquiry_no row with
                 | Some n => Z.max max_inquiry_no n
                 | None => max_inquiry_no
                 end)
              (tail existing_rows) 0%Z
  else 0%Z.

(** [tags[i] if i < len(tags) and tags[i] else ""]. *)
Definition tag_at (tags : pyval) (i : nat) : result pyval :=
  match tags with
  | VList l =>
    Ok (match l !! i with
        | Some t => if truthy t then t else VStr []
        | None => VStr []
        end)
  | VStr s =>
    Ok (match s !! i with Some c => VStr [c] | None => VStr [] end)
  | VDict m => if (i <? size m)%nat then Raise KeyError else Ok (VStr [])
  | VNone | VBool _ | VInt _ => Raise TypeError
  end.

(** [[... for i in range(5)]]. *)
Fixpoint comprehension (f : nat -> result pyval) (range : list nat)
  : result (list pyval) :=
  match range with
  | [] => Ok []
  | i :: rest => v ← f i; vs ← comprehension f rest; Ok (v :: vs)
  end.

Definition tag_list_of (tags : pyval) : result (list pyval) :=
  comprehension (tag_at tags) (seq 0 5).

(** [row_data] for the record at index [idx]. *)
Definition build_row (max_inquiry_no : Z) (timestamp : pystr)
    (inquirer_name : pyval) (slack_url : pystr) (original_message : pystr)
    (idx : nat) (extracted_data : item) : result (list pyval) :=
  let inquiry_no := (max_inquiry_no + Z.of_nat idx + 1)%Z in
  let tags := get_or extracted_data "tags" (VList []) in
  tag_list ← tag_list_of tags;
  Ok ([VInt inquiry_no; VStr timestamp; inquirer_name; VStr slack_url]
      ++ tag_list
      ++ [get_or extracted_data "target_name" (VStr []);
          get_or extracted_data "target_email" (VStr []);
          get_or extracted_data "due_date" (VStr []);
          get_or extracted_data "details" (VStr []);
          VStr original_message]).

(** Modelled from the spec: the backing store behind [get_all_values] and
    [append_row] (the spreadsheet service is not part of the repository).
    It keeps rows in insertion order and returns cells as text: an integer
    as its decimal digits, a string as itself, nothing for [None].  A cell
    holding a list or an object is refused by the service. *)
Definition cell_text (v : pyval) : result pystr :=
  match v with
  | VNone => Ok []
  | VBool b => Ok (if b then u "TRUE" else u "FALSE")
  | VInt z => Ok (str_of_int z)
  | VStr s => Ok s
  | VList _ | VDict _ => Raise ExternalError
  end.

Fixpoint cells_text (row : list pyval) : result (list pystr) :=
  match row with
  | [] => Ok []
  | v :: rest => c ← cell_text v; cs ← cells_text rest; Ok (c :: cs)
  end.

Definition append_row (row_data : list pyval) (sheet : sheet_rows)
  : result sheet_rows :=
  cells ← cells_text row_data; Ok (sheet ++ [cells]).

(** The state the handler acts on: the worksheet, the Slack messages sent
    (channel, thread, text) and the extraction requests made. *)
Record world := mk_world {
  sheet : sheet_rows;
  outbox : list (pyval * pyval * pystr);
  extractions : list (pystr * pyval)
}.

(** Stateful, fallible code: an exception leaves the effects already made
    in place. *)
Definition M (A : Type) : Type := world -> result A * world.

Global Instance M_ret : MRet M := fun A a w => (Ok a, w).
Global Instance M_bind : MBind M := fun A B k m w =>
  match m w with
  | (Ok a, w') => k a w'
  | (Raise e, w') => (Raise e, w')
  end.

Definition raise {A} (e : exn) : M A := fun w => (Raise e, w).
Definition lift {A} (r : result A) : M A := fun w => (r, w).

(** [try: body / except Exception: handler]. *)
Definition try_except {A} (body : M A) (handler : exn -> M A) : M A :=
  fun w => match body w with
           | (Ok a, w') => (Ok a, w')
           | (Raise e, w') => handler e w'
           end.

(** [worksheet.append_row(row_data)]. *)
Definition worksheet_append_row (row_data : list pyval) : M unit :=
  fun w => match append_row row_data (sheet w) with
           | Ok s' => (Ok tt, mk_world s' (outbox w) (extractions w))
           | Raise e => (Raise e, w)
           end.

(** The loop that builds and appends one row per record; it returns
    [written_row_numbers]. *)
Fixpoint append_rows (n_existing : nat) (max_inquiry_no : Z)
    (timestamp : pystr) (inquirer_name : pyval)
    (slack_url original_message : pystr)
    (idx : nat) (records : list item) (written_row_numbers : list Z)
  : M (list Z) :=
  match records with
  | [] => mret written_row_numbers
  | extracted_data :: rest =>
    row_data ← lift (build_row max_inquiry_no timestamp inquirer_name
                       slack_url original_message idx extracted_data);
    _ ← worksheet_append_row row_data;
    let written_row :=
      (Z.of_nat n_existing + Z.of_nat (length written_row_numbers) + 1)%Z in
    append_rows n_existing max_inquiry_no timestamp inquirer_name slack_url
      original_message (S idx) rest (written_row_numbers ++ [written_row])
  end.

(** [written_inquiry_nos]: [max_inquiry_no + idx + 1] for every index. *)
Definition inquiry_nos (max_inquiry_no : Z) (n : nat) : list Z :=
  map (fun idx => (max_inquiry_no + Z.of_nat idx + 1)%Z) (seq 0 n).

(** [write_to_spreadsheet].  [available] tells whether the credentials and
    the worksheet could be obtained; [now] is the clock reading used for the
    timestamp. *)
Definition write_to_spreadsheet (available : bool) (now : datetime)
    (inquirer_name : pyval) (extracted_data_list : list item)
    (original_message slack_url : pystr)
  : M (bool * list Z * list Z) :=
  if negb available then raise ExternalError
  else fun w =>
    let existing_rows := sheet w in
    let max_inquiry_no := max_inquiry_no_of existing_rows in
    let timestamp := strftime_ymd_hms now in
    (written_row_numbers ←
       append_rows (length existing_rows) max_inquiry_no timestamp
         inquirer_name slack_url original_message 0 extracted_data_list [];
     mret (true, written_row_numbers,
           inquiry_nos max_inquiry_no (length extracted_data_list))) w.

(* ===================================================================== *)
(** ** send_slack_reply and slack_bot_handler                              *)
(* ===================================================================== *)

(** What the handler reads from the HTTP request. *)
Record request := mk_request {
  retry_num : option pystr;   (* the X-Slack-Retry-Num header *)
  payload : pyval;            (* get_json(silent=True); [VNone] if none *)
  signature_valid : bool      (* the verifier's answer for this request *)
}.

(** The collaborators and the configuration, as the handler sees them. *)
Record env := mk_env {
  verifier_configured : bool;                 (* SLACK_SIGNING_SECRET set *)
  spreadsheet_key : pystr;                    (* SPREADSHEET_KEY *)
  clock : nat -> datetime;                    (* now(), per normalized record *)
  write_clock : datetime;                     (* now(), when rows are stamped *)
  gemini : pystr -> pyval -> result reply_json;
  users_info : pyval -> result (pyval * pyval * pyval);
                                  (* display_name, real_name, name *)
  team_domain : pyval -> result pystr;        (* team_info(...)["team"]["domain"] *)
  post_ok : pyval -> pyval -> pystr -> bool;  (* chat_postMessage succeeds *)
  sheet_available : bool;                     (* credentials and worksheet *)
  sheet_gid : result Z;                       (* worksheet.id *)
  repr_other : pyval -> pystr                 (* str() of a list or a dict *)
}.

(** The line break of the message literals. *)
Definition nl : pystr := [0x0A%N].

Definition response : Type := pyval * Z.

(** [str(v)], as an f-string formats a value. *)
Definition py_str (e : env) (v : pyval) : pystr :=
  match v with
  | VStr s => s
  | VInt z => str_of_int z
  | VBool b => if b then u "True" else u "False"
  | VNone => u "None"
  | VList _ | VDict _ => repr_other e v
  end.

(** [send_slack_reply]: the message is posted, or the failure is re-raised. *)
Definition send_slack_reply (e : env) (channel thread_ts : pyval)
    (message : pystr) : M unit :=
  fun w =>
    if post_ok e channel thread_ts message then
      (Ok tt, mk_world (sheet w) (outbox w ++ [(channel, thread_ts, message)])
                       (extractions w))
    else (Raise ExternalError, w).

(** The class [[A-Z0-9]]. *)
Definition id_class (c : char) : bool :=
  (((0x41 <=? c) && (c <=? 0x5A)) || ((0x30 <=? c) && (c <=? 0x39)))%N.

(** [r"<@[A-Z0-9]+>\s*"] at the head of the input: the rest after the
    match. *)
Definition mention_pattern (s : pystr) : option pystr :=
  r ← lit (u "<@") s;
  let '(ids, r1) := span id_class r in
  match ids with
  | [] => None
  | _ => r2 ← lit (u ">") r1; Some (snd (span is_space r2))
  end.

(** [re.sub(pattern, "", s)]: every match, found from left to right
    without overlap, is deleted.  [skip] counts the characters of the
    current match still to be dropped. *)
Fixpoint re_sub_go (pat : pystr -> option pystr) (skip : nat) (s : pystr)
  : pystr :=
  match s with
  | [] => []
  | c :: t =>
    match skip with
    | S k => re_sub_go pat k t
    | O =>
      match pat s with
      | Some rest => re_sub_go pat (length s - length rest - 1) t
      | None => c :: re_sub_go pat 0 t
      end
    end
  end.

Definition re_sub_delete (pat : pystr -> option pystr) (s : pystr) : pystr :=
  re_sub_go pat 0 s.

(** [re.sub(r"<@[A-Z0-9]+>\s*", "", text).strip()]. *)
Definition clean_text (text : pystr) : pystr :=
  strip (re_sub_delete mention_pattern text).

Definition too_long_message (n : nat) : pystr :=
  u "お問合せの内容が長すぎます（" ++ str_of_int (Z.of_nat n)
  ++ u "文字）。1000文字以内で再度入力してください。".

Definition empty_batch_message : pystr :=
  u "情報を正しく読み取れませんでした。再度入力してください".

Definition email_required_message : pystr :=
  u "アカウント管理の依頼には対象者のメールアドレスが必要です。メールアドレスを含めて再度入力してください".

Definition generic_error_message : pystr :=
  u "エラーが発生しました。しばらく時間をおいて再度お試しください。".

(** [a or b]. *)
Definition py_or (a b : pyval) : pyval := if truthy a then a else b.

(** The block that determines [inquirer_name]. *)
Definition resolve_inquirer (e : env) (user_id : pyval) : pyval :=
  if truthy user_id then
    match users_info e user_id with
    | Ok (display_name, real_name, name) =>
      py_or display_name (py_or real_name (py_or name user_id))
    | Raise _ => user_id
    end
  else VStr (u "不明").

(** The block that builds [slack_url]. *)
Definition build_slack_url (e : env) (channel thread_ts team_id : pyval)
  : result pystr :=
  if truthy channel && truthy thread_ts then
    match thread_ts with
    | VStr ts =>
      let ts_for_url := filter (fun c => c ≠ 0x2E%N) ts in
      match team_domain e team_id with
      | Ok workspace_domain =>
        Ok (u "https://" ++ workspace_domain ++ u ".slack.com/archives/"
            ++ py_str e channel ++ u "/p" ++ ts_for_url)
      | Raise _ =>
        Ok (u "https://app.slack.com/client/" ++ py_str e team_id ++ u "/"
            ++ py_str e channel ++ u "/p" ++ ts_for_url)
      end
    | _ => Raise AttributeError
    end
  else Ok [].

(** ["アカウント管理" in tags] for a list. *)
Definition account_tag : pystr := u "アカウント管理".

Definition has_account_tag (tags : pyval) : bool :=
  match tags with
  | VList l => existsb (fun t => eq_str t account_tag) l
  | _ => false
  end.

(** The validation loop: [true] when it reaches the branch that replies
    and returns, [false] when it runs to its end. *)
Fixpoint email_missing (extracted_data_list : list item) : bool :=
  match extracted_data_list with
  | [] => false
  | it :: rest =>
    let tags := get_or it "tags" (VList []) in
    if has_account_tag tags then
      if negb (truthy (get it "target_email")) then true
      else email_missing rest
    else email_missing rest
  end.

(** [', '.join(l)]; an element that is not a [str] raises. *)
Fixpoint join_comma (l : list pyval) : result pystr :=
  match l with
  | [] => Ok []
  | VStr s :: rest =>
    match rest with
    | [] => Ok s
    | _ => r ← join_comma rest; Ok (s ++ u ", " ++ r)
    end
  | _ :: _ => Raise TypeError
  end.

Definition list_min (l : list Z) : Z :=
  match l with [] => 0%Z | x :: t => fold_left Z.min t x end.
Definition list_max (l : list Z) : Z :=
  match l with [] => 0%Z | x :: t => fold_left Z.max t x end.

(** The link to the written range. *)
Definition sheet_links (e : env) (gid : Z)
    (written_row_numbers written_inquiry_nos : list Z) : list pystr :=
  let spreadsheet_url :=
    u "https://docs.google.com/spreadsheets/d/" ++ spreadsheet_key e
    ++ u "/edit" in
  match written_row_numbers, written_inquiry_nos with
  | _ :: _, _ :: _ =>
    let min_row := list_min written_row_numbers in
    let max_row := list_max written_row_numbers in
    let min_inquiry_no := list_min written_inquiry_nos in
    let max_inquiry_no := list_max written_inquiry_nos in
    if (min_row =? max_row)%Z then
      [u "<" ++ spreadsheet_url ++ u "#gid=" ++ str_of_int gid ++ u "&range=A"
       ++ str_of_int min_row ++ u ":N" ++ str_of_int min_row
       ++ u "|問合せNo" ++ str_of_int min_inquiry_no ++ u ">"]
    else
      [u "<" ++ spreadsheet_url ++ u "#gid=" ++ str_of_int gid ++ u "&range=A"
       ++ str_of_int min_row ++ u ":N" ++ str_of_int max_row
       ++ u "|問合せNo" ++ str_of_int min_inquiry_no ++ u "-"
       ++ str_of_int max_inquiry_no ++ u ">"]
  | _, _ => []
  end.

(** The lines of the confirmation for the record at position [idx]
    (counted from 1). *)
Definition item_lines (e : env) (written_inquiry_nos : list Z) (idx : nat)
    (it : item) : result pystr :=
  let head := nl ++ u "【" ++ str_of_int (Z.of_nat idx)
              ++ u "件目】" in
  let no_part :=
    match written_inquiry_nos !! (idx - 1)%nat with
    | Some inquiry_no =>
      if negb (inquiry_no =? 0)%Z
      then u " (問合せNo: " ++ str_of_int inquiry_no ++ u ")" else []
    | None => []
    end in
  let field (k : string) (label : pystr) : pystr :=
    if truthy (get it k)
    then label ++ py_str e (get it k) ++ nl else [] in
  tags_part ←
    match get_or it "tags" (VList []) with
    | VList (t :: ts) =>
      let valid_tags :=
        filter (fun tag => truthy tag && negb (eq_str tag (u "null")))
               (t :: ts) in
      match valid_tags with
      | [] => Ok []
      | _ => j ← join_comma valid_tags;
             Ok (u "タグ: " ++ j ++ nl)
      end
    | _ => Ok []
    end;
  Ok (head ++ no_part ++ nl
      ++ field "target_name" (u "対象者: ")
      ++ field "target_email" (u "メールアドレス: ")
      ++ field "due_date" (u "対応期日: ")
      ++ tags_part).

Fixpoint items_lines (e : env) (written_inquiry_nos : list Z) (idx : nat)
    (l : list item) : result pystr :=
  match l with
  | [] => Ok []
  | it :: rest =>
    a ← item_lines e written_inquiry_nos idx it;
    b ← items_lines e written_inquiry_nos (S idx) rest;
    Ok (a ++ b)
  end.

(** The confirmation message. *)
Definition success_message (e : env) (extracted_data_list : list item)
    (written_row_numbers written_inquiry_nos : list Z) : result pystr :=
  let gid := match sheet_gid e with Ok g => g | Raise _ => 0%Z end in
  let links := sheet_links e gid written_row_numbers written_inquiry_nos in
  let head :=
    u "お問合せ頂いた内容について、以下の通りスプレッドシートに"
    ++ str_of_int (Z.of_nat (length extracted_data_list))
    ++ u "件登録しました。認識相違が無いかご確認ください。"
    ++ nl in
  let link_part :=
    match links with
    | [] => []
    | l :: _ => nl ++ u "📋 スプレッドシート: " ++ l
                ++ nl
    end in
  body ← items_lines e written_inquiry_nos 1 extracted_data_list;
  Ok (head ++ link_part ++ body).

Definition ok_200 : response := (VStr (u "OK"), 200%Z).

(** The call of [extract_info_with_gemini], recorded in the state. *)
Definition call_extract (e : env) (text : pystr) (inquirer_name : pyval)
  : M (list item) :=
  fun w =>
    (extract_info_with_gemini (clock e) (gemini e text inquirer_name),
     mk_world (sheet w) (outbox w) (extractions w ++ [(text, inquirer_name)])).

(** The inner [try] block of the mention branch: extraction, validation,
    persistence and the confirmation.  [None] means the block ran to its
    end without a [return]. *)
Definition process_mention (e : env) (channel thread_ts : pyval)
    (text : pystr) (inquirer_name : pyval) (slack_url : pystr)
  : M (option response) :=
  extracted_data_list ← call_extract e text inquirer_name;
  if is_nil extracted_data_list then
    _ ← send_slack_reply e channel thread_ts empty_batch_message;
    mret (Some ok_200)
  else if email_missing extracted_data_list then
    _ ← send_slack_reply e channel thread_ts email_required_message;
    mret (Some ok_200)
  else
    '(_, written_row_numbers, written_inquiry_nos) ←
      write_to_spreadsheet (sheet_available e) (write_clock e) inquirer_name
        extracted_data_list text slack_url;
    message ← lift (success_message e extracted_data_list
                      written_row_numbers written_inquiry_nos);
    _ ← send_slack_reply e channel thread_ts message;
    mret None.

(** The [app_mention] branch. *)
Definition handle_mention (e : env) (p ev : gmap string pyval)
  : M response :=
  let channel := get ev "channel" in
  let thread_ts := get ev "ts" in
  let user_id := get ev "user" in
  let team_id := get_or p "team_id" (VStr []) in
  match get_or ev "text" (VStr []) with
  | VStr raw =>
    let text := clean_text raw in
    if (1000 <? length text)%nat then
      _ ← send_slack_reply e channel thread_ts (too_long_message (length text));
      mret ok_200
    else
      let inquirer_name := resolve_inquirer e user_id in
      slack_url ← lift (build_slack_url e channel thread_ts team_id);
      r ← try_except
            (process_mention e channel thread_ts text inquirer_name slack_url)
            (fun _ =>
               _ ← try_except
                     (send_slack_reply e channel thread_ts
                        generic_error_message)
                     (fun _ => mret tt);
               mret (Some ok_200));
      mret (match r with Some resp => resp | None => ok_200 end)
  | _ => raise TypeError
  end.

(** [slack_bot_handler], inside its outer [try]. *)
Definition handler_body (e : env) (req : request) : M response :=
  if match retry_num req with Some h => negb (is_nil h) | None => false end
  then mret (VStr [], 200%Z)
  else
    match payload req with
    | VDict p =>
      if negb (bool_decide (p = ∅))
         && eq_str (get p "type") (u "url_verification") then
        let challenge := get p "challenge" in
        if truthy challenge then mret (challenge, 200%Z)
        else mret (VStr (u "Missing challenge"), 400%Z)
      else if bool_decide (p = ∅) then mret (VStr (u "Invalid request"), 400%Z)
      else if verifier_configured e && negb (signature_valid req) then
        mret (VStr (u "Invalid signature"), 401%Z)
      else if negb (eq_str (get p "type") (u "event_callback")) then mret ok_200
      else
        match get_or p "event" (VDict ∅) with
        | VDict ev =>
          if eq_str (get ev "type") (u "app_mention") then handle_mention e p ev
          else mret ok_200
        | _ => raise AttributeError
        end
    | v =>
      if truthy v then raise AttributeError
      else mret (VStr (u "Invalid request"), 400%Z)
    end.

(** [slack_bot_handler]: any exception that escapes becomes a 500. *)
Definition slack_bot_handler (e : env) (req : request) (w : world)
  : response * world :=
  match handler_body e req w with
  | (Ok resp, w') => (resp, w')
  | (Raise _, w') => ((VStr (u "Internal Server Error"), 500%Z), w')
  end.

(* ===================================================================== *)
(** ** Definitions used to state the properties                            *)
(* ===================================================================== *)

(** A code point outside ASCII that is not a decimal digit: the kana and
    kanji of the date idioms are of this kind. *)
Definition foreign (c : char) : bool := (128 <=? c)%N && negb (is_decimal c).

(** The number a run of ASCII or full-width digits denotes. *)
Definition class_digit_value (c : char) : Z :=
  if ((0xFF10 <=? c) && (c <=? 0xFF19))%N then Z.of_N (c - 0xFF10)
  else Z.of_N (c - 0x30).

Definition numeral_value (ds : pystr) : Z :=
  fold_left (fun acc c => (acc * 10 + class_digit_value c)%Z) ds 0%Z.

(** The length of a month of the Gregorian calendar, as the rule is usually
    stated. *)
Definition gregorian_leap (y : Z) : bool :=
  if (y mod 400 =? 0)%Z then true
  else if (y mod 100 =? 0)%Z then false
  else (y mod 4 =? 0)%Z.

Definition gregorian_month_length (y m : Z) : Z :=
  if (m =? 2)%Z then (if gregorian_leap y then 29 else 28)%Z
  else if ((m =? 4) || (m =? 6) || (m =? 9) || (m =? 11))%Z then 30%Z
  else 31%Z.

(** The value [int] gives to a run of decimal digits. *)
Definition decimal_string_value (s : pystr) : Z :=
  fold_left (fun acc c => (acc * 10 + Z.of_N (default 0%N (decimal_value c)))%Z)
            s 0%Z.

Definition ascii_digit (c : char) : bool := ((0x30 <=? c) && (c <=? 0x39))%N.

(** A check of a predicate on every code point up to a bound, by
    evaluation. *)
Fixpoint forall_upto (n : nat) (p : N -> bool) : bool :=
  match n with
  | O => p 0%N
  | S k => p (N.of_nat (S k)) && forall_upto k p
  end.

(** A number below one hundred, zero-padded to two digits. *)
Definition two_digits (n : Z) : pystr :=
  [(48 + Z.to_N (n / 10))%N; (48 + Z.to_N (n mod 10))%N].

(** The code points of white space, one by one. *)
Definition space_points : list N :=
  [0x9; 0xA; 0xB; 0xC; 0xD; 0x1C; 0x1D; 0x1E; 0x1F; 0x20; 0x85; 0xA0; 0x1680;
   0x2000; 0x2001; 0x2002; 0x2003; 0x2004; 0x2005; 0x2006; 0x2007; 0x2008;
   0x2009; 0x200A; 0x2028; 0x2029; 0x202F; 0x205F; 0x3000]%N.

(** The month after month [m] of year [y]. *)
Definition next_month_of (y m : Z) : Z * Z :=
  if (m =? 12)%Z then ((y + 1)%Z, 1%Z) else (y, (m + 1)%Z).

(** [None] for no result, the string otherwise: the value stored back in
    the record. *)
Definition opt_to_val (r : option pystr) : pyval :=
  match r with Some t => VStr t | None => VNone end.

(** The normalizer applied to whatever a record holds under "due_date":
    nothing and any false value give [None], a non-empty string is
    normalized, any other true value has no [lower]. *)
Definition normalize_field (now : datetime) (d : option pyval) : result pyval :=
  match d with
  | None => Ok VNone
  | Some v =>
    if truthy v then
      match v with
      | VStr s => r ← normalize_due_date now (Some s); Ok (opt_to_val r)
      | _ => Raise AttributeError
      end
    else Ok VNone
  end.

(** The records of a parsed reply. *)
Definition records_of (parsed : reply_json) : list item :=
  match parsed with JsonArray l => l | JsonObject o => [o] end.

(** A clock reading for the examples: Tuesday 30 January 2024, 10:00. *)
Definition example_now : datetime := mk_datetime 2024 1 30 10 0 0.

(** The day of the week of a day given by its ordinal, with Monday = 0 ...
    Sunday = 6, counted from a day known to be a Monday: 1 January 2024. *)
Definition known_monday : Z := ymd2ord 2024 1 1.

Definition day_of_week (ordinal : Z) : Z := ((ordinal - known_monday) mod 7)%Z.

(** [t if t else ""]: what a tag slot holds for an entry of the list. *)
Definition slot_value (t : pyval) : pyval := if truthy t then t else VStr [].

(** The five tag slots for a list of tags: the first five entries, false
    ones replaced, then empty strings up to five. *)
Definition five_slots (l : list pyval) : list pyval :=
  map slot_value (take 5 l) ++ replicate (5 - length l) (VStr []).


(** The text cells of the row built for a record. *)
Definition row_cells (max_no : Z) (timestamp : pystr) (inquirer_name : pyval)
    (slack_url original_message : pystr) (idx : nat) (it : item)
  : result (list pystr) :=
  row ← build_row max_no timestamp inquirer_name slack_url original_message
          idx it;
  cells_text row.



(** A worksheet for the examples: a header and two rows, the largest
    inquiry number being 7; and an empty record. *)
Definition example_sheet : sheet_rows :=
  [[u "No"; u "time"]; [u "7"; u "x"]; [u "abc"; u "y"]].

Definition example_world : world := mk_world example_sheet [] [].






(** The validation of the handler as one test: the batch is refused. *)
Definition rejects (batch : list item) : bool :=
  is_nil batch || email_missing batch.

(** A record whose "target_email" is absent, null or the empty string. *)
Definition email_absent_or_empty (it : item) : Prop :=
  it !! "target_email" = None \/ it !! "target_email" = Some VNone
  \/ it !! "target_email" = Some (VStr []).

(** A record that breaks the rule: its tags are a list holding the
    account-management tag and it has no email. *)
Definition violates (it : item) : Prop :=
  (exists l, it !! "tags" = Some (VList l) /\ In (VStr account_tag) l)
  /\ email_absent_or_empty it.

(** The email of a record is typed as the data model has it: absent, null
    or a string. *)
Definition email_typed (it : item) : Prop :=
  match it !! "target_email" with
  | None | Some VNone | Some (VStr _) => True
  | Some _ => False
  end.

(** What the handler does with an accepted batch after the validation. *)
Definition persist_and_confirm (e : env) (channel thread_ts : pyval)
    (text : pystr) (inquirer_name : pyval) (slack_url : pystr)
    (batch : list item) : M (option response) :=
  '(_, written_row_numbers, written_inquiry_nos) ←
    write_to_spreadsheet (sheet_available e) (write_clock e) inquirer_name
      batch text slack_url;
  message ← lift (success_message e batch written_row_numbers
                    written_inquiry_nos);
  _ ← send_slack_reply e channel thread_ts message;
  mret None.

(** Collaborators for the examples: the language model answers [reply], the
    Slack lookups fail (so the user id and the fallback link are used),
    every message is accepted, the worksheet is reachable. *)
Definition example_env (reply : result reply_json) : env :=
  mk_env true (u "KEY") (fun _ => example_now) example_now
    (fun _ _ => reply)
    (fun _ => Raise ExternalError) (fun _ => Raise ExternalError)
    (fun _ _ _ => true) true (Ok 0%Z) (fun _ => []).

(** A record tagged as account management without an email. *)
Definition example_account_item : item :=
  {[ "tags" := VList [VStr account_tag; VNone; VNone; VNone; VNone];
     "target_email" := VNone ]}.

(** The claim's reading of the clean-up: only a mention at the very start
    of the text is removed, then the surrounding white space. *)
Definition leading_mention_removed (raw : pystr) : pystr :=
  match mention_pattern raw with
  | Some rest => strip rest
  | None => strip raw
  end.

(** A request that reaches the mention branch: not a retry, a JSON object
    of type event_callback with a valid signature, whose event is an
    app_mention with the text [raw]. *)
Definition mention_request (e : env) (req : request)
    (p ev : gmap string pyval) (raw : pystr) : Prop :=
  (retry_num req = None \/ retry_num req = Some [])
  /\ payload req = VDict p
  /\ get p "type" = VStr (u "event_callback")
  /\ (verifier_configured e = true -> signature_valid req = true)
  /\ get_or p "event" (VDict ∅) = VDict ev
  /\ get ev "type" = VStr (u "app_mention")
  /\ get_or ev "text" (VStr []) = VStr raw.

(** A mention with a second user mention in the middle of a long text. *)
Definition example_long_text : pystr :=
  u "<@U1> " ++ repeat 97%N 600 ++ u "<@U2>" ++ repeat 97%N 400.

Definition example_event (raw : pystr) : gmap string pyval :=
  {[ "type" := VStr (u "app_mention"); "channel" := VStr (u "C1");
     "ts" := VStr (u "1.2"); "user" := VStr (u "U9"); "text" := VStr raw ]}.

Definition example_payload (raw : pystr) : gmap string pyval :=
  {[ "type" := VStr (u "event_callback");
     "event" := VDict (example_event raw) ]}.

Definition example_request (raw : pystr) : request :=
  mk_request None (VDict (example_payload raw)) true.

(** The month and the day of the [n]-th day (counted from 0) of a year:
    the last part of [ord2ymd]. *)
Definition month_day_of (leapyear : bool) (n : Z) : Z * Z :=
  let m := Z.shiftr (n + 50) 5 in
  let preceding := (nth (Z.to_nat m) DAYS_BEFORE_MONTH 0
                    + b2z ((2 <? m) && leapyear))%Z in
  if (n <? preceding)%Z then
    let m := (m - 1)%Z in
    let preceding := (preceding
      - (nth (Z.to_nat m) mdays 0 + b2z ((m =? 2) && leapyear)))%Z in
    (m, (n - preceding + 1)%Z)
  else (m, (n - preceding + 1)%Z).

(** The check that [month_day_of] lands on a day of the right month. *)
Definition month_day_ok (leapyear : bool) (k : N) : bool :=
  let n := Z.of_N k in
  let '(m, d) := month_day_of leapyear n in
  ((1 <=? m) && (m <=? 12) && (1 <=? d)
   && (d <=? nth (Z.to_nat m) mdays 0 + b2z ((m =? 2) && leapyear))
   && (nth (Z.to_nat m) DAYS_BEFORE_MONTH 0 + b2z ((2 <? m) && leapyear) + d
       =? n + 1))%Z.

(** A date of the proleptic Gregorian calendar. *)
Definition valid_date (y m d : Z) : Prop :=
  (1 <= y /\ 1 <= m <= 12 /\ 1 <= d <= days_in_month y m)%Z.

(** The rules of [normalize_due_date] that come after the one for [N月]:
    the rest of the function body, from the 今月 pattern on. *)
Definition later_rules (now : datetime) (s : pystr) : result (option pystr) :=
  let current_year := year now in
  let current_month := month now in
  if matched (re_search this_month_pattern s) then
    '(_, last_day) ← monthrange current_year current_month;
    Ok (Some (fmt_date current_year current_month last_day))
  else if matched (re_search next_month_pattern s) then
    let next_month := (current_month + 1)%Z in
    let next_year := current_year in
    let '(next_month, next_year) :=
      if (12 <? next_month)%Z then (1%Z, (next_year + 1)%Z)
      else (next_month, next_year) in
    '(_, last_day) ← monthrange next_year next_month;
    Ok (Some (fmt_date next_year next_month last_day))
  else if matched (re_search next_week_pattern s) then
    let days_until_next_week := (7 - weekday now)%Z in
    delta ← timedelta (days_until_next_week + 6)%Z;
    next_week_date ← datetime_add now delta;
    Ok (Some (strftime_ymd next_week_date))
  else if matched (re_search this_week_pattern s) then
    let days_until_sunday := (6 - weekday now)%Z in
    delta ← timedelta days_until_sunday;
    this_weekend ← datetime_add now delta;
    Ok (Some (strftime_ymd this_weekend))
  else
    match days_rule now s with
    | Some r => r
    | None => Ok (Some s)
    end.

(** The characters 月, 週 and 日: every idiom of the catalog holds one. *)
Definition idiom_chars : list N := [0x6708; 0x9031; 0x65E5]%N.

Definition has_idiom_char (s : pystr) : bool :=
  existsb (fun c => existsb (N.eqb c) idiom_chars) s.

(** A date printed as the normalizer prints it: the year, then the month
    and the day on two digits. *)
Definition date_text (y m d : Z) : pystr :=
  str_of_int y ++ u "-" ++ two_digits m ++ u "-" ++ two_digits d.

(** [s.startswith(p)] and [s.endswith(p)]. *)
Definition startswith (p s : pystr) : bool := matched (lit p s).
Definition endswith (p s : pystr) : bool := startswith (rev p) (rev s).

(** The lines of [extract_info_with_gemini] that take the code fence off
    the text of the model's response, before [json.loads]. *)
Definition strip_code_fence (response_text : pystr) : pystr :=
  let result_text := strip response_text in
  let result_text :=
    if startswith (u "```json") result_text then drop 7 result_text
    else result_text in
  let result_text :=
    if startswith (u "```") result_text then drop 3 result_text
    else result_text in
  let result_text :=
    if endswith (u "```") result_text
    then take (length result_text - 3) result_text
    else result_text in
  strip result_text.

(** [extract_info_with_gemini] from the text of the model's response on;
    [json_loads] stands for [json.loads]. *)
Definition extract_from_response (json_loads : pystr -> result reply_json)
    (clock : nat -> datetime) (response_text : pystr) : result (list item) :=
  extract_info_with_gemini clock (json_loads (strip_code_fence response_text)).

(** A string that does not begin with white space. *)
Definition no_space_at_head (s : pystr) : Prop :=
  match s with [] => True | c :: _ => is_space c = false end.

(** A batch of two records, the second with a null "tags" field. *)
Definition example_null_tags_batch : list item :=
  [∅; {[ "tags" := VNone ]}].

(** The test on the X-Slack-Retry-Num header: present and not empty. *)
Definition is_retry (req : request) : bool :=
  match retry_num req with Some h => negb (is_nil h) | None => false end.

(** What a request can do to the state: rows are only appended, and only
    after an extraction was requested; at most one message is sent and at
    most one extraction requested. *)
Definition effects_bounded (w w' : world) : Prop :=
  (exists new, sheet w' = sheet w ++ new
     /\ (new <> [] -> exists x, extractions w' = extractions w ++ [x]))
  /\ (outbox w' = outbox w \/ exists m, outbox w' = outbox w ++ [m])
  /\ (extractions w' = extractions w
      \/ exists x, extractions w' = extractions w ++ [x]).

(** The state after the generic error reply was attempted. *)
Definition after_error_reply (e : env) (channel thread_ts : pyval) (w : world)
  : world :=
  if post_ok e channel thread_ts generic_error_message
  then mk_world (sheet w)
         (outbox w ++ [(channel, thread_ts, generic_error_message)])
         (extractions w)
  else w.




(** A record with two tags and an email, and the mention that carries
    it. *)
Definition example_account_request : item :=
  {[ "tags" := VList [VStr account_tag; VStr (u "Slack"); VNone; VNone; VNone];
     "target_name" := VStr (u "佐藤太郎");
     "target_email" := VStr (u "sato@example.com") ]}.

Definition example_mention_text : pystr :=
  u "<@U123456> 佐藤太郎さんのアカウント作成をお願い。営業部、sato@example.com".

(** The event of the mention test of test_local.py: no user and no team
    id. *)
Definition test_local_event : gmap string pyval :=
  {[ "type" := VStr (u "app_mention"); "channel" := VStr (u "C1234567890");
     "ts" := VStr (u "1234567890.123456");
     "text" := VStr example_mention_text ]}.

Definition test_local_payload : gmap string pyval :=
  {[ "type" := VStr (u "event_callback"); "event" := VDict test_local_event ]}.

(** The first line of the block of the confirmation for the record at
    position [idx] (from 1) registered under [inquiry_no]. *)
Definition record_header (idx : nat) (inquiry_no : Z) : pystr :=
  nl ++ u "【" ++ str_of_int (Z.of_nat idx) ++ u "件目】"
  ++ u " (問合せNo: " ++ str_of_int inquiry_no ++ u ")" ++ nl.

(** The opening sentence of the confirmation for [k] records. *)
Definition confirmation_opening (k : nat) : pystr :=
  u "お問合せ頂いた内容について、以下の通りスプレッドシートに"
  ++ str_of_int (Z.of_nat k)
  ++ u "件登録しました。認識相違が無いかご確認ください。"
  ++ nl.

(* ===================================================================== *)
(** ** Facts about the runtime pieces                                      *)
(* ===================================================================== *)

Lemma lit_Some l s r : lit l s = Some r -> s = l ++ r.
Proof.
  revert s. induction l as [|a l IH]; intros s H; simpl in *.
  - congruence.
  - destruct s as [|b s]; [discriminate|].
    destruct (N.eqb_spec a b) as [->|]; [|discriminate].
    simpl. f_equal. auto.
Qed.

Lemma lit_app l r : lit l (l ++ r) = Some r.
Proof.
  induction l as [|a l IH]; simpl; [reflexivity|].
  now rewrite N.eqb_refl.
Qed.

Lemma span_app_stop p ds rest :
  Forall (fun c => p c = true) ds ->
  match rest with [] => True | c :: _ => p c = false end ->
  span p (ds ++ rest) = (ds, rest).
Proof.
  intros Hds Hrest. induction Hds as [|c ds Hc _ IH]; simpl.
  - destruct rest as [|c r]; [reflexivity|]. cbn. now rewrite Hrest.
  - now rewrite Hc, IH.
Qed.

Lemma re_search_head {A} (pat : pystr -> option A) s r :
  pat s = Some r -> re_search pat s = Some r.
Proof. intros H. destruct s; simpl; now rewrite H. Qed.

Lemma re_search_found {A} (pat : pystr -> option A) s r :
  re_search pat s = Some r ->
  exists pre suf, s = pre ++ suf /\ pat suf = Some r.
Proof.
  induction s as [|c s IH]; simpl.
  - destruct (pat []) eqn:E; [|discriminate].
    intros [= <-]. now exists [], [].
  - destruct (pat (c :: s)) eqn:E.
    + intros [= <-]. now exists [], (c :: s).
    + intros H. destruct (IH H) as (pre & suf & -> & Hp).
      now exists (c :: pre), suf.
Qed.

Lemma re_search_none_app {A} (pat : pystr -> option A) pre suf :
  re_search pat (pre ++ suf) = None -> pat suf = None.
Proof.
  induction pre as [|c pre IH]; simpl.
  - destruct suf; simpl; destruct (pat _); congruence.
  - destruct (pat (c :: pre ++ suf)); [discriminate|]. exact IH.
Qed.

Lemma lower_char_foreign c : (128 <= c)%N -> lower_char c = c.
Proof.
  intros H. unfold lower_char.
  destruct (N.leb_spec 0x41 c), (N.leb_spec c 0x5A); simpl; try reflexivity; lia.
Qed.

(** The words the first guard compares with are ASCII. *)
Lemma null_words_ascii w :
  str_in w [u "null"; u "none"; u ""] = true ->
  Forall (fun c => (c < 128)%N) w.
Proof.
  unfold str_in, pystr_eqb. simpl. rewrite !orb_true_iff.
  intros [H|[H|[H|H]]]; try discriminate;
    apply bool_decide_eq_true in H; subst w;
    vm_compute; repeat constructor.
Qed.

Lemma iso_chars s :
  re_match_iso s = true ->
  Forall (fun c => is_decimal c = true \/ c = 0x2D%N \/ c = 0x0A%N) s.
Proof.
  unfold re_match_iso.
  do 10 (destruct s as [|? s]; [discriminate|]).
  simpl. rewrite !andb_true_iff.
  intros [[[H H1] H2] H3].
  repeat match goal with
         | H : _ /\ _ |- _ => destruct H
         end.
  apply N.eqb_eq in H1, H2.
  assert (Hs : Forall (fun c => is_decimal c = true \/ c = 0x2D%N \/ c = 0x0A%N) s).
  { destruct s as [|c' [|? ?]]; [constructor| |discriminate].
    apply N.eqb_eq in H3. constructor; [auto|constructor]. }
  repeat (constructor; [auto|]). exact Hs.
Qed.

(** A string holding a foreign character passes both guards of the
    normalizer: it is not empty, not a spelling of null, and not an ISO
    date. *)
Lemma guards_pass s c :
  In c s -> foreign c = true ->
  is_nil s || str_in (lower s) [u "null"; u "none"; u ""] = false
  /\ re_match_iso s = false.
Proof.
  intros Hin Hf. unfold foreign in Hf.
  apply andb_true_iff in Hf as [Hge Hnd].
  apply N.leb_le in Hge. apply negb_true_iff in Hnd.
  split.
  - apply orb_false_iff. split.
    + destruct s; [destruct Hin|reflexivity].
    + destruct (str_in (lower s) _) eqn:E; [|reflexivity].
      apply null_words_ascii in E.
      rewrite Forall_forall in E.
      assert (Hc : In (lower_char c) (lower s)) by (apply in_map; exact Hin).
      apply list_elem_of_In in Hc.
      specialize (E _ Hc). rewrite lower_char_foreign in E by exact Hge. lia.
  - destruct (re_match_iso s) eqn:E; [|reflexivity].
    apply iso_chars in E. rewrite Forall_forall in E.
    apply list_elem_of_In in Hin.
    destruct (E _ Hin) as [H|[H|H]]; [congruence| |]; subst c; lia.
Qed.

Lemma forall_upto_spec n p :
  forall_upto n p = true -> forall c, (c <= N.of_nat n)%N -> p c = true.
Proof.
  induction n as [|k IH]; simpl.
  - intros H c Hc. replace c with 0%N by lia. exact H.
  - intros H c Hc. apply andb_true_iff in H as [H1 H2].
    destruct (N.eq_dec c (N.of_nat (S k))) as [->|Hne]; [exact H1|].
    apply IH; [exact H2|lia].
Qed.

Lemma is_space_points c : is_space c = true -> In c space_points.
Proof.
  unfold is_space, in_ranges, space_ranges, space_points. simpl.
  rewrite !orb_true_iff, !andb_true_iff, !N.leb_le. lia.
Qed.

(** No digit of any kind is white space. *)
Lemma digit_not_space c : is_digit_char c = true -> is_space c = false.
Proof.
  intros Hd. destruct (is_space c) eqn:Hs; [|reflexivity].
  apply is_space_points in Hs.
  assert (Hall : forallb (fun c => negb (is_digit_char c)) space_points = true)
    by (vm_compute; reflexivity).
  rewrite forallb_forall in Hall. apply Hall in Hs.
  rewrite Hd in Hs. discriminate.
Qed.

Lemma decimal_is_digit c : is_decimal c = true -> is_digit_char c = true.
Proof. unfold is_digit_char. now intros ->. Qed.

Lemma decimal_not_space c : is_decimal c = true -> is_space c = false.
Proof. intros H. now apply digit_not_space, decimal_is_digit. Qed.

Lemma lstrip_id s :
  match s with [] => True | c :: _ => is_space c = false end -> lstrip s = s.
Proof. destruct s as [|c s]; simpl; [reflexivity|]. now intros ->. Qed.

(** A string none of whose characters is white space is its own strip. *)
Lemma strip_id s : Forall (fun c => is_space c = false) s -> strip s = s.
Proof.
  intros H. unfold strip.
  rewrite (lstrip_id s) by (destruct H; auto).
  assert (Hr : Forall (fun c => is_space c = false) (rev s)).
  { now apply List.Forall_rev. }
  rewrite (lstrip_id (rev s)) by (destruct Hr; auto).
  apply rev_involutive.
Qed.

Lemma parse_digits_decimal s : forall b acc,
  Forall (fun c => is_decimal c = true) s ->
  s <> [] \/ b = true ->
  parse_digits b acc s =
  Some (fold_left (fun a c => (a * 10 + Z.of_N (default 0%N (decimal_value c)))%Z)
                  s acc).
Proof.
  induction s as [|c s IH]; intros b acc Hs Hb; simpl.
  - destruct Hb as [Hb| ->]; [congruence|reflexivity].
  - inversion Hs as [|? ? Hc Hs']; subst.
    unfold is_decimal in Hc.
    destruct (decimal_value c) as [d|] eqn:E; [|discriminate].
    simpl. apply IH; auto.
Qed.

Lemma filter_decimal_id s :
  Forall (fun c => is_decimal c = true) s -> List.filter is_decimal s = s.
Proof.
  induction 1 as [|c s Hc _ IH]; simpl; [reflexivity|]. now rewrite Hc, IH.
Qed.

(** [int] of a non-empty run of decimal digits is its value, unless the run
    is longer than the limit. *)
Lemma int_of_str_decimal s :
  s <> [] -> Forall (fun c => is_decimal c = true) s ->
  int_of_str s =
  if (int_max_str_digits <? Z.of_nat (length s))%Z then Raise ValueError
  else Ok (decimal_string_value s).
Proof.
  intros Hne Hs. unfold int_of_str.
  rewrite strip_id
    by (eapply Forall_impl; [exact Hs|]; intros c Hc; now apply decimal_not_space).
  destruct s as [|c s]; [congruence|].
  inversion Hs as [|? ? Hc _]; subst.
  destruct (N.eqb_spec c 0x2B) as [->|_]; [vm_compute in Hc; discriminate|].
  destruct (N.eqb_spec c 0x2D) as [->|_]; [vm_compute in Hc; discriminate|].
  rewrite parse_digits_decimal, filter_decimal_id by auto. reflexivity.
Qed.

Lemma decimal_value_ascii c :
  ascii_digit c = true -> decimal_value c = Some (c - 0x30)%N.
Proof.
  unfold ascii_digit. rewrite andb_true_iff, !N.leb_le. intros [H1 H2].
  unfold decimal_value, nd_starts, decimal_in.
  destruct (N.leb_spec 0x30 c); [|lia].
  destruct (N.ltb_spec c (0x30 + 10)); [reflexivity|lia].
Qed.

Lemma ascii_digit_decimal c : ascii_digit c = true -> is_decimal c = true.
Proof. intros H. unfold is_decimal. now rewrite decimal_value_ascii. Qed.

Lemma digit_class_translate c :
  digit_class c = true ->
  let c' := (if ((0xFF10 <=? c) && (c <=? 0xFF19))%N
             then (c - 0xFF10 + 0x30)%N else c) in
  ascii_digit c' = true /\ Z.of_N (c' - 0x30) = class_digit_value c.
Proof.
  unfold digit_class, class_digit_value, ascii_digit.
  destruct ((0xFF10 <=? c) && (c <=? 0xFF19))%N eqn:E; simpl.
  - apply andb_true_iff in E as [E1 E2]. apply N.leb_le in E1, E2.
    intros _. split; [|f_equal; lia].
    apply andb_true_iff. split; apply N.leb_le; lia.
  - intros H. split; [exact H|reflexivity].
Qed.

(** The translated group is a run of ASCII digits with the same value. *)
Lemma translate_fullwidth_digits ds :
  Forall (fun c => digit_class c = true) ds ->
  Forall (fun c => is_decimal c = true) (translate_fullwidth ds)
  /\ forall acc,
     fold_left (fun a c => (a * 10 + Z.of_N (default 0%N (decimal_value c)))%Z)
               (translate_fullwidth ds) acc
     = fold_left (fun a c => (a * 10 + class_digit_value c)%Z) ds acc.
Proof.
  induction 1 as [|c ds Hc _ [IH1 IH2]]; simpl.
  - split; [constructor|reflexivity].
  - destruct (digit_class_translate c Hc) as [Ha Hv].
    split.
    + constructor; [now apply ascii_digit_decimal|exact IH1].
    + intros acc. rewrite decimal_value_ascii by exact Ha. simpl.
      rewrite Hv. apply IH2.
Qed.

Lemma int_of_translated ds :
  ds <> [] -> Forall (fun c => digit_class c = true) ds ->
  int_of_str (translate_fullwidth ds) =
  if (int_max_str_digits <? Z.of_nat (length ds))%Z then Raise ValueError
  else Ok (numeral_value ds).
Proof.
  intros Hne Hds.
  destruct (translate_fullwidth_digits ds Hds) as [H1 H2].
  rewrite int_of_str_decimal; [|destruct ds; [congruence|discriminate]|exact H1].
  unfold translate_fullwidth at 1. rewrite length_map.
  unfold decimal_string_value, numeral_value. now rewrite H2.
Qed.

Lemma int_of_translated_short ds :
  ds <> [] -> Forall (fun c => digit_class c = true) ds ->
  (Z.of_nat (length ds) <= int_max_str_digits)%Z ->
  int_of_str (translate_fullwidth ds) = Ok (numeral_value ds).
Proof.
  intros Hne Hds Hlen. rewrite int_of_translated by assumption.
  destruct (Z.ltb_spec int_max_str_digits (Z.of_nat (length ds)));
    [lia|reflexivity].
Qed.

Lemma int_of_translated_long ds :
  ds <> [] -> Forall (fun c => digit_class c = true) ds ->
  (int_max_str_digits < Z.of_nat (length ds))%Z ->
  int_of_str (translate_fullwidth ds) = Raise ValueError.
Proof.
  intros Hne Hds Hlen. rewrite int_of_translated by assumption.
  destruct (Z.ltb_spec int_max_str_digits (Z.of_nat (length ds)));
    [reflexivity|lia].
Qed.

(** [f"{n:02d}"] of a number below one hundred is its two digits. *)
Lemma fmt_02d_two_digits n : (0 <= n < 100)%Z -> fmt_02d n = two_digits n.
Proof.
  intros Hn.
  assert (Hall : forall_upto 99
            (fun k => bool_decide (fmt_02d (Z.of_N k) = two_digits (Z.of_N k)))
          = true) by (vm_compute; reflexivity).
  assert (Hk : (Z.to_N n <= N.of_nat 99)%N) by lia.
  pose proof (forall_upto_spec _ _ Hall _ Hk) as H. cbv beta in H.
  apply bool_decide_eq_true in H. now rewrite Z2N.id in H by lia.
Qed.

(** ** Facts about the calendar *)

Lemma isleap_gregorian y : isleap y = gregorian_leap y.
Proof.
  unfold isleap, gregorian_leap.
  assert (H1 : ((y mod 400) mod 100 = y mod 100)%Z)
    by (apply Z.mod_mod_divide; exists 4%Z; lia).
  assert (H2 : ((y mod 100) mod 4 = y mod 4)%Z)
    by (apply Z.mod_mod_divide; exists 25%Z; lia).
  destruct (Z.eqb_spec (y mod 400) 0) as [E400|E400],
           (Z.eqb_spec (y mod 100) 0) as [E100|E100],
           (Z.eqb_spec (y mod 4) 0) as [E4|E4]; simpl; try reflexivity;
    exfalso;
    try (rewrite E400, Z.mod_0_l in H1 by lia; congruence);
    try (rewrite E100, Z.mod_0_l in H2 by lia; congruence).
Qed.

Lemma month_cases m :
  (1 <= m <= 12)%Z ->
  m = 1%Z \/ m = 2%Z \/ m = 3%Z \/ m = 4%Z \/ m = 5%Z \/ m = 6%Z \/ m = 7%Z \/
  m = 8%Z \/ m = 9%Z \/ m = 10%Z \/ m = 11%Z \/ m = 12%Z.
Proof. lia. Qed.

(** [calendar.monthrange] counts the days of a month as the Gregorian
    calendar has them. *)
Lemma days_in_month_gregorian y m :
  (1 <= m <= 12)%Z -> days_in_month y m = gregorian_month_length y m.
Proof.
  intros Hm. unfold days_in_month, gregorian_month_length.
  rewrite isleap_gregorian.
  destruct (month_cases m Hm) as
    [->|[->|[->|[->|[->|[->|[->|[->|[->|[->|[->| ->]]]]]]]]]]];
    simpl; try reflexivity.
  destruct (gregorian_leap y); reflexivity.
Qed.

Lemma gregorian_month_length_range y m :
  (28 <= gregorian_month_length y m <= 31)%Z.
Proof.
  unfold gregorian_month_length.
  repeat match goal with |- context [if ?b then _ else _] => destruct b end; lia.
Qed.

Lemma monthrange_ok y m :
  (1 <= m <= 12)%Z ->
  exists wd, monthrange y m = Ok (wd, gregorian_month_length y m).
Proof.
  intros Hm. unfold monthrange.
  destruct (Z.leb_spec 1 m); [|lia]. destruct (Z.leb_spec m 12); [|lia].
  simpl. rewrite days_in_month_gregorian by exact Hm. eauto.
Qed.

Lemma fmt_date_two_digits y m d :
  (0 <= m < 100)%Z -> (0 <= d < 100)%Z ->
  fmt_date y m d = str_of_int y ++ u "-" ++ two_digits m ++ u "-" ++ two_digits d.
Proof.
  intros Hm Hd. unfold fmt_date. now rewrite !fmt_02d_two_digits.
Qed.

(** ** The month rule of the normalizer *)

Lemma month_pattern_at ds suffix :
  ds <> [] -> Forall (fun c => digit_class c = true) ds ->
  In suffix [u "中"; u "末"; u "まで"] ->
  month_pattern (ds ++ u "月" ++ suffix) = Some (ds, suffix).
Proof.
  intros Hne Hds Hsuf. unfold month_pattern.
  rewrite span_app_stop; [|exact Hds|vm_compute; reflexivity].
  destruct ds as [|c ds]; [congruence|].
  rewrite lit_app. simpl in Hsuf.
  destruct Hsuf as [<-|[<-|[<-|[]]]]; vm_compute; reflexivity.
Qed.

Lemma month_rule_fires y ds suffix :
  ds <> [] -> Forall (fun c => digit_class c = true) ds ->
  (Z.of_nat (length ds) <= int_max_str_digits)%Z ->
  (1 <= numeral_value ds <= 12)%Z ->
  In suffix [u "中"; u "末"; u "まで"] ->
  month_rule y (ds ++ u "月" ++ suffix) =
  Some (Ok (Some (fmt_date y (numeral_value ds)
                    (gregorian_month_length y (numeral_value ds))))).
Proof.
  intros Hne Hds Hlen Hn Hsuf. unfold month_rule.
  rewrite (re_search_head _ _ _ (month_pattern_at ds suffix Hne Hds Hsuf)).
  rewrite int_of_translated_short by assumption.
  destruct (monthrange_ok y _ Hn) as [wd Hmr].
  cbn [mbind result_bind].
  destruct (Z.leb_spec 1 (numeral_value ds)); [|lia].
  destruct (Z.leb_spec (numeral_value ds) 12); [|lia].
  cbn [andb].
  simpl in Hsuf.
  destruct Hsuf as [<-|[<-|[<-|[]]]].
  - replace (pystr_eqb (u "中") (u "末")) with false by (vm_compute; reflexivity).
    replace (str_in (u "中") [u "中"; u "まで"]) with true by (vm_compute; reflexivity).
    rewrite Hmr. reflexivity.
  - replace (pystr_eqb (u "末") (u "末")) with true by (vm_compute; reflexivity).
    rewrite Hmr. reflexivity.
  - replace (pystr_eqb (u "まで") (u "末")) with false by (vm_compute; reflexivity).
    replace (str_in (u "まで") [u "中"; u "まで"]) with true by (vm_compute; reflexivity).
    rewrite Hmr. reflexivity.
Qed.

(** C1.  For a month N from 1 to 12 written with ASCII or full-width digits
    (in any mix, leading zeros allowed, at most [int_max_str_digits] = 4300
    digits, the longest numeral [int] converts) and each of the suffixes 中,
    末 and まで, [normalize_due_date] of "N月<suffix>" is "Y-MM-DD": Y the
    current year, MM the month on two digits, DD the length of that month in
    the Gregorian calendar (29 for February of a leap year).  The result
    does not depend on the suffix. *)
Theorem normalize_month_end now ds suffix :
  ds <> [] ->
  Forall (fun c => digit_class c = true) ds ->
  (Z.of_nat (length ds) <= int_max_str_digits)%Z ->
  (1 <= numeral_value ds <= 12)%Z ->
  In suffix [u "中"; u "末"; u "まで"] ->
  normalize_due_date now (Some (ds ++ u "月" ++ suffix)) =
  Ok (Some (str_of_int (year now) ++ u "-"
            ++ two_digits (numeral_value ds) ++ u "-"
            ++ two_digits (gregorian_month_length (year now) (numeral_value ds)))).
Proof.
  intros Hne Hds Hlen Hn Hsuf.
  assert (Hin : In 0x6708%N (ds ++ u "月" ++ suffix))
    by (apply in_or_app; right; left; reflexivity).
  destruct (guards_pass _ _ Hin eq_refl) as [G1 G2].
  unfold normalize_due_date. rewrite G1, G2.
  rewrite month_rule_fires by assumption.
  rewrite fmt_date_two_digits; [reflexivity|lia|].
  pose proof (gregorian_month_length_range (year now) (numeral_value ds)). lia.
Qed.

Lemma normalize_month_end_witness :
  normalize_due_date (mk_datetime 2024 1 30 10 0 0) (Some (u "２月中"))
  = Ok (Some (u "2024-02-29")).
Proof.
  apply (normalize_month_end (mk_datetime 2024 1 30 10 0 0) (u "２") (u "中")).
  - discriminate.
  - repeat constructor.
  - vm_compute. discriminate.
  - vm_compute. split; discriminate.
  - left. reflexivity.
Defined.

(** ** The later rules of the normalizer *)

Lemma month_rule_none y s : re_search month_pattern s = None -> month_rule y s = None.
Proof. intros H. unfold month_rule. now rewrite H. Qed.

Lemma option_bind_Some {A B} (o : option A) (k : A -> option B) b :
  o ≫= k = Some b -> exists a, o = Some a /\ k a = Some b.
Proof. destruct o as [a|]; simpl; [eauto|discriminate]. Qed.

(** A string in which a pattern beginning with a literal is found holds the
    first character of that literal. *)
Lemma search_literal_in {A} (pat : pystr -> option A) (l : pystr) c l' s :
  l = c :: l' ->
  (forall t, matched (pat t) = true -> exists r, t = l ++ r) ->
  matched (re_search pat s) = true -> In c s.
Proof.
  intros -> Hpat H.
  destruct (re_search pat s) as [r|] eqn:E; [|discriminate].
  destruct (re_search_found _ _ _ E) as (pre & suf & -> & Hsuf).
  destruct (Hpat suf) as [r' ->]; [now rewrite Hsuf|].
  apply in_or_app. right. left. reflexivity.
Qed.

Lemma next_month_pattern_lit t :
  matched (next_month_pattern t) = true -> exists r, t = u "来月" ++ r.
Proof.
  unfold next_month_pattern.
  destruct (lit (u "来月") t) as [r|] eqn:E; [|discriminate].
  intros _. exists r. now apply lit_Some.
Qed.

Lemma next_week_pattern_lit t :
  matched (next_week_pattern t) = true -> exists r, t = u "来週" ++ r.
Proof.
  unfold next_week_pattern.
  destruct (lit (u "来週") t) as [r|] eqn:E; [|discriminate].
  intros _. exists r. now apply lit_Some.
Qed.

Lemma this_week_pattern_lit t :
  matched (this_week_pattern t) = true -> exists r, t = u "今週" ++ r.
Proof.
  unfold this_week_pattern.
  destruct (lit (u "今週") t) as [r|] eqn:E; [|discriminate].
  intros _. exists r. now apply lit_Some.
Qed.

(** What is left of the normalizer once both guards are passed and the
    month rule does not return. *)
Lemma normalize_after_month_rule now s c :
  In c s -> foreign c = true ->
  re_search month_pattern s = None ->
  normalize_due_date now (Some s) =
  if matched (re_search this_month_pattern s) then
    '(_, last_day) ← monthrange (year now) (month now);
    Ok (Some (fmt_date (year now) (month now) last_day))
  else if matched (re_search next_month_pattern s) then
    let '(next_month, next_year) :=
      if (12 <? month now + 1)%Z then (1%Z, (year now + 1)%Z)
      else ((month now + 1)%Z, year now) in
    '(_, last_day) ← monthrange next_year next_month;
    Ok (Some (fmt_date next_year next_month last_day))
  else if matched (re_search next_week_pattern s) then
    delta ← timedelta (7 - weekday now + 6)%Z;
    next_week_date ← datetime_add now delta;
    Ok (Some (strftime_ymd next_week_date))
  else if matched (re_search this_week_pattern s) then
    delta ← timedelta (6 - weekday now)%Z;
    this_weekend ← datetime_add now delta;
    Ok (Some (strftime_ymd this_weekend))
  else
    match days_rule now s with
    | Some r => r
    | None => Ok (Some s)
    end.
Proof.
  intros Hin Hf Hm.
  destruct (guards_pass _ _ Hin Hf) as [G1 G2].
  unfold normalize_due_date. rewrite G1, G2, (month_rule_none _ _ Hm).
  reflexivity.
Qed.

(** C5.  For an input in which 来月 (with or without one of the suffixes 末,
    中, まで) is found and which no earlier rule of the catalog claims (no
    "N月" idiom, no 今月 idiom), [normalize_due_date] gives the last day of
    the month after the current one; in December that is the 31st of
    January of the following year. *)
Theorem normalize_next_month now s ny nm :
  (1 <= month now <= 12)%Z ->
  matched (re_search next_month_pattern s) = true ->
  re_search month_pattern s = None ->
  matched (re_search this_month_pattern s) = false ->
  next_month_of (year now) (month now) = (ny, nm) ->
  normalize_due_date now (Some s) =
    Ok (Some (str_of_int ny ++ u "-" ++ two_digits nm ++ u "-"
              ++ two_digits (gregorian_month_length ny nm)))
  /\ (month now = 12%Z ->
      normalize_due_date now (Some s) =
        Ok (Some (str_of_int (year now + 1) ++ u "-01-31"))).
Proof.
  intros Hm Hnext Hmonth Hthis Hnm.
  assert (Hin : In 0x6765%N s).
  { eapply (search_literal_in next_month_pattern (u "来月"));
      [reflexivity|exact next_month_pattern_lit|exact Hnext]. }
  rewrite (normalize_after_month_rule now s _ Hin eq_refl Hmonth).
  rewrite Hthis, Hnext. unfold next_month_of in Hnm.
  destruct (Z.eqb_spec (month now) 12) as [E|E]; injection Hnm as <- <-.
  - rewrite E. change (12 <? 12 + 1)%Z with true. cbv iota beta.
    destruct (monthrange_ok (year now + 1) 1 ltac:(lia)) as [wd ->].
    cbn [mbind result_bind].
    rewrite fmt_date_two_digits by (vm_compute; split; congruence).
    split; [reflexivity|]. intros _. reflexivity.
  - destruct (Z.ltb_spec 12 (month now + 1)); [lia|].
    destruct (monthrange_ok (year now) (month now + 1) ltac:(lia)) as [wd ->].
    cbn [mbind result_bind].
    rewrite fmt_date_two_digits;
      [|lia|pose proof (gregorian_month_length_range (year now) (month now + 1)); lia].
    split; [reflexivity|]. intros; lia.
Qed.

Lemma normalize_next_month_witness :
  normalize_due_date (mk_datetime 2024 12 30 10 0 0) (Some (u "来月末"))
  = Ok (Some (u "2025-01-31")).
Proof.
  refine (proj1 (normalize_next_month (mk_datetime 2024 12 30 10 0 0)
                   (u "来月末") 2025 1 _ _ _ _ _)).
  - vm_compute. split; discriminate.
  - vm_compute. reflexivity.
  - vm_compute. reflexivity.
  - vm_compute. reflexivity.
  - reflexivity.
Defined.

(** ** Pass-through and failure of the normalizer *)

Lemma null_words_short w :
  str_in w [u "null"; u "none"; u ""] = true -> (length w <= 4)%nat.
Proof.
  unfold str_in, pystr_eqb. simpl. rewrite !orb_true_iff.
  intros [H|[H|[H|H]]]; try discriminate;
    apply bool_decide_eq_true in H; subst w; vm_compute; lia.
Qed.

Lemma iso_length s : re_match_iso s = true -> (10 <= length s)%nat.
Proof.
  unfold re_match_iso.
  do 10 (destruct s as [|? s]; [discriminate|]). simpl. lia.
Qed.

(** The parts of the normalizer's contract that hold: [None], the empty
    string and the spellings of null and none give [None]; an ISO date is
    returned as it is; a string that no pattern of the catalog matches is
    returned as it is. *)
Lemma normalize_pass_through now :
  normalize_due_date now None = Ok None
  /\ (forall s, s = [] \/ lower s = u "null" \/ lower s = u "none" ->
        normalize_due_date now (Some s) = Ok None)
  /\ (forall s, re_match_iso s = true ->
        normalize_due_date now (Some s) = Ok (Some s))
  /\ (forall s,
        is_nil s || str_in (lower s) [u "null"; u "none"; u ""] = false ->
        re_search month_pattern s = None ->
        matched (re_search this_month_pattern s) = false ->
        matched (re_search next_month_pattern s) = false ->
        matched (re_search next_week_pattern s) = false ->
        matched (re_search this_week_pattern s) = false ->
        re_search days_pattern s = None ->
        normalize_due_date now (Some s) = Ok (Some s)).
Proof.
  split; [reflexivity|]. split; [|split].
  - intros s Hs. unfold normalize_due_date.
    destruct Hs as [->|[H|H]]; [reflexivity| |];
      destruct (is_nil s); try reflexivity; simpl;
      unfold str_in, pystr_eqb; simpl; rewrite H; reflexivity.
  - intros s Hiso. unfold normalize_due_date.
    pose proof (iso_length _ Hiso) as Hlen.
    destruct (is_nil s) eqn:En; [destruct s; [simpl in Hlen; lia|discriminate]|].
    destruct (str_in (lower s) _) eqn:E.
    + apply null_words_short in E. unfold lower in E.
      rewrite length_map in E. lia.
    + simpl. now rewrite Hiso.
  - intros s G Hm H1 H2 H3 H4 Hd. unfold normalize_due_date.
    rewrite G, (month_rule_none _ _ Hm), H1, H2, H3, H4.
    destruct (re_match_iso s); [reflexivity|].
    unfold days_rule. now rewrite Hd.
Qed.

(** C7.  The normalizer is not total: on "1000000000日後" the day count
    parses, [timedelta] refuses it with [OverflowError], and the [except
    ValueError] around the block does not catch that, whatever the clock
    says. *)
Theorem normalize_days_overflow_raises now :
  normalize_due_date now (Some (u "1000000000日後")) = Raise OverflowError.
Proof. vm_compute. reflexivity. Qed.

(** The same escape when the day count is accepted by [timedelta] but the
    date falls after year 9999. *)
Lemma normalize_days_out_of_range_raises :
  normalize_due_date (mk_datetime 2024 1 30 10 0 0) (Some (u "3000000日後"))
  = Raise OverflowError.
Proof. vm_compute. reflexivity. Qed.

(** ** extract_info_with_gemini *)

Lemma normalize_item_spec now it it' :
  normalize_item now it = Ok it' ->
  match it !! "due_date" with
  | Some d =>
    if truthy d then
      Ok (get it' "due_date") = normalize_field now (Some d)
      /\ it' = <["due_date" := get it' "due_date"]> it
    else it' = it
  | None => it' = it
  end.
Proof.
  unfold normalize_item, normalize_field.
  destruct (it !! "due_date") as [d|] eqn:E; [|now intros [= <-]].
  destruct (truthy d) eqn:T; [|now intros [= <-]].
  unfold normalize_value.
  destruct d as [| | |s| |]; try discriminate.
  destruct (normalize_due_date now (Some s)) as [r|e]; [|discriminate].
  cbn [mbind result_bind]. intros [= <-].
  unfold get. rewrite lookup_insert_eq. simpl. split; reflexivity.
Qed.

Lemma normalize_items_spec clock l : forall i out,
  normalize_items clock i l = Ok out ->
  length out = length l /\
  forall k it, l !! k = Some it ->
    exists it', out !! k = Some it' /\ normalize_item (clock (i + k)%nat) it = Ok it'.
Proof.
  induction l as [|a l IH]; intros i out; simpl.
  - intros [= <-]. split; [reflexivity|]. intros k it H. discriminate.
  - destruct (normalize_item (clock i) a) as [a'|] eqn:Ea; [|discriminate].
    cbn [mbind result_bind].
    destruct (normalize_items clock (S i) l) as [rest|] eqn:Er; [|discriminate].
    cbn [mbind result_bind]. intros [= <-].
    destruct (IH _ _ Er) as [Hlen Hk].
    split; [simpl; now rewrite Hlen|].
    intros [|k] it H; simpl in H.
    + injection H as <-. exists a'. rewrite Nat.add_0_r. now split.
    + destruct (Hk k it H) as (it' & H1 & H2).
      exists it'. split; [exact H1|].
      now replace (i + S k)%nat with (S i + k)%nat by lia.
Qed.

(** C4, as the code has it.  In the batch the extraction returns, record
    [i] is the collaborator's record [i]; when its due date is present and
    true (a non-empty string), the field holds the normalizer's result for
    it; when the due date is absent or false (null, the empty string), the
    record is returned untouched. *)
Theorem extraction_normalizes_true_due_dates clock parsed out :
  extract_info_with_gemini clock (Ok parsed) = Ok out ->
  length out = length (records_of parsed) /\
  forall i it, records_of parsed !! i = Some it ->
    exists it', out !! i = Some it' /\
      match it !! "due_date" with
      | Some d =>
        if truthy d then
          Ok (get it' "due_date") = normalize_field (clock i) (Some d)
          /\ it' = <["due_date" := get it' "due_date"]> it
        else it' = it
      | None => it' = it
      end.
Proof.
  unfold extract_info_with_gemini. cbn [mbind result_bind].
  fold (records_of parsed). intros H.
  destruct (normalize_items_spec _ _ _ _ H) as [Hlen Hk].
  split; [exact Hlen|].
  intros i it Hi. destruct (Hk i it Hi) as (it' & H1 & H2).
  exists it'. split; [exact H1|]. now apply normalize_item_spec.
Qed.

Lemma extraction_normalizes_true_due_dates_witness :
  let parsed := JsonArray [ {["due_date" := VStr (u "来月末")]};
                            {["due_date" := VNone]} ] in
  let out := [ {["due_date" := VStr (u "2024-02-29")]};
               {["due_date" := VNone]} ] in
  length out = length (records_of parsed) /\
  forall i it, records_of parsed !! i = Some it ->
    exists it', out !! i = Some it' /\
      match it !! "due_date" with
      | Some d =>
        if truthy d then
          Ok (get it' "due_date") = normalize_field example_now (Some d)
          /\ it' = <["due_date" := get it' "due_date"]> it
        else it' = it
      | None => it' = it
      end.
Proof.
  apply (extraction_normalizes_true_due_dates (fun _ => example_now)).
  vm_compute. reflexivity.
Defined.

(** C4, as stated, fails: a record whose due date is the empty string is
    returned with the empty string, while the normalizer maps the empty
    string to [None]. *)
Lemma extraction_keeps_empty_due_date :
  ~ (forall clock parsed out i it it',
       extract_info_with_gemini clock (Ok parsed) = Ok out ->
       records_of parsed !! i = Some it ->
       out !! i = Some it' ->
       Ok (get it' "due_date") = normalize_field (clock i) (it !! "due_date")).
Proof.
  intros H.
  specialize (H (fun _ => example_now)
                (JsonArray [ {["due_date" := VStr []]} ])
                [ {["due_date" := VStr []]} ] 0%nat
                {["due_date" := VStr []]} {["due_date" := VStr []]}
                eq_refl eq_refl eq_refl).
  vm_compute in H. discriminate.
Qed.

(** ** The row built for a record *)

Lemma comprehension_length f range vs :
  comprehension f range = Ok vs -> length vs = length range.
Proof.
  revert vs. induction range as [|i range IH]; intros vs; simpl.
  - now intros [= <-].
  - destruct (f i); [|discriminate]. cbn [mbind result_bind].
    destruct (comprehension f range); [|discriminate].
    cbn [mbind result_bind]. intros [= <-]. simpl. f_equal. now apply IH.
Qed.

Lemma tag_list_of_list l : tag_list_of (VList l) = Ok (five_slots l).
Proof.
  unfold tag_list_of, five_slots, slot_value.
  destruct l as [|a [|b [|c [|d [|e l]]]]]; reflexivity.
Qed.

(** C8.  Every row built for a record has exactly five tag slots, in
    columns 5 to 9 of 14, whatever the record holds under "tags" (a value
    that has no length, or an object with entries, raises before any row
    exists).  When the record holds a list, or no "tags" at all, the row is
    built and its slots are the first five entries in order, each false
    entry (null, the empty string) replaced by the empty string, followed
    by empty strings up to five. *)
Theorem row_has_five_tag_slots max_no timestamp inquirer_name slack_url
    original_message idx (it : item) :
  let before := [VInt (max_no + Z.of_nat idx + 1); VStr timestamp;
                 inquirer_name; VStr slack_url] in
  let after := [get_or it "target_name" (VStr []);
                get_or it "target_email" (VStr []);
                get_or it "due_date" (VStr []);
                get_or it "details" (VStr []);
                VStr original_message] in
  (forall row,
     build_row max_no timestamp inquirer_name slack_url original_message idx it
       = Ok row ->
     exists slots, length slots = 5%nat /\ row = before ++ slots ++ after
                   /\ length row = 14%nat)
  /\ (forall l,
        get_or it "tags" (VList []) = VList l ->
        build_row max_no timestamp inquirer_name slack_url original_message
          idx it = Ok (before ++ five_slots l ++ after)
        /\ length (five_slots l) = 5%nat
        /\ (length l <= 5 ->
            five_slots l = map slot_value l
                           ++ replicate (5 - length l) (VStr []))%nat
        /\ (5 <= length l -> five_slots l = map slot_value (take 5 l))%nat).
Proof.
  intros before after. split.
  - intros row. unfold build_row.
    destruct (tag_list_of _) as [slots|] eqn:E; [|discriminate].
    cbn [mbind result_bind]. intros [= <-].
    apply comprehension_length in E. simpl in E.
    exists slots. split; [exact E|]. split; [reflexivity|].
    simpl. rewrite length_app, E. reflexivity.
  - intros l Hl. unfold build_row. rewrite Hl, tag_list_of_list.
    split; [reflexivity|].
    assert (Hlen : length (five_slots l) = 5%nat).
    { unfold five_slots.
      rewrite length_app, length_map, length_take, length_replicate. lia. }
    split; [exact Hlen|]. split; intros H; unfold five_slots.
    + now rewrite take_ge by lia.
    + replace (5 - length l)%nat with 0%nat by lia. simpl.
      now rewrite app_nil_r.
Qed.

Lemma row_has_five_tag_slots_witness :
  build_row 7 (u "2024-01-30 10:00:00") (VStr (u "sato")) (u "") (u "m") 0
    {["tags" := VList [VStr (u "a"); VNone; VStr []; VStr (u "b");
                       VStr (u "c"); VStr (u "d"); VStr (u "e")]]}
  = Ok ([VInt 8; VStr (u "2024-01-30 10:00:00"); VStr (u "sato"); VStr (u "")]
        ++ [VStr (u "a"); VStr []; VStr []; VStr (u "b"); VStr (u "c")]
        ++ [VStr []; VStr []; VStr []; VStr []; VStr (u "m")]).
Proof.
  refine (proj1 (proj2 (row_has_five_tag_slots 7 (u "2024-01-30 10:00:00")
     (VStr (u "sato")) (u "") (u "m") 0
     {["tags" := VList [VStr (u "a"); VNone; VStr []; VStr (u "b");
                        VStr (u "c"); VStr (u "d"); VStr (u "e")]]})
     [VStr (u "a"); VNone; VStr []; VStr (u "b");
      VStr (u "c"); VStr (u "d"); VStr (u "e")] _)).
  reflexivity.
Defined.

(** ** Printing and reading back an inquiry number *)

Lemma digits_of_spec fuel : forall n,
  (n < 2 ^ N.of_nat fuel)%N -> (0 < fuel)%nat ->
  digits_of fuel n <> []
  /\ Forall (fun c => ascii_digit c = true) (digits_of fuel n)
  /\ fold_left (fun a c => (a * 10 + Z.of_N (c - 0x30))%Z) (digits_of fuel n) 0%Z
     = Z.of_N n.
Proof.
  induction fuel as [|f IH]; intros n Hn Hf; [lia|].
  simpl. destruct (N.ltb_spec n 10) as [Hlt|Hge].
  - split; [discriminate|]. split.
    + constructor; [|constructor]. unfold ascii_digit.
      apply andb_true_iff; split; apply N.leb_le; lia.
    + simpl. f_equal. lia.
  - assert (Hf' : (0 < f)%nat).
    { destruct f; [|lia]. change (2 ^ N.of_nat 1)%N with 2%N in Hn. lia. }
    assert (Hdiv : (n / 10 < 2 ^ N.of_nat f)%N).
    { replace (N.of_nat (S f)) with (N.succ (N.of_nat f)) in Hn by lia.
      rewrite N.pow_succ_r' in Hn.
      apply N.Div0.div_lt_upper_bound. lia. }
    destruct (IH _ Hdiv Hf') as (H1 & H2 & H3).
    split; [destruct (digits_of f (n / 10)); [congruence|discriminate]|].
    split.
    + apply Forall_app. split; [exact H2|].
      constructor; [|constructor]. unfold ascii_digit.
      pose proof (N.mod_upper_bound n 10 ltac:(lia)) as Hm.
      clear - Hm. generalize dependent (n mod 10)%N. intros r Hm.
      apply andb_true_iff; split; apply N.leb_le; lia.
    + rewrite fold_left_app, H3. simpl.
      pose proof (N.div_mod n 10 ltac:(lia)) as Hdm.
      pose proof (N.mod_upper_bound n 10 ltac:(lia)) as Hm.
      clear - Hdm Hm.
      generalize dependent (n mod 10)%N. generalize dependent (n / 10)%N.
      intros q r Hdm Hm. lia.
Qed.

Lemma str_of_N_spec n :
  str_of_N n <> []
  /\ Forall (fun c => ascii_digit c = true) (str_of_N n)
  /\ fold_left (fun a c => (a * 10 + Z.of_N (c - 0x30))%Z) (str_of_N n) 0%Z
     = Z.of_N n.
Proof.
  unfold str_of_N. apply digits_of_spec; [|lia].
  destruct (N.eq_dec n 0%N) as [->|Hn]; [reflexivity|].
  pose proof (N.log2_spec n ltac:(lia)) as [_ H].
  replace (N.of_nat (S (N.to_nat (N.log2 n)))) with (N.succ (N.log2 n)) by lia.
  exact H.
Qed.





(** ** The largest existing inquiry number *)







(** ** The loop that appends the rows *)

Lemma append_rows_cons n mx ts name url msg idx it rest written w :
  append_rows n mx ts name url msg idx (it :: rest) written w =
  match row_cells mx ts name url msg idx it with
  | Ok cells =>
    append_rows n mx ts name url msg (S idx) rest
      (written ++ [(Z.of_nat n + Z.of_nat (length written) + 1)%Z])
      (mk_world (sheet w ++ [cells]) (outbox w) (extractions w))
  | Raise e => (Raise e, w)
  end.
Proof.
  unfold row_cells. simpl.
  unfold mbind at 1, M_bind, lift.
  destruct (build_row mx ts name url msg idx it) as [row|e]; [|reflexivity].
  cbn [mbind result_bind].
  unfold mbind at 1, M_bind, worksheet_append_row, append_row.
  destruct (cells_text row) as [cells|e]; reflexivity.
Qed.

Lemma append_rows_spec n mx ts name url msg records : forall idx written w,
  let res := append_rows n mx ts name url msg idx records written w in
  exists new,
    sheet (snd res) = sheet w ++ new
    /\ outbox (snd res) = outbox w
    /\ extractions (snd res) = extractions w
    /\ (forall k cells, new !! k = Some cells ->
          exists it, records !! k = Some it
            /\ row_cells mx ts name url msg (idx + k) it = Ok cells)
    /\ match fst res with
       | Ok rows =>
         length new = length records
         /\ rows = written
                   ++ map (fun k => (Z.of_nat n
                                     + Z.of_nat (length written + k) + 1)%Z)
                          (seq 0 (length records))
       | Raise _ => (length new < length records)%nat
       end.
Proof.
  induction records as [|it rest IH]; intros idx written w res.
  - exists []. subst res. simpl. rewrite !app_nil_r.
    repeat split; try reflexivity. intros k cells H. discriminate.
  - subst res. rewrite append_rows_cons.
    destruct (row_cells mx ts name url msg idx it) as [cells|e] eqn:Ec.
    + specialize (IH (S idx)
        (written ++ [(Z.of_nat n + Z.of_nat (length written) + 1)%Z])
        (mk_world (sheet w ++ [cells]) (outbox w) (extractions w))).
      cbv zeta in IH.
      destruct IH as (new & Hs & Ho & He & Hk & Hr).
      exists (cells :: new). simpl in Hs, Ho, He.
      split; [rewrite Hs, <- app_assoc; reflexivity|].
      split; [exact Ho|]. split; [exact He|]. split.
      * intros [|k] c Hc; simpl in Hc.
        -- injection Hc as <-. exists it. rewrite Nat.add_0_r. now split.
        -- destruct (Hk k c Hc) as (it' & H1 & H2). exists it'.
           split; [exact H1|].
           now replace (idx + S k)%nat with (S idx + k)%nat by lia.
      * destruct (fst (append_rows _ _ _ _ _ _ _ _ _ _)) as [rows|e].
        -- destruct Hr as [Hlen ->]. split; [simpl; now rewrite Hlen|].
           rewrite <- app_assoc. f_equal. simpl. f_equal.
           ++ f_equal. lia.
           ++ rewrite <- seq_shift, map_map. apply map_ext. intros k.
              rewrite length_app. simpl. f_equal. lia.
        -- simpl. lia.
    + exists []. simpl. rewrite app_nil_r.
      repeat split; try reflexivity; [|lia]. intros k cells H. discriminate.
Qed.

Lemma cells_text_head v rest cells :
  cells_text (v :: rest) = Ok cells ->
  exists c, cell_text v = Ok c /\ head cells = Some c.
Proof.
  simpl. destruct (cell_text v) as [c|]; [|discriminate].
  cbn [mbind result_bind].
  destruct (cells_text rest); [|discriminate].
  cbn [mbind result_bind]. intros [= <-]. eauto.
Qed.

(** The first cell of the row of the record at index [idx] is the text of
    [max + idx + 1]. *)
Lemma row_cells_head mx ts name url msg idx it cells :
  row_cells mx ts name url msg idx it = Ok cells ->
  exists rest, cells = str_of_int (mx + Z.of_nat idx + 1)%Z :: rest.
Proof.
  unfold row_cells, build_row.
  destruct (tag_list_of _) as [slots|]; [|discriminate].
  cbn [mbind result_bind]. intros H.
  apply cells_text_head in H as (c & Hc & Hh). simpl in Hc.
  injection Hc as <-. destruct cells as [|c rest]; [discriminate|].
  injection Hh as ->. eauto.
Qed.





(** ** write_to_spreadsheet *)

Lemma write_to_spreadsheet_unfold now name batch msg url w :
  write_to_spreadsheet true now name batch msg url w =
  let res := append_rows (length (sheet w)) (max_inquiry_no_of (sheet w))
               (strftime_ymd_hms now) name url msg 0 batch [] w in
  match fst res with
  | Ok rows =>
    (Ok (true, rows, inquiry_nos (max_inquiry_no_of (sheet w)) (length batch)),
     snd res)
  | Raise e => (Raise e, snd res)
  end.
Proof.
  unfold write_to_spreadsheet. simpl.
  unfold mbind, M_bind, mret, M_ret.
  destruct (append_rows _ _ _ _ _ _ _ _ _ _) as [[rows|e] w']; reflexivity.
Qed.

Lemma inquiry_nos_lookup mx k i :
  (i < k)%nat -> inquiry_nos mx k !! i = Some (mx + Z.of_nat i + 1)%Z.
Proof.
  intros H. unfold inquiry_nos.
  rewrite list_lookup_fmap, lookup_seq_lt by exact H. reflexivity.
Qed.



(** ** Successive calls of the persister *)










(** ** Validation in the handler *)

Lemma eq_str_true v s : eq_str v s = true <-> v = VStr s.
Proof.
  unfold eq_str, pystr_eqb. destruct v; split; try discriminate.
  - intros H. apply bool_decide_eq_true in H. now subst.
  - intros [= ->]. now apply bool_decide_eq_true.
Qed.

Lemma has_account_tag_spec (it : item) :
  has_account_tag (get_or it "tags" (VList [])) = true <->
  exists l, it !! "tags" = Some (VList l) /\ In (VStr account_tag) l.
Proof.
  unfold get_or, has_account_tag.
  destruct (it !! "tags") as [v|] eqn:E; simpl.
  - destruct v as [| | | |l|]; try (split; [discriminate|];
      intros (l' & [= ] & _)).
    rewrite existsb_exists. split.
    + intros (t & Hin & Ht). apply eq_str_true in Ht as ->. eauto.
    + intros (l' & [= <-] & Hin). exists (VStr account_tag).
      split; [exact Hin|]. now apply eq_str_true.
  - split; [discriminate|]. intros (l & [= ] & _).
Qed.

Lemma email_falsy_spec (it : item) :
  email_typed it ->
  (negb (truthy (get it "target_email")) = true <-> email_absent_or_empty it).
Proof.
  unfold email_typed, email_absent_or_empty, get.
  destruct (it !! "target_email") as [v|]; simpl.
  - destruct v as [| | |s| |]; intros H; try (now destruct H); simpl.
    + split; [auto|reflexivity].
    + destruct s; simpl; split; auto; try discriminate.
      intros [H'|[H'|H']]; discriminate.
  - intros _. split; auto.
Qed.

Lemma email_missing_spec batch :
  Forall email_typed batch ->
  (email_missing batch = true <-> Exists violates batch).
Proof.
  induction 1 as [|it batch Hit _ IH]; simpl.
  - split; [discriminate|]. intros H. inversion H.
  - rewrite Exists_cons, <- IH. unfold violates.
    rewrite <- has_account_tag_spec, <- (email_falsy_spec it Hit).
    destruct (has_account_tag _); [|split; [auto|intros [[? _]|?]; [discriminate|auto]]].
    destruct (negb (truthy (get it "target_email"))).
    + split; auto.
    + split; [auto|]. intros [[_ ?]|?]; [discriminate|auto].
Qed.

Lemma send_slack_reply_sheet e channel thread_ts message w :
  sheet (snd (send_slack_reply e channel thread_ts message w)) = sheet w
  /\ extractions (snd (send_slack_reply e channel thread_ts message w))
     = extractions w.
Proof. unfold send_slack_reply. destruct (post_ok _ _ _ _); now split. Qed.

Lemma process_mention_unfold e channel thread_ts text inquirer url w batch :
  extract_info_with_gemini (clock e) (gemini e text inquirer) = Ok batch ->
  let w1 := mk_world (sheet w) (outbox w) (extractions w ++ [(text, inquirer)]) in
  process_mention e channel thread_ts text inquirer url w =
  if is_nil batch then
    (_ ← send_slack_reply e channel thread_ts empty_batch_message;
     mret (Some ok_200)) w1
  else if email_missing batch then
    (_ ← send_slack_reply e channel thread_ts email_required_message;
     mret (Some ok_200)) w1
  else persist_and_confirm e channel thread_ts text inquirer url batch w1.
Proof.
  intros H w1. unfold process_mention.
  unfold mbind at 1, M_bind, call_extract. rewrite H. fold w1.
  destruct (is_nil batch); [reflexivity|].
  destruct (email_missing batch); reflexivity.
Qed.

(** Nothing after the persister touches the worksheet. *)
Lemma persist_and_confirm_sheet e channel thread_ts text inquirer url batch w :
  sheet (snd (persist_and_confirm e channel thread_ts text inquirer url batch w))
  = sheet (snd (write_to_spreadsheet (sheet_available e) (write_clock e)
                  inquirer batch text url w)).
Proof.
  unfold persist_and_confirm. unfold mbind at 1, M_bind.
  destruct (write_to_spreadsheet _ _ _ _ _ _ w) as [[[[b rows] nos]|err] w'];
    [|reflexivity].
  unfold mbind at 1, M_bind, lift.
  destruct (success_message e batch rows nos) as [m|err]; [|reflexivity].
  unfold mbind at 1, M_bind, send_slack_reply.
  destruct (post_ok e channel thread_ts m); reflexivity.
Qed.

(** C2.  With the email of every record typed as the data model has it,
    the validation refuses a batch exactly when it is empty or one of its
    records has a tags list holding アカウント管理 while its email is absent,
    null or empty.  On a refusal nothing is written to the worksheet, and
    the requester is sent the message of the rule that fired (when Slack
    takes it, the block then returns OK 200).  Otherwise the persister is
    called with the batch as it is, and the worksheet ends as the persister
    leaves it. *)
Theorem validation_rejects_exactly e channel thread_ts text inquirer url w batch :
  extract_info_with_gemini (clock e) (gemini e text inquirer) = Ok batch ->
  Forall email_typed batch ->
  let w1 := mk_world (sheet w) (outbox w) (extractions w ++ [(text, inquirer)]) in
  let res := process_mention e channel thread_ts text inquirer url w in
  let message := if is_nil batch then empty_batch_message
                 else email_required_message in
  (rejects batch = true <-> batch = [] \/ Exists violates batch)
  /\ (rejects batch = true ->
      sheet (snd res) = sheet w
      /\ (post_ok e channel thread_ts message = true ->
          res = (Ok (Some ok_200),
                 mk_world (sheet w)
                   (outbox w ++ [(channel, thread_ts, message)])
                   (extractions w1))))
  /\ (rejects batch = false ->
      res = persist_and_confirm e channel thread_ts text inquirer url batch w1
      /\ sheet (snd res)
         = sheet (snd (write_to_spreadsheet (sheet_available e) (write_clock e)
                         inquirer batch text url w1))).
Proof.
  intros Hex Hty w1 res message.
  pose proof (process_mention_unfold e channel thread_ts text inquirer url w
                batch Hex) as Hpm.
  cbv zeta in Hpm. fold w1 res in Hpm.
  split; [|split].
  - unfold rejects. rewrite orb_true_iff, (email_missing_spec batch Hty).
    destruct batch; simpl; split; auto; intros [H|H]; auto; discriminate.
  - intros Hrej. unfold rejects in Hrej.
    assert (Hres : res = (_ ← send_slack_reply e channel thread_ts message;
                          mret (Some ok_200)) w1).
    { rewrite Hpm. subst message. destruct (is_nil batch); [reflexivity|].
      simpl in Hrej. now rewrite Hrej. }
    rewrite Hres. unfold mbind, M_bind, send_slack_reply.
    destruct (post_ok e channel thread_ts message); split;
      try reflexivity; discriminate.
  - intros Hacc. unfold rejects in Hacc.
    apply orb_false_iff in Hacc as [H1 H2].
    rewrite H1, H2 in Hpm. split; [exact Hpm|].
    rewrite Hpm. apply persist_and_confirm_sheet.
Qed.

Lemma validation_rejects_exactly_witness :
  let e := example_env (Ok (JsonArray [example_account_item])) in
  let w := mk_world [] [] [] in
  let w1 := mk_world (sheet w) (outbox w)
              (extractions w ++ [(u "m", VStr (u "U9"))]) in
  let res := process_mention e (VStr (u "C1")) (VStr (u "1.2")) (u "m")
               (VStr (u "U9")) (u "") w in
  let message := if is_nil [example_account_item] then empty_batch_message
                 else email_required_message in
  sheet (snd res) = sheet w
  /\ (post_ok e (VStr (u "C1")) (VStr (u "1.2")) message = true ->
      res = (Ok (Some ok_200),
             mk_world (sheet w)
               (outbox w ++ [(VStr (u "C1"), VStr (u "1.2"), message)])
               (extractions w1))).
Proof.
  intros e w w1 res message.
  assert (H1 : extract_info_with_gemini (clock e)
                 (gemini e (u "m") (VStr (u "U9")))
               = Ok [example_account_item]) by (vm_compute; reflexivity).
  assert (H2 : Forall email_typed [example_account_item])
    by (constructor; [vm_compute; exact I|constructor]).
  assert (H3 : rejects [example_account_item] = true)
    by (vm_compute; reflexivity).
  exact (proj1 (proj2 (validation_rejects_exactly e (VStr (u "C1"))
                         (VStr (u "1.2")) (u "m") (VStr (u "U9")) (u "") w
                         [example_account_item] H1 H2)) H3).
Defined.

(** The same record with an email is accepted. *)
Lemma validation_accepts_with_email :
  rejects [<["target_email" := VStr (u "a@b.com")]> example_account_item]
  = false.
Proof. vm_compute. reflexivity. Qed.

(** ** The length check of the handler *)

Lemma handler_reaches_mention e req p ev raw w :
  mention_request e req p ev raw ->
  handler_body e req w = handle_mention e p ev w.
Proof.
  intros (Hretry & Hp & Htype & Hsig & Hev & Hevt & _).
  unfold handler_body. rewrite Hp.
  assert (Hr : match retry_num req with
               | Some h => negb (is_nil h)
               | None => false
               end = false)
    by (destruct Hretry as [-> | ->]; reflexivity).
  rewrite Hr.
  assert (Hne : bool_decide (p = ∅) = false).
  { apply bool_decide_eq_false. intros ->. unfold get in Htype.
    rewrite lookup_empty in Htype. discriminate. }
  rewrite Hne, Htype. cbn [negb andb].
  replace (eq_str (VStr (u "event_callback")) (u "url_verification"))
    with false by (vm_compute; reflexivity).
  replace (eq_str (VStr (u "event_callback")) (u "event_callback"))
    with true by (vm_compute; reflexivity).
  cbn [negb].
  assert (Hv : verifier_configured e && negb (signature_valid req) = false).
  { destruct (verifier_configured e); [|reflexivity].
    now rewrite Hsig. }
  rewrite Hv, Hev, Hevt.
  replace (eq_str (VStr (u "app_mention")) (u "app_mention"))
    with true by (vm_compute; reflexivity).
  reflexivity.
Qed.

(** C10, as the code has it.  For a request that reaches the mention branch
    and whose text, once every mention token [<@ID>] with the white space
    after it and the surrounding white space are removed, is longer than
    1000 characters: the handler sends the too-long message, which states
    that length, and answers OK 200; it asks for no extraction and writes
    nothing.  If Slack refuses the message the handler answers 500, again
    without extraction or write. *)
Theorem too_long_text_is_refused e req p ev raw w :
  mention_request e req p ev raw ->
  (1000 < length (clean_text raw))%nat ->
  let n := length (clean_text raw) in
  let message := u "お問合せの内容が長すぎます（" ++ str_of_int (Z.of_nat n)
                 ++ u "文字）。1000文字以内で再度入力してください。" in
  let res := slack_bot_handler e req w in
  sheet (snd res) = sheet w
  /\ extractions (snd res) = extractions w
  /\ (post_ok e (get ev "channel") (get ev "ts") message = true ->
      res = (ok_200,
             mk_world (sheet w)
               (outbox w ++ [(get ev "channel", get ev "ts", message)])
               (extractions w)))
  /\ (post_ok e (get ev "channel") (get ev "ts") message = false ->
      res = ((VStr (u "Internal Server Error"), 500%Z), w)).
Proof.
  intros Hreq Hlen n message res. subst res.
  unfold slack_bot_handler.
  rewrite (handler_reaches_mention e req p ev raw w Hreq).
  destruct Hreq as (_ & _ & _ & _ & _ & _ & Htext).
  unfold handle_mention. rewrite Htext.
  apply Nat.ltb_lt in Hlen. rewrite Hlen.
  unfold mbind, M_bind, send_slack_reply, too_long_message.
  fold n. fold message.
  destruct (post_ok e (get ev "channel") (get ev "ts") message);
    repeat split; intros; try reflexivity; discriminate.
Qed.

Lemma example_is_mention_request reply raw :
  mention_request (example_env reply) (example_request raw)
    (example_payload raw) (example_event raw) raw.
Proof.
  unfold mention_request, example_request, example_payload, example_event.
  cbn [retry_num payload signature_valid].
  split; [now left|]. split; [reflexivity|].
  unfold get, get_or.
  repeat split;
    repeat (rewrite lookup_insert_ne by discriminate);
    first [rewrite lookup_insert_eq | rewrite lookup_singleton_eq];
    reflexivity.
Qed.

Lemma too_long_text_is_refused_witness :
  let e := example_env (Ok (JsonArray [])) in
  let raw := repeat 97%N 1001 in
  let req := example_request raw in
  let ev := example_event raw in
  let w := mk_world [] [] [] in
  let n := length (clean_text raw) in
  let message := u "お問合せの内容が長すぎます（" ++ str_of_int (Z.of_nat n)
                 ++ u "文字）。1000文字以内で再度入力してください。" in
  let res := slack_bot_handler e req w in
  sheet (snd res) = sheet w
  /\ extractions (snd res) = extractions w
  /\ (post_ok e (get ev "channel") (get ev "ts") message = true ->
      res = (ok_200,
             mk_world (sheet w)
               (outbox w ++ [(get ev "channel", get ev "ts", message)])
               (extractions w)))
  /\ (post_ok e (get ev "channel") (get ev "ts") message = false ->
      res = ((VStr (u "Internal Server Error"), 500%Z), w)).
Proof.
  intros e raw req ev w n message res.
  assert (H2 : (1000 < length (clean_text raw))%nat)
    by (apply Nat.ltb_lt; vm_compute; reflexivity).
  exact (too_long_text_is_refused e req (example_payload raw) ev raw w
           (example_is_mention_request _ raw) H2).
Defined.

(** C10, as stated, fails: with a second mention inside the text, the text
    is longer than 1000 characters once the leading mention and the
    surrounding white space are removed, yet the handler removes both
    mentions, finds 1000 characters, and goes on to the extraction. *)
Lemma long_text_with_inner_mention_is_extracted :
  (1000 <? length (leading_mention_removed example_long_text))%nat = true
  /\ snd (slack_bot_handler (example_env (Ok (JsonArray [])))
            (example_request example_long_text) (mk_world [] [] []))
     = mk_world []
         [(VStr (u "C1"), VStr (u "1.2"), empty_batch_message)]
         [(repeat 97%N 1000, VStr (u "U9"))].
Proof. split; vm_compute; reflexivity. Qed.

Local Open Scope Z_scope.

Lemma month_day_of_spec leap n :
  0 <= n < 365 + b2z leap ->
  let '(m, d) := month_day_of leap n in
  1 <= m <= 12
  /\ 1 <= d <= nth (Z.to_nat m) mdays 0 + b2z ((m =? 2) && leap)
  /\ nth (Z.to_nat m) DAYS_BEFORE_MONTH 0 + b2z ((2 <? m) && leap) + d = n + 1.
Proof.
  intros Hn.
  assert (Hall : forall_upto 365 (month_day_ok true) = true
                 /\ forall_upto 364 (month_day_ok false) = true)
    by (split; vm_compute; reflexivity).
  destruct Hall as [Ht Hf].
  assert (Hok : month_day_ok leap (Z.to_N n) = true).
  { destruct leap; simpl in Hn.
    - apply (forall_upto_spec _ _ Ht). lia.
    - apply (forall_upto_spec _ _ Hf). lia. }
  unfold month_day_ok in Hok. rewrite Z2N.id in Hok by lia.
  destruct (month_day_of leap n) as [m d].
  rewrite !andb_true_iff, !Z.leb_le, Z.eqb_eq in Hok. lia.
Qed.

(** The days before a year, from the digits of the years elapsed in base
    400 / 100 / 4 / 1. *)
Lemma days_before_year_digits a b c e :
  0 <= b <= 3 -> 0 <= c <= 24 -> 0 <= e <= 3 ->
  days_before_year (400 * a + 100 * b + 4 * c + e + 1)
  = 146097 * a + 36524 * b + 1461 * c + 365 * e.
Proof.
  intros Hb Hc He. unfold days_before_year.
  replace (400 * a + 100 * b + 4 * c + e + 1 - 1)
    with (400 * a + 100 * b + 4 * c + e) by lia.
  assert (H4 : (400 * a + 100 * b + 4 * c + e) / 4 = 100 * a + 25 * b + c).
  { symmetry. apply (Z.div_unique _ 4 _ e); lia. }
  assert (H100 : (400 * a + 100 * b + 4 * c + e) / 100 = 4 * a + b).
  { symmetry. apply (Z.div_unique _ 100 _ (4 * c + e)); lia. }
  assert (H400 : (400 * a + 100 * b + 4 * c + e) / 400 = a).
  { symmetry. apply (Z.div_unique _ 400 _ (100 * b + 4 * c + e)); lia. }
  rewrite H4, H100, H400. lia.
Qed.

Lemma isleap_digits a b c e :
  0 <= b <= 3 -> 0 <= c <= 24 -> 0 <= e <= 3 ->
  isleap (400 * a + 100 * b + 4 * c + e + 1)
  = (e =? 3) && (negb (c =? 24) || (b =? 3)).
Proof.
  intros Hb Hc He. unfold isleap.
  set (y := 400 * a + 100 * b + 4 * c + e + 1).
  assert (H4 : y mod 4 = (e + 1) mod 4).
  { unfold y. replace (400 * a + 100 * b + 4 * c + e + 1)
      with ((e + 1) + (100 * a + 25 * b + c) * 4) by lia.
    apply Z.mod_add. lia. }
  assert (H100 : y mod 100 = (4 * c + e + 1) mod 100).
  { unfold y. replace (400 * a + 100 * b + 4 * c + e + 1)
      with ((4 * c + e + 1) + (4 * a + b) * 100) by lia.
    apply Z.mod_add. lia. }
  assert (H400 : y mod 400 = (100 * b + 4 * c + e + 1) mod 400).
  { unfold y. replace (400 * a + 100 * b + 4 * c + e + 1)
      with ((100 * b + 4 * c + e + 1) + a * 400) by lia.
    apply Z.mod_add. lia. }
  rewrite H4, H100, H400.
  destruct (Z.eqb_spec e 3) as [->|Hne].
  - change ((3 + 1) mod 4) with 0. cbn [Z.eqb andb].
    destruct (Z.eqb_spec c 24) as [->|Hc24].
    + change ((4 * 24 + 3 + 1) mod 100) with 0. cbn [Z.eqb negb orb].
      destruct (Z.eqb_spec b 3) as [->|Hb3]; [reflexivity|].
      replace (100 * b + 4 * 24 + 3 + 1) with (100 * (b + 1)) by lia.
      rewrite Z.mod_small by lia.
      destruct (Z.eqb_spec (100 * (b + 1)) 0); [lia|reflexivity].
    + rewrite (Z.mod_small (4 * c + 3 + 1)) by lia.
      destruct (Z.eqb_spec (4 * c + 3 + 1) 0); [lia|reflexivity].
  - rewrite (Z.mod_small (e + 1)) by lia.
    destruct (Z.eqb_spec (e + 1) 0); [lia|reflexivity].
Qed.

Lemma ord2ymd_unfold n :
  ord2ymd n =
  let x := n - 1 in
  let a := x / DI400Y in let r400 := x mod DI400Y in
  let b := r400 / DI100Y in let r100 := r400 mod DI100Y in
  let c := r100 / DI4Y in let r4 := r100 mod DI4Y in
  let e := r4 / 365 in let r1 := r4 mod 365 in
  let y := a * 400 + 1 + b * 100 + c * 4 + e in
  if (e =? 4) || (b =? 4) then (y - 1, 12, 31)
  else
    let '(m, d) := month_day_of ((e =? 3) && (negb (c =? 24) || (b =? 3))) r1 in
    (y, m, d).
Proof.
  unfold ord2ymd, month_day_of. cbv zeta.
  destruct (_ || _); [reflexivity|].
  destruct (_ <? _); reflexivity.
Qed.

(** [ord2ymd] gives a date of the calendar whose ordinal is its
    argument. *)
Lemma ord2ymd_spec n :
  1 <= n ->
  let '(y, m, d) := ord2ymd n in
  valid_date y m d /\ ymd2ord y m d = n.
Proof.
  intros Hn. rewrite ord2ymd_unfold. cbv zeta.
  unfold DI400Y, DI100Y, DI4Y.
  pose proof (Z.div_mod (n - 1) 146097 ltac:(lia)) as E1.
  pose proof (Z.mod_pos_bound (n - 1) 146097 ltac:(lia)) as B1.
  remember ((n - 1) / 146097) as a eqn:Ea.
  remember ((n - 1) mod 146097) as r400 eqn:Er400.
  pose proof (Z.div_mod r400 36524 ltac:(lia)) as E2.
  pose proof (Z.mod_pos_bound r400 36524 ltac:(lia)) as B2.
  remember (r400 / 36524) as b eqn:Eb.
  remember (r400 mod 36524) as r100 eqn:Er100.
  pose proof (Z.div_mod r100 1461 ltac:(lia)) as E3.
  pose proof (Z.mod_pos_bound r100 1461 ltac:(lia)) as B3.
  remember (r100 / 1461) as c eqn:Ec.
  remember (r100 mod 1461) as r4 eqn:Er4.
  pose proof (Z.div_mod r4 365 ltac:(lia)) as E4.
  pose proof (Z.mod_pos_bound r4 365 ltac:(lia)) as B4.
  remember (r4 / 365) as e eqn:Ee.
  remember (r4 mod 365) as r1 eqn:Er1.
  clear Ea Er400 Eb Er100 Ec Er4 Ee Er1.
  assert (Ha : 0 <= a) by lia.
  assert (Hb : 0 <= b <= 4) by lia.
  assert (Hc : 0 <= c <= 24) by lia.
  assert (He : 0 <= e <= 4) by lia.
  unfold valid_date, ymd2ord, days_in_month, days_before_month.
  destruct (Z.eqb_spec b 4) as [Eb4|Nb4].
  - (* the last day of a 400-year cycle *)
    rewrite orb_true_r.
    replace (a * 400 + 1 + b * 100 + c * 4 + e - 1)
      with (400 * a + 100 * 3 + 4 * 24 + 3 + 1) by lia.
    rewrite days_before_year_digits, isleap_digits by lia.
    simpl. lia.
  - destruct (Z.eqb_spec e 4) as [Ee4|Ne4]; cbn [orb].
    + (* the last day of a leap year inside a cycle *)
      replace (a * 400 + 1 + b * 100 + c * 4 + e - 1)
        with (400 * a + 100 * b + 4 * c + 3 + 1) by lia.
      rewrite days_before_year_digits, isleap_digits by lia.
      destruct (Z.eqb_spec c 24); [lia|]. simpl. lia.
    + replace (a * 400 + 1 + b * 100 + c * 4 + e)
        with (400 * a + 100 * b + 4 * c + e + 1) by lia.
      pose proof (month_day_of_spec
                    ((e =? 3) && (negb (c =? 24) || (b =? 3))) r1) as Hmd.
      destruct (month_day_of _ r1) as [m d].
      rewrite days_before_year_digits, isleap_digits by lia.
      assert (Hr : 0 <= r1 < 365 + b2z ((e =? 3) && (negb (c =? 24) || (b =? 3)))).
      { destruct (_ && _); simpl; lia. }
      specialize (Hmd Hr). lia.
Qed.

Lemma days_before_year_succ y :
  days_before_year (y + 1) = days_before_year y + 365 + b2z (isleap y).
Proof.
  unfold days_before_year, isleap.
  replace (y + 1 - 1) with y by lia.
  destruct (Z.eqb_spec (y mod 4) 0) as [E4|E4],
           (Z.eqb_spec (y mod 100) 0) as [E100|E100],
           (Z.eqb_spec (y mod 400) 0) as [E400|E400]; simpl;
    Z.div_mod_to_equations; lia.
Qed.

Lemma days_before_year_mono y k :
  0 <= k -> days_before_year y <= days_before_year (y + k).
Proof.
  revert k. apply natlike_ind.
  - rewrite Z.add_0_r. lia.
  - intros k Hk IH. replace (y + Z.succ k) with (y + k + 1) by lia.
    rewrite days_before_year_succ. destruct (isleap (y + k)); simpl; lia.
Qed.

Lemma days_before_year_next y y' :
  y < y' -> days_before_year y + 365 + b2z (isleap y) <= days_before_year y'.
Proof.
  intros H. rewrite <- days_before_year_succ.
  replace y' with (y + 1 + (y' - y - 1)) by lia.
  apply days_before_year_mono. lia.
Qed.

(** Inside a year the ordinal grows with the month and the day, and stays
    within the length of the year. *)
Lemma day_of_year_bounds y m d :
  valid_date y m d ->
  1 <= days_before_month y m + d <= 365 + b2z (isleap y).
Proof.
  intros (_ & Hm & Hd). unfold days_in_month in Hd. unfold days_before_month.
  destruct (month_cases m Hm) as
    [->|[->|[->|[->|[->|[->|[->|[->|[->|[->|[->| ->]]]]]]]]]]];
    destruct (isleap y); simpl in *; lia.
Qed.

Lemma day_of_year_mono y m d m' d' :
  valid_date y m d -> valid_date y m' d' -> m < m' ->
  days_before_month y m + d < days_before_month y m' + d'.
Proof.
  intros (_ & Hm & Hd) (_ & Hm' & Hd') Hlt.
  unfold days_in_month in Hd, Hd'. unfold days_before_month.
  destruct (month_cases m Hm) as
    [->|[->|[->|[->|[->|[->|[->|[->|[->|[->|[->| ->]]]]]]]]]]];
    destruct (month_cases m' Hm') as
    [->|[->|[->|[->|[->|[->|[->|[->|[->|[->|[->| ->]]]]]]]]]]];
    try lia; destruct (isleap y); simpl in *; lia.
Qed.

(** Two dates of the calendar with the same ordinal are the same date. *)
Lemma ymd2ord_inj y m d y' m' d' :
  valid_date y m d -> valid_date y' m' d' ->
  ymd2ord y m d = ymd2ord y' m' d' -> (y, m, d) = (y', m', d').
Proof.
  intros V V' E. unfold ymd2ord in E.
  pose proof (day_of_year_bounds _ _ _ V) as B.
  pose proof (day_of_year_bounds _ _ _ V') as B'.
  assert (Hy : y = y').
  { destruct (Z.lt_trichotomy y y') as [H|[H|H]]; [|exact H|].
    - pose proof (days_before_year_next _ _ H). lia.
    - pose proof (days_before_year_next _ _ H). lia. }
  subst y'.
  assert (Hm : m = m').
  { destruct (Z.lt_trichotomy m m') as [H|[H|H]]; [|exact H|].
    - pose proof (day_of_year_mono _ _ _ _ _ V V' H). lia.
    - pose proof (day_of_year_mono _ _ _ _ _ V' V H). lia. }
  subst m'. f_equal. lia.
Qed.

Lemma ymd2ord_positive y m d : valid_date y m d -> 1 <= ymd2ord y m d.
Proof.
  intros V. pose proof (day_of_year_bounds _ _ _ V) as B.
  destruct V as (Hy & _).
  assert (0 <= days_before_year y).
  { replace y with (1 + (y - 1)) by lia.
    etransitivity; [|apply days_before_year_mono; lia].
    vm_compute. discriminate. }
  unfold ymd2ord. lia.
Qed.

(** [ord2ymd] undoes [ymd2ord] on the dates of the calendar. *)
Lemma ord2ymd_ymd2ord y m d :
  valid_date y m d -> ord2ymd (ymd2ord y m d) = (y, m, d).
Proof.
  intros V. pose proof (ord2ymd_spec _ (ymd2ord_positive _ _ _ V)) as H.
  destruct (ord2ymd (ymd2ord y m d)) as [[y' m'] d'].
  destruct H as [V' E]. now apply ymd2ord_inj.
Qed.

(** ** The week rules of the normalizer *)

Lemma valid_datetime_date now :
  valid_datetime now -> valid_date (year now) (month now) (day now).
Proof. unfold valid_datetime, valid_date, MINYEAR. intuition lia. Qed.

Lemma weekday_range now : 0 <= weekday now <= 6.
Proof.
  unfold weekday. pose proof (Z.mod_pos_bound (toordinal now + 6) 7). lia.
Qed.

(** Adding a number of days that keeps the date within years 1..9999
    gives the date that many days later, at the same time of day; adding
    nothing gives the same date. *)
Lemma datetime_add_spec now k :
  valid_datetime now -> 0 <= k -> toordinal now + k <= MAXORDINAL ->
  exists d,
    datetime_add now k = Ok d
    /\ toordinal d = toordinal now + k
    /\ valid_date (year d) (month d) (day d)
    /\ (k = 0 -> d = now).
Proof.
  intros V Hk Hmax. pose proof (valid_datetime_date _ V) as Vd.
  pose proof (ymd2ord_positive _ _ _ Vd) as Hpos. fold (toordinal now) in Hpos.
  unfold datetime_add.
  destruct (Z.ltb_spec 0 (toordinal now + k)); [|lia].
  destruct (Z.leb_spec (toordinal now + k) MAXORDINAL); [|lia].
  cbn [andb].
  pose proof (ord2ymd_spec (toordinal now + k) ltac:(lia)) as Hspec.
  destruct (ord2ymd (toordinal now + k)) as [[y m] dd] eqn:E.
  destruct Hspec as [V' Ho].
  eexists. split; [reflexivity|]. split; [exact Ho|]. split; [exact V'|].
  intros ->. rewrite Z.add_0_r in E. unfold toordinal in E.
  rewrite ord2ymd_ymd2ord in E by exact Vd. injection E as <- <- <-.
  now destruct now.
Qed.

Lemma timedelta_small k : Z.abs k <= 999999999 -> timedelta k = Ok k.
Proof.
  intros H. unfold timedelta. destruct (Z.leb_spec (Z.abs k) 999999999); [reflexivity|lia].
Qed.

Lemma weekday_day_of_week d : weekday d = day_of_week (toordinal d).
Proof.
  unfold weekday, day_of_week.
  replace known_monday with 738886 by (vm_compute; reflexivity).
  Z.div_mod_to_equations. lia.
Qed.

(** C6.  With Monday = 0 ... Sunday = 6, the numbering being that of the
    calendar (the weekday of today is its distance from a known Monday,
    modulo seven): for an input in which 来週 (with or without 末 or まで) is
    found and which no earlier rule claims, the normalizer returns the date
    (7 - weekday) + 6 days after today, which is the Sunday among the days
    7 to 13 days from today, the Sunday of next week; for an input in which
    今週末 or 今週まで is found and which no earlier rule claims, it returns
    the date (6 - weekday) days after today, which is the Sunday among
    today and the six days after it, and today itself when today is
    Sunday.  The dates are taken to exist in [datetime] (years up to
    9999). *)
Theorem normalize_week_rules now s :
  valid_datetime now ->
  re_search month_pattern s = None ->
  matched (re_search this_month_pattern s) = false ->
  matched (re_search next_month_pattern s) = false ->
  let w := weekday now in
  w = day_of_week (toordinal now)
  /\ 0 <= w <= 6
  /\ (matched (re_search next_week_pattern s) = true ->
      toordinal now + ((7 - w) + 6) <= MAXORDINAL ->
      exists d,
        datetime_add now ((7 - w) + 6) = Ok d
        /\ normalize_due_date now (Some s) = Ok (Some (strftime_ymd d))
        /\ valid_date (year d) (month d) (day d)
        /\ toordinal d = toordinal now + ((7 - w) + 6)
        /\ day_of_week (toordinal d) = 6
        /\ toordinal now + 7 <= toordinal d <= toordinal now + 13)
  /\ (matched (re_search next_week_pattern s) = false ->
      matched (re_search this_week_pattern s) = true ->
      toordinal now + (6 - w) <= MAXORDINAL ->
      exists d,
        datetime_add now (6 - w) = Ok d
        /\ normalize_due_date now (Some s) = Ok (Some (strftime_ymd d))
        /\ valid_date (year d) (month d) (day d)
        /\ toordinal d = toordinal now + (6 - w)
        /\ day_of_week (toordinal d) = 6
        /\ toordinal now <= toordinal d <= toordinal now + 6
        /\ (w = 6 -> d = now)).
Proof.
  intros V Hmonth Hthis Hnext w.
  pose proof (weekday_range now) as Hw. fold w in Hw.
  pose proof (weekday_day_of_week now) as Hdow. fold w in Hdow.
  split; [exact Hdow|]. split; [exact Hw|]. split.
  - intros Hweek Hmax.
    assert (Hin : In 0x6765%N s).
    { eapply (search_literal_in next_week_pattern (u "来週"));
        [reflexivity|exact next_week_pattern_lit|exact Hweek]. }
    destruct (datetime_add_spec now ((7 - w) + 6) V ltac:(lia) Hmax)
      as (d & Hadd & Hord & Vd & _).
    exists d. split; [exact Hadd|].
    split; [|split; [exact Vd|split; [exact Hord|split; [|lia]]]].
    + rewrite (normalize_after_month_rule now s _ Hin eq_refl Hmonth).
      rewrite Hthis, Hnext, Hweek. fold w.
      rewrite timedelta_small by lia. cbn [mbind result_bind].
      rewrite Hadd. reflexivity.
    + rewrite Hord. unfold day_of_week in *.
      replace known_monday with 738886 in * by (vm_compute; reflexivity).
      Z.div_mod_to_equations. lia.
  - intros Hnweek Hweek Hmax.
    assert (Hin : In 0x4ECA%N s).
    { eapply (search_literal_in this_week_pattern (u "今週"));
        [reflexivity|exact this_week_pattern_lit|exact Hweek]. }
    destruct (datetime_add_spec now (6 - w) V ltac:(lia) Hmax)
      as (d & Hadd & Hord & Vd & Hsame).
    exists d. split; [exact Hadd|].
    split; [|split; [exact Vd|split; [exact Hord|split; [|split; [lia|]]]]].
    + rewrite (normalize_after_month_rule now s _ Hin eq_refl Hmonth).
      rewrite Hthis, Hnext, Hnweek, Hweek. fold w.
      rewrite timedelta_small by lia. cbn [mbind result_bind].
      rewrite Hadd. reflexivity.
    + rewrite Hord. unfold day_of_week in *.
      replace known_monday with 738886 in * by (vm_compute; reflexivity).
      Z.div_mod_to_equations. lia.
    + intros E. apply Hsame. lia.
Qed.

Lemma normalize_week_rules_witness :
  let now := example_now in
  weekday now = 1
  /\ normalize_due_date now (Some (u "来週末")) = Ok (Some (u "2024-02-11"))
  /\ normalize_due_date now (Some (u "今週まで")) = Ok (Some (u "2024-02-04")).
Proof.
  intros now.
  assert (V : valid_datetime now)
    by (unfold valid_datetime; vm_compute; intuition discriminate).
  assert (A1 : re_search month_pattern (u "来週末") = None)
    by (vm_compute; reflexivity).
  assert (A2 : matched (re_search this_month_pattern (u "来週末")) = false)
    by (vm_compute; reflexivity).
  assert (A3 : matched (re_search next_month_pattern (u "来週末")) = false)
    by (vm_compute; reflexivity).
  assert (A4 : matched (re_search next_week_pattern (u "来週末")) = true)
    by (vm_compute; reflexivity).
  assert (A5 : toordinal now + ((7 - weekday now) + 6) <= MAXORDINAL)
    by (vm_compute; discriminate).
  assert (B1 : re_search month_pattern (u "今週まで") = None)
    by (vm_compute; reflexivity).
  assert (B2 : matched (re_search this_month_pattern (u "今週まで")) = false)
    by (vm_compute; reflexivity).
  assert (B3 : matched (re_search next_month_pattern (u "今週まで")) = false)
    by (vm_compute; reflexivity).
  assert (B4 : matched (re_search next_week_pattern (u "今週まで")) = false)
    by (vm_compute; reflexivity).
  assert (B5 : matched (re_search this_week_pattern (u "今週まで")) = true)
    by (vm_compute; reflexivity).
  assert (B6 : toordinal now + (6 - weekday now) <= MAXORDINAL)
    by (vm_compute; discriminate).
  destruct (normalize_week_rules now (u "来週末") V A1 A2 A3)
    as (Hw & _ & Hnext & _).
  destruct (normalize_week_rules now (u "今週まで") V B1 B2 B3)
    as (_ & _ & _ & Hthis).
  destruct (Hnext A4 A5) as (d1 & Hadd1 & Hnorm1 & _).
  destruct (Hthis B4 B5 B6) as (d2 & Hadd2 & Hnorm2 & _).
  vm_compute in Hadd1. injection Hadd1 as <-.
  vm_compute in Hadd2. injection Hadd2 as <-.
  split; [rewrite Hw; vm_compute; reflexivity|].
  split; [rewrite Hnorm1|rewrite Hnorm2]; vm_compute; reflexivity.
Defined.

(** On Tuesday 30 January 2024: next week's Sunday is 11 February, this
    week's Sunday is 4 February. *)
Lemma normalize_week_examples :
  normalize_due_date example_now (Some (u "来週末")) = Ok (Some (u "2024-02-11"))
  /\ normalize_due_date example_now (Some (u "今週まで"))
     = Ok (Some (u "2024-02-04")).
Proof. split; vm_compute; reflexivity. Qed.

Local Close Scope Z_scope.

Local Open Scope Z_scope.

(** ** The normalizer, rule by rule *)

Lemma normalize_unfold now s :
  normalize_due_date now (Some s) =
  if is_nil s || str_in (lower s) [u "null"; u "none"; u ""] then Ok None
  else if re_match_iso s then Ok (Some s)
  else match month_rule (year now) s with
       | Some r => r
       | None => later_rules now s
       end.
Proof. reflexivity. Qed.

Lemma span_spec p s a b :
  span p s = (a, b) -> s = a ++ b /\ Forall (fun c => p c = true) a.
Proof.
  revert a b. induction s as [|c s IH]; intros a b; simpl.
  - intros [= <- <-]. split; [reflexivity|constructor].
  - destruct (p c) eqn:E.
    + destruct (span p s) as [x y]. intros [= <- <-].
      destruct (IH _ _ eq_refl) as [-> H]. split; [reflexivity|].
      constructor; assumption.
    + intros [= <- <-]. split; [reflexivity|constructor].
Qed.

Lemma alt_Some alts s a r : alt alts s = Some (a, r) -> In a alts /\ s = a ++ r.
Proof.
  induction alts as [|x alts IH]; simpl; [discriminate|].
  destruct (lit x s) as [r'|] eqn:E.
  - intros [= <- <-]. split; [now left|now apply lit_Some].
  - intros H. destruct (IH H). split; [now right|assumption].
Qed.

Lemma month_pattern_Some s g1 g2 :
  month_pattern s = Some (g1, g2) ->
  g1 <> [] /\ Forall (fun c => digit_class c = true) g1
  /\ In g2 [u "中"; u "末"; u "まで"]
  /\ exists rest, s = g1 ++ u "月" ++ g2 ++ rest.
Proof.
  unfold month_pattern.
  destruct (span digit_class s) as [a b] eqn:E.
  apply span_spec in E as [-> Ha].
  destruct a as [|c a]; [discriminate|].
  intros H. apply option_bind_Some in H as (r' & Hl & H).
  apply lit_Some in Hl. subst b.
  apply option_bind_Some in H as ([g r2] & Ha2 & H).
  injection H as <- <-. apply alt_Some in Ha2 as [Hin ->].
  split; [discriminate|]. split; [exact Ha|]. split; [exact Hin|].
  now exists r2.
Qed.

Lemma days_pattern_Some s g1 :
  days_pattern s = Some g1 ->
  g1 <> [] /\ Forall (fun c => digit_class c = true) g1
  /\ exists rest, s = g1 ++ u "日" ++ rest.
Proof.
  unfold days_pattern.
  destruct (span digit_class s) as [a b] eqn:E.
  apply span_spec in E as [-> Ha].
  destruct a as [|c a]; [discriminate|].
  intros H. apply option_bind_Some in H as (r' & Hl & H).
  apply lit_Some in Hl. subst b.
  apply option_bind_Some in H as ([g r2] & Ha2 & H).
  injection H as <-.
  split; [discriminate|]. split; [exact Ha|]. now exists r'.
Qed.

Lemma this_month_pattern_lit t :
  matched (this_month_pattern t) = true -> exists r, t = u "今月" ++ r.
Proof.
  unfold this_month_pattern.
  destruct (lit (u "今月") t) as [r|] eqn:E; [|discriminate].
  intros _. exists r. now apply lit_Some.
Qed.

(** A pattern that begins with a literal is only found in a text that
    holds the characters of the literal. *)
Lemma lit_pattern_chars {A} (pat : pystr -> option A) (l : pystr) c s :
  (forall t, matched (pat t) = true -> exists r, t = l ++ r) ->
  In c l -> matched (re_search pat s) = true -> In c s.
Proof.
  intros Hpat Hc H.
  destruct (re_search pat s) as [r|] eqn:E; [|discriminate].
  destruct (re_search_found _ _ _ E) as (pre & suf & -> & Hsuf).
  destruct (Hpat suf) as [r' ->]; [now rewrite Hsuf|].
  apply in_or_app. right. apply in_or_app. now left.
Qed.

Lemma month_pattern_needs s g :
  re_search month_pattern s = Some g -> In 0x6708%N s.
Proof.
  intros H. destruct (re_search_found _ _ _ H) as (pre & suf & -> & Hsuf).
  destruct g as [g1 g2].
  apply month_pattern_Some in Hsuf as (_ & _ & _ & rest & ->).
  apply in_or_app. right. apply in_or_app. right. now left.
Qed.

Lemma days_pattern_needs s g :
  re_search days_pattern s = Some g -> In 0x65E5%N s.
Proof.
  intros H. destruct (re_search_found _ _ _ H) as (pre & suf & -> & Hsuf).
  apply days_pattern_Some in Hsuf as (_ & _ & rest & ->).
  apply in_or_app. right. apply in_or_app. right. now left.
Qed.

Lemma later_patterns_need s :
  (matched (re_search this_month_pattern s) = true ->
     In 0x4ECA%N s /\ In 0x6708%N s)
  /\ (matched (re_search next_month_pattern s) = true ->
        In 0x6765%N s /\ In 0x6708%N s)
  /\ (matched (re_search next_week_pattern s) = true ->
        In 0x6765%N s /\ In 0x9031%N s)
  /\ (matched (re_search this_week_pattern s) = true ->
        In 0x4ECA%N s /\ In 0x9031%N s).
Proof.
  split; [|split; [|split]]; intros Hfound; split.
  - now apply (lit_pattern_chars _ (u "今月") _ _ this_month_pattern_lit); [left|].
  - now apply (lit_pattern_chars _ (u "今月") _ _ this_month_pattern_lit);
      [right; left|].
  - now apply (lit_pattern_chars _ (u "来月") _ _ next_month_pattern_lit); [left|].
  - now apply (lit_pattern_chars _ (u "来月") _ _ next_month_pattern_lit);
      [right; left|].
  - now apply (lit_pattern_chars _ (u "来週") _ _ next_week_pattern_lit); [left|].
  - now apply (lit_pattern_chars _ (u "来週") _ _ next_week_pattern_lit);
      [right; left|].
  - now apply (lit_pattern_chars _ (u "今週") _ _ this_week_pattern_lit); [left|].
  - now apply (lit_pattern_chars _ (u "今週") _ _ this_week_pattern_lit);
      [right; left|].
Qed.

(** No later rule fires on a text without 今 and 来, or without 月 and 週,
    that also holds no 日. *)
Lemma later_rules_none now s :
  (~ In 0x4ECA%N s /\ ~ In 0x6765%N s) \/ (~ In 0x6708%N s /\ ~ In 0x9031%N s) ->
  ~ In 0x65E5%N s ->
  later_rules now s = Ok (Some s).
Proof.
  intros H Hd. unfold later_rules.
  destruct (later_patterns_need s) as (H1 & H2 & H3 & H4).
  destruct (matched (re_search this_month_pattern s));
    [destruct (H1 eq_refl); tauto|].
  destruct (matched (re_search next_month_pattern s));
    [destruct (H2 eq_refl); tauto|].
  destruct (matched (re_search next_week_pattern s));
    [destruct (H3 eq_refl); tauto|].
  destruct (matched (re_search this_week_pattern s));
    [destruct (H4 eq_refl); tauto|].
  unfold days_rule.
  destruct (re_search days_pattern s) as [g|] eqn:E; [|reflexivity].
  apply days_pattern_needs in E. contradiction.
Qed.

(** What the month rule does once its pattern is found: the leftmost match
    decides, and digits that [int] refuses for their number leave the
    rule. *)
Lemma month_rule_found y s g1 g2 :
  re_search month_pattern s = Some (g1, g2) ->
  month_rule y s =
  if (Z.of_nat (length g1) <=? int_max_str_digits)
     && ((1 <=? numeral_value g1) && (numeral_value g1 <=? 12))
  then Some (Ok (Some (fmt_date y (numeral_value g1)
                         (gregorian_month_length y (numeral_value g1)))))
  else None.
Proof.
  intros H. unfold month_rule. rewrite H.
  destruct (re_search_found _ _ _ H) as (pre & suf & _ & Hsuf).
  apply month_pattern_Some in Hsuf as (Hne & Hds & Hg2 & _).
  rewrite int_of_translated by assumption.
  rewrite Z.ltb_antisym.
  destruct (Z.of_nat (length g1) <=? int_max_str_digits); [|reflexivity].
  cbn [negb andb mbind result_bind].
  destruct ((1 <=? numeral_value g1) && (numeral_value g1 <=? 12)) eqn:E;
    [|reflexivity].
  apply andb_true_iff in E as [E1 E2]. apply Z.leb_le in E1, E2.
  destruct (monthrange_ok y (numeral_value g1) (conj E1 E2)) as [wd Hmr].
  simpl in Hg2. destruct Hg2 as [<-|[<-|[<-|[]]]].
  - replace (pystr_eqb (u "中") (u "末")) with false by (vm_compute; reflexivity).
    replace (str_in (u "中") [u "中"; u "まで"]) with true
      by (vm_compute; reflexivity).
    rewrite Hmr. reflexivity.
  - replace (pystr_eqb (u "末") (u "末")) with true by (vm_compute; reflexivity).
    rewrite Hmr. reflexivity.
  - replace (pystr_eqb (u "まで") (u "末")) with false
      by (vm_compute; reflexivity).
    replace (str_in (u "まで") [u "中"; u "まで"]) with true
      by (vm_compute; reflexivity).
    rewrite Hmr. reflexivity.
Qed.

Lemma numeral_value_nonneg ds : 0 <= numeral_value ds.
Proof.
  unfold numeral_value.
  assert (H : forall acc, 0 <= acc ->
            0 <= fold_left (fun a c => a * 10 + class_digit_value c) ds acc).
  { induction ds as [|c ds IH]; intros acc Hacc; simpl; [exact Hacc|].
    apply IH. unfold class_digit_value. destruct (_ && _); lia. }
  apply H. lia.
Qed.

(** What the days rule does once its pattern is found: digits that [int]
    refuses for their number leave the rule. *)
Lemma days_rule_found now s g1 :
  re_search days_pattern s = Some g1 ->
  days_rule now s =
  if Z.of_nat (length g1) <=? int_max_str_digits then
    try_except_ValueError (
      delta ← timedelta (numeral_value g1);
      target_date ← datetime_add now delta;
      Ok (Some (Some (strftime_ymd target_date))))
  else None.
Proof.
  intros H. unfold days_rule. rewrite H.
  destruct (re_search_found _ _ _ H) as (pre & suf & _ & Hsuf).
  apply days_pattern_Some in Hsuf as (Hne & Hds & _).
  rewrite int_of_translated by assumption.
  rewrite Z.ltb_antisym.
  destruct (Z.of_nat (length g1) <=? int_max_str_digits); reflexivity.
Qed.

(** ** Dates as the normalizer prints them *)

Lemma days_in_month_range y m : 1 <= m <= 12 -> 28 <= days_in_month y m <= 31.
Proof.
  intros Hm. rewrite days_in_month_gregorian by exact Hm.
  apply gregorian_month_length_range.
Qed.

Lemma strftime_date_text d :
  valid_date (year d) (month d) (day d) ->
  strftime_ymd d = date_text (year d) (month d) (day d).
Proof.
  intros (_ & Hm & Hd). pose proof (days_in_month_range (year d) _ Hm).
  unfold strftime_ymd, date_text. now rewrite !fmt_02d_two_digits by lia.
Qed.

Lemma fmt_date_text y m d :
  1 <= m <= 12 -> 1 <= d <= 31 -> fmt_date y m d = date_text y m d.
Proof. intros Hm Hd. now rewrite fmt_date_two_digits by lia. Qed.

Lemma datetime_add_Ok now k d :
  datetime_add now k = Ok d ->
  valid_date (year d) (month d) (day d) /\ toordinal d = toordinal now + k.
Proof.
  unfold datetime_add.
  destruct (Z.ltb_spec 0 (toordinal now + k)); [|discriminate].
  destruct (_ <=? _); [|discriminate]. cbn [andb].
  pose proof (ord2ymd_spec (toordinal now + k) ltac:(lia)) as Hspec.
  destruct (ord2ymd (toordinal now + k)) as [[y m] dd].
  intros [= <-]. exact Hspec.
Qed.

Lemma two_digits_ascii n :
  0 <= n < 100 -> Forall (fun c => ascii_digit c = true) (two_digits n).
Proof.
  intros Hn. unfold two_digits, ascii_digit.
  assert (0 <= n / 10 < 10)
    by (split; [apply Z.div_pos|apply Z.div_lt_upper_bound]; lia).
  pose proof (Z.mod_pos_bound n 10 ltac:(lia)).
  repeat constructor; apply andb_true_iff; split; apply N.leb_le; lia.
Qed.

Lemma str_of_int_chars y :
  Forall (fun c => ascii_digit c = true \/ c = 0x2D%N) (str_of_int y).
Proof.
  assert (H : forall n, Forall (fun c => ascii_digit c = true \/ c = 0x2D%N)
                          (str_of_N n)).
  { intros n. destruct (str_of_N_spec n) as (_ & Hd & _).
    eapply Forall_impl; [exact Hd|]. intros c Hc. now left. }
  unfold str_of_int. destruct (y <? 0); [constructor; [now right|]|]; apply H.
Qed.

(** The text of a date is made of ASCII digits and hyphens, and holds a
    hyphen. *)
Lemma date_text_chars y m d :
  0 <= m < 100 -> 0 <= d < 100 ->
  Forall (fun c => ascii_digit c = true \/ c = 0x2D%N) (date_text y m d)
  /\ In 0x2D%N (date_text y m d).
Proof.
  intros Hm Hd. unfold date_text. split.
  - repeat (apply Forall_app; split);
      try apply str_of_int_chars;
      try (eapply Forall_impl; [apply two_digits_ascii; assumption|];
           intros c Hc; now left);
      repeat constructor; now right.
  - apply in_or_app. right. now left.
Qed.

(** ** Texts no rule applies to *)

Lemma null_words_letters w :
  str_in w [u "null"; u "none"; u ""] = true ->
  Forall (fun c => (0x61 <= c)%N) w.
Proof.
  unfold str_in, pystr_eqb. simpl. rewrite !orb_true_iff.
  intros [H|[H|[H|H]]]; try discriminate;
    apply bool_decide_eq_true in H; subst w;
    vm_compute; repeat constructor; discriminate.
Qed.

Lemma has_idiom_char_false s :
  has_idiom_char s = false ->
  ~ In 0x6708%N s /\ ~ In 0x9031%N s /\ ~ In 0x65E5%N s.
Proof.
  unfold has_idiom_char. intros H.
  assert (Hc : forall c, In c idiom_chars -> ~ In c s).
  { intros c Hc Hin.
    assert (E : existsb (fun c => existsb (N.eqb c) idiom_chars) s = true).
    { apply existsb_exists. exists c. split; [exact Hin|].
      apply existsb_exists. exists c. split; [exact Hc|apply N.eqb_refl]. }
    congruence. }
  repeat split; apply Hc; simpl; auto.
Qed.

(** Past the first guard, a text without 月, 週 and 日 is returned as it
    is. *)
Lemma normalize_plain now s :
  is_nil s || str_in (lower s) [u "null"; u "none"; u ""] = false ->
  ~ In 0x6708%N s -> ~ In 0x9031%N s -> ~ In 0x65E5%N s ->
  normalize_due_date now (Some s) = Ok (Some s).
Proof.
  intros G Hm Hw Hd. rewrite normalize_unfold, G.
  destruct (re_match_iso s); [reflexivity|].
  assert (E : month_rule (year now) s = None).
  { apply month_rule_none.
    destruct (re_search month_pattern s) as [g|] eqn:E; [|reflexivity].
    apply month_pattern_needs in E. contradiction. }
  rewrite E. apply later_rules_none; [right; split; assumption|assumption].
Qed.

Lemma ascii_not_idiom s c :
  Forall (fun c => ascii_digit c = true \/ c = 0x2D%N) s ->
  (128 <= c)%N -> ~ In c s.
Proof.
  intros Hs Hc Hin. rewrite Forall_forall in Hs.
  apply list_elem_of_In in Hin.
  destruct (Hs _ Hin) as [H|H].
  - unfold ascii_digit in H. apply andb_true_iff in H as [_ H].
    apply N.leb_le in H. lia.
  - lia.
Qed.

(** A text of ASCII digits and hyphens that holds a hyphen, such as a
    printed date, is returned as it is under any clock. *)
Lemma normalize_digits_and_hyphens now s :
  Forall (fun c => ascii_digit c = true \/ c = 0x2D%N) s -> In 0x2D%N s ->
  normalize_due_date now (Some s) = Ok (Some s).
Proof.
  intros Hs Hin. apply normalize_plain.
  - apply orb_false_iff. split; [destruct s; [destruct Hin|reflexivity]|].
    destruct (str_in (lower s) _) eqn:E; [|reflexivity].
    apply null_words_letters in E. rewrite Forall_forall in E.
    assert (Hc : In (lower_char 0x2D%N) (lower s)) by (apply in_map; exact Hin).
    apply list_elem_of_In in Hc. specialize (E _ Hc).
    vm_compute in E. now destruct E.
  - apply ascii_not_idiom; [exact Hs|lia].
  - apply ascii_not_idiom; [exact Hs|lia].
  - apply ascii_not_idiom; [exact Hs|lia].
Qed.

(** The results of the later rules: the input itself or a printed date. *)
Lemma later_rules_cases now s r :
  valid_datetime now ->
  later_rules now s = Ok (Some r) ->
  r = s \/ exists y m d, valid_date y m d /\ r = date_text y m d.
Proof.
  intros V. pose proof V as (Hy & Hm & _). unfold MINYEAR in Hy.
  assert (Hadd : forall k x,
            (delta ← timedelta k; t ← datetime_add now delta;
             Ok (Some (strftime_ymd t))) = Ok (Some x) ->
            exists y m d, valid_date y m d /\ x = date_text y m d).
  { intros k x. unfold timedelta. destruct (_ <=? _); [|discriminate].
    cbn [mbind result_bind].
    destruct (datetime_add now k) as [t|] eqn:Et; [|discriminate].
    cbn [mbind result_bind]. intros [= <-].
    apply datetime_add_Ok in Et as [Vt _].
    exists (year t), (month t), (day t). split; [exact Vt|].
    now apply strftime_date_text. }
  unfold later_rules.
  destruct (matched (re_search this_month_pattern s)).
  { destruct (monthrange_ok (year now) (month now) Hm) as [wd ->].
    cbn [mbind result_bind]. intros [= <-]. right.
    pose proof (gregorian_month_length_range (year now) (month now)).
    exists (year now), (month now), (gregorian_month_length (year now) (month now)).
    split; [|apply fmt_date_text; lia].
    unfold valid_date. rewrite days_in_month_gregorian by exact Hm. lia. }
  destruct (matched (re_search next_month_pattern s)).
  { destruct (Z.ltb_spec 12 (month now + 1)).
    - destruct (monthrange_ok (year now + 1) 1 ltac:(lia)) as [wd ->].
      cbn [mbind result_bind]. intros [= <-]. right.
      pose proof (gregorian_month_length_range (year now + 1) 1).
      exists (year now + 1), 1, (gregorian_month_length (year now + 1) 1).
      split; [|apply fmt_date_text; lia].
      unfold valid_date. rewrite days_in_month_gregorian by lia. lia.
    - destruct (monthrange_ok (year now) (month now + 1) ltac:(lia)) as [wd ->].
      cbn [mbind result_bind]. intros [= <-]. right.
      pose proof (gregorian_month_length_range (year now) (month now + 1)).
      exists (year now), (month now + 1),
             (gregorian_month_length (year now) (month now + 1)).
      split; [|apply fmt_date_text; lia].
      unfold valid_date. rewrite days_in_month_gregorian by lia. lia. }
  destruct (matched (re_search next_week_pattern s)).
  { intros H. right. exact (Hadd _ _ H). }
  destruct (matched (re_search this_week_pattern s)).
  { intros H. right. exact (Hadd _ _ H). }
  destruct (re_search days_pattern s) as [g1|] eqn:Ed.
  - rewrite (days_rule_found now s g1 Ed).
    destruct (Z.of_nat (length g1) <=? int_max_str_digits);
      [|intros [= <-]; now left].
    destruct (timedelta (numeral_value g1)) as [k|e] eqn:Ek;
      cbn [mbind result_bind].
    + destruct (datetime_add now k) as [t|e] eqn:Et; cbn [mbind result_bind].
      * simpl. intros [= <-]. right. apply (Hadd (numeral_value g1)).
        rewrite Ek. cbn [mbind result_bind]. rewrite Et. reflexivity.
      * destruct e; simpl; try discriminate. intros [= <-]. now left.
    + destruct e; simpl; try discriminate. intros [= <-]. now left.
  - unfold days_rule. rewrite Ed. intros [= <-]. now left.
Qed.

(** ** Properties of the normalizer *)

(** X1.  The 今月 rule.  For a text in which 今月末, 今月中 or 今月まで is found
    and which the [N月] rule does not claim, the normalizer gives the last
    day of the current month. *)
Theorem normalize_this_month now s :
  1 <= month now <= 12 ->
  month_rule (year now) s = None ->
  matched (re_search this_month_pattern s) = true ->
  normalize_due_date now (Some s) =
  Ok (Some (date_text (year now) (month now)
              (gregorian_month_length (year now) (month now)))).
Proof.
  intros Hm Hrule Hthis.
  destruct (later_patterns_need s) as (H1 & _).
  destruct (H1 Hthis) as [Hin _].
  destruct (guards_pass _ _ Hin eq_refl) as [G1 G2].
  rewrite normalize_unfold, G1, G2, Hrule. unfold later_rules. rewrite Hthis.
  destruct (monthrange_ok (year now) (month now) Hm) as [wd ->].
  cbn [mbind result_bind].
  pose proof (gregorian_month_length_range (year now) (month now)).
  now rewrite fmt_date_text by lia.
Qed.

Lemma normalize_this_month_witness :
  normalize_due_date (mk_datetime 2023 2 10 9 0 0) (Some (u "今月中にお願いします"))
  = Ok (Some (date_text 2023 2 (gregorian_month_length 2023 2))).
Proof.
  apply (normalize_this_month (mk_datetime 2023 2 10 9 0 0)).
  - vm_compute. split; discriminate.
  - vm_compute. reflexivity.
  - vm_compute. reflexivity.
Defined.

(** X2.  The [N月] rule inside a longer text.  The leftmost place where digits
    followed by 月 and 中, 末 or まで stand decides: when these digits are at
    most [int_max_str_digits] = 4300 and denote a month from 1 to 12 the
    result is the last day of that month of the current year, whatever else
    the text holds; otherwise (a number outside 1..12, or more digits than
    [int] converts) the rule is skipped, later occurrences are not looked
    at, and the later rules are tried. *)
Theorem normalize_month_idiom_in_text now s ds g2 :
  re_search month_pattern s = Some (ds, g2) ->
  (Z.of_nat (length ds) <= int_max_str_digits ->
   1 <= numeral_value ds <= 12 ->
   normalize_due_date now (Some s) =
   Ok (Some (date_text (year now) (numeral_value ds)
               (gregorian_month_length (year now) (numeral_value ds)))))
  /\ (~ (Z.of_nat (length ds) <= int_max_str_digits
         /\ 1 <= numeral_value ds <= 12) ->
      normalize_due_date now (Some s) = later_rules now s).
Proof.
  intros H.
  pose proof (month_pattern_needs _ _ H) as Hin.
  destruct (guards_pass _ _ Hin eq_refl) as [G1 G2].
  rewrite normalize_unfold, G1, G2, (month_rule_found _ _ _ _ H).
  split.
  - intros Hlen Hn.
    destruct (Z.leb_spec (Z.of_nat (length ds)) int_max_str_digits); [|lia].
    destruct (Z.leb_spec 1 (numeral_value ds)); [|lia].
    destruct (Z.leb_spec (numeral_value ds) 12); [|lia].
    cbn [andb].
    pose proof (gregorian_month_length_range (year now) (numeral_value ds)).
    now rewrite fmt_date_text by lia.
  - intros Hn.
    destruct (Z.leb_spec (Z.of_nat (length ds)) int_max_str_digits);
      destruct (Z.leb_spec 1 (numeral_value ds));
      destruct (Z.leb_spec (numeral_value ds) 12); cbn [andb];
      try reflexivity; lia.
Qed.

Lemma normalize_month_idiom_in_text_witness :
  let now := example_now in
  let s := u "対応は３月末までにお願いします（遅くとも4月中）" in
  let ds := u "３" in
  normalize_due_date now (Some s) =
  Ok (Some (date_text (year now) (numeral_value ds)
              (gregorian_month_length (year now) (numeral_value ds)))).
Proof.
  intros now s ds.
  assert (H : re_search month_pattern s = Some (ds, u "末"))
    by (vm_compute; reflexivity).
  assert (Hlen : Z.of_nat (length ds) <= int_max_str_digits)
    by (vm_compute; discriminate).
  assert (Hn : 1 <= numeral_value ds <= 12)
    by (vm_compute; split; discriminate).
  exact (proj1 (normalize_month_idiom_in_text now s ds (u "末") H) Hlen Hn).
Defined.

(** X3.  A month outside 1..12.  "N月" followed by 中, 末 or まで with N = 0 or
    N > 12 (in ASCII or full-width digits) is no date: the normalizer
    returns the text as it is. *)
Theorem normalize_month_out_of_range now ds suffix :
  ds <> [] ->
  Forall (fun c => digit_class c = true) ds ->
  ~ 1 <= numeral_value ds <= 12 ->
  In suffix [u "中"; u "末"; u "まで"] ->
  normalize_due_date now (Some (ds ++ u "月" ++ suffix))
  = Ok (Some (ds ++ u "月" ++ suffix)).
Proof.
  intros Hne Hds Hn Hsuf.
  pose proof (re_search_head _ _ _ (month_pattern_at ds suffix Hne Hds Hsuf)) as H.
  assert (Hin : In 0x6708%N (ds ++ u "月" ++ suffix))
    by (apply in_or_app; right; left; reflexivity).
  destruct (guards_pass _ _ Hin eq_refl) as [G1 G2].
  rewrite normalize_unfold, G1, G2, (month_rule_found _ _ _ _ H).
  assert (E : (1 <=? numeral_value ds) && (numeral_value ds <=? 12) = false).
  { destruct (Z.leb_spec 1 (numeral_value ds));
      destruct (Z.leb_spec (numeral_value ds) 12); try reflexivity; lia. }
  rewrite E, andb_false_r.
  assert (Hno : forall c, (c = 0x4ECA \/ c = 0x6765 \/ c = 0x65E5)%N ->
                  ~ In c (ds ++ u "月" ++ suffix)).
  { intros c Hc Hc'. apply in_app_or in Hc' as [Hc'|Hc'].
    - rewrite Forall_forall in Hds. apply list_elem_of_In in Hc'.
      specialize (Hds _ Hc'). unfold digit_class in Hds.
      rewrite orb_true_iff, !andb_true_iff, !N.leb_le in Hds. lia.
    - simpl in Hsuf. destruct Hsuf as [<-|[<-|[<-|[]]]];
        vm_compute in Hc'; lia. }
  apply later_rules_none; [left; split|]; apply Hno; lia.
Qed.

Lemma normalize_month_out_of_range_witness :
  normalize_due_date example_now (Some (u "１３" ++ u "月" ++ u "末"))
  = Ok (Some (u "１３" ++ u "月" ++ u "末")).
Proof.
  apply (normalize_month_out_of_range example_now (u "１３") (u "末")).
  - discriminate.
  - repeat constructor.
  - vm_compute. intros [_ H]. now apply H.
  - right. left. reflexivity.
Defined.

(** Digits that [int] refuses for their number are no month either,
    whatever they denote: the text is returned as it is. *)
Lemma normalize_month_over_limit now ds suffix :
  ds <> [] ->
  Forall (fun c => digit_class c = true) ds ->
  int_max_str_digits < Z.of_nat (length ds) ->
  In suffix [u "中"; u "末"; u "まで"] ->
  normalize_due_date now (Some (ds ++ u "月" ++ suffix))
  = Ok (Some (ds ++ u "月" ++ suffix)).
Proof.
  intros Hne Hds Hlen Hsuf.
  pose proof (re_search_head _ _ _ (month_pattern_at ds suffix Hne Hds Hsuf)) as H.
  assert (Hin : In 0x6708%N (ds ++ u "月" ++ suffix))
    by (apply in_or_app; right; left; reflexivity).
  destruct (guards_pass _ _ Hin eq_refl) as [G1 G2].
  rewrite normalize_unfold, G1, G2, (month_rule_found _ _ _ _ H).
  destruct (Z.leb_spec (Z.of_nat (length ds)) int_max_str_digits); [lia|].
  cbn [andb].
  assert (Hno : forall c, (c = 0x4ECA \/ c = 0x6765 \/ c = 0x65E5)%N ->
                  ~ In c (ds ++ u "月" ++ suffix)).
  { intros c Hc Hc'. apply in_app_or in Hc' as [Hc'|Hc'].
    - rewrite Forall_forall in Hds. apply list_elem_of_In in Hc'.
      specialize (Hds _ Hc'). unfold digit_class in Hds.
      rewrite orb_true_iff, !andb_true_iff, !N.leb_le in Hds. lia.
    - simpl in Hsuf. destruct Hsuf as [<-|[<-|[<-|[]]]];
        vm_compute in Hc'; lia. }
  apply later_rules_none; [left; split|]; apply Hno; lia.
Qed.

(** X4.  The [N日] rule.  For a text in which digits followed by 日 and 後, 以内
    or まで are found and which no earlier rule claims, with N the number
    the leftmost such digits denote.  When the digits are at most
    [int_max_str_digits] = 4300: if the day N days after today exists (up
    to 9999-12-31) the normalizer gives that day, today itself for N = 0; if
    it does not, the normalizer does not return but raises [OverflowError].
    When there are more digits than [int] converts, the text is returned as
    it is. *)
Theorem normalize_days_idiom now s ds :
  valid_datetime now ->
  month_rule (year now) s = None ->
  matched (re_search this_month_pattern s) = false ->
  matched (re_search next_month_pattern s) = false ->
  matched (re_search next_week_pattern s) = false ->
  matched (re_search this_week_pattern s) = false ->
  re_search days_pattern s = Some ds ->
  let n := numeral_value ds in
  0 <= n
  /\ (Z.of_nat (length ds) <= int_max_str_digits ->
      (toordinal now + n <= MAXORDINAL ->
       exists d,
         datetime_add now n = Ok d
         /\ normalize_due_date now (Some s)
            = Ok (Some (date_text (year d) (month d) (day d)))
         /\ toordinal d = toordinal now + n
         /\ valid_date (year d) (month d) (day d)
         /\ (n = 0 -> d = now))
      /\ (MAXORDINAL < toordinal now + n ->
          normalize_due_date now (Some s) = Raise OverflowError))
  /\ (int_max_str_digits < Z.of_nat (length ds) ->
      normalize_due_date now (Some s) = Ok (Some s)).
Proof.
  intros V Hrule H1 H2 H3 H4 Hd n.
  pose proof (numeral_value_nonneg ds) as Hn. fold n in Hn.
  pose proof (days_pattern_needs _ _ Hd) as Hin.
  destruct (guards_pass _ _ Hin eq_refl) as [G1 G2].
  assert (E : normalize_due_date now (Some s) =
              match (if Z.of_nat (length ds) <=? int_max_str_digits then
                       try_except_ValueError (
                         delta ← timedelta n;
                         target_date ← datetime_add now delta;
                         Ok (Some (Some (strftime_ymd target_date))))
                     else None) with
              | Some r => r
              | None => Ok (Some s)
              end).
  { rewrite normalize_unfold, G1, G2, Hrule. unfold later_rules.
    rewrite H1, H2, H3, H4, (days_rule_found now s ds Hd). reflexivity. }
  split; [exact Hn|]. split; [intros Hlen; split|].
  - intros Hmax.
    destruct (Z.leb_spec (Z.of_nat (length ds)) int_max_str_digits); [|lia].
    pose proof (valid_datetime_date _ V) as Vd.
    pose proof (ymd2ord_positive _ _ _ Vd) as Hpos. fold (toordinal now) in Hpos.
    destruct (datetime_add_spec now n V Hn Hmax) as (d & Hadd & Hord & Vd' & Hsame).
    exists d. split; [exact Hadd|].
    split; [|split; [exact Hord|split; [exact Vd'|exact Hsame]]].
    rewrite E, timedelta_small.
    + cbn [mbind result_bind]. rewrite Hadd. cbn [mbind result_bind].
      simpl. now rewrite strftime_date_text.
    + unfold MAXORDINAL in Hmax. lia.
  - intros Hmax. rewrite E.
    destruct (Z.leb_spec (Z.of_nat (length ds)) int_max_str_digits); [|lia].
    unfold timedelta.
    destruct (Z.abs n <=? 999999999); cbn [mbind result_bind]; [|reflexivity].
    unfold datetime_add.
    destruct (Z.leb_spec (toordinal now + n) MAXORDINAL); [lia|].
    rewrite andb_false_r. reflexivity.
  - intros Hlen. rewrite E.
    destruct (Z.leb_spec (Z.of_nat (length ds)) int_max_str_digits);
      [lia|reflexivity].
Qed.

Lemma normalize_days_idiom_witness :
  let now := example_now in
  let s := u "３日後までに" in
  let n := numeral_value (u "３") in
  exists d,
    datetime_add now n = Ok d
    /\ normalize_due_date now (Some s)
       = Ok (Some (date_text (year d) (month d) (day d)))
    /\ toordinal d = toordinal now + n
    /\ valid_date (year d) (month d) (day d)
    /\ (n = 0 -> d = now).
Proof.
  intros now s n.
  assert (V : valid_datetime now)
    by (unfold valid_datetime; vm_compute; intuition discriminate).
  assert (H0 : month_rule (year now) s = None) by (vm_compute; reflexivity).
  assert (H1 : matched (re_search this_month_pattern s) = false)
    by (vm_compute; reflexivity).
  assert (H2 : matched (re_search next_month_pattern s) = false)
    by (vm_compute; reflexivity).
  assert (H3 : matched (re_search next_week_pattern s) = false)
    by (vm_compute; reflexivity).
  assert (H4 : matched (re_search this_week_pattern s) = false)
    by (vm_compute; reflexivity).
  assert (H5 : re_search days_pattern s = Some (u "３"))
    by (vm_compute; reflexivity).
  assert (H6 : Z.of_nat (length (u "３")) <= int_max_str_digits)
    by (vm_compute; discriminate).
  assert (H7 : toordinal now + n <= MAXORDINAL) by (vm_compute; discriminate).
  exact (proj1 (proj1 (proj2
           (normalize_days_idiom now s (u "３") V H0 H1 H2 H3 H4 H5)) H6) H7).
Defined.

(** X5.  Texts without an idiom.  A text that is not empty, is not a spelling
    of null or none, and holds none of the characters 月, 週 and 日 is
    returned unchanged, whatever the clock says. *)
Theorem normalize_keeps_text_without_idiom now s :
  s <> [] -> lower s <> u "null" -> lower s <> u "none" ->
  has_idiom_char s = false ->
  normalize_due_date now (Some s) = Ok (Some s).
Proof.
  intros Hne Hnull Hnone Hid.
  apply has_idiom_char_false in Hid as (Hm & Hw & Hd).
  apply normalize_plain; try assumption.
  apply orb_false_iff. split; [destruct s; [congruence|reflexivity]|].
  unfold str_in, pystr_eqb. cbn [existsb].
  rewrite !orb_false_iff. repeat split; try apply bool_decide_eq_false_2;
    try assumption.
  intros E. apply Hne. destruct s; [reflexivity|discriminate].
Qed.

Lemma normalize_keeps_text_without_idiom_witness :
  normalize_due_date example_now (Some (u "なるべく早く"))
  = Ok (Some (u "なるべく早く")).
Proof.
  apply normalize_keeps_text_without_idiom.
  - discriminate.
  - vm_compute. discriminate.
  - vm_compute. discriminate.
  - vm_compute. reflexivity.
Defined.

(** X6.  What the normalizer can return.  Under a valid clock, a result that is
    a string is either the input itself or a day of the calendar printed as
    year-month-day with the month and the day on two digits; such a printed
    date is left alone by the normalizer under any clock, and normalizing
    any result once more changes nothing. *)
Theorem normalize_result_stable now s r :
  valid_datetime now ->
  normalize_due_date now (Some s) = Ok (Some r) ->
  (r = s
   \/ exists y m d,
        valid_date y m d /\ r = date_text y m d
        /\ forall now', normalize_due_date now' (Some r) = Ok (Some r))
  /\ normalize_due_date now (Some r) = Ok (Some r).
Proof.
  intros V H.
  assert (Hdate : forall y m d, valid_date y m d ->
            forall now', normalize_due_date now' (Some (date_text y m d))
                         = Ok (Some (date_text y m d))).
  { intros y m d (_ & Hm & Hd) now'.
    pose proof (days_in_month_range y m Hm).
    destruct (date_text_chars y m d) as [Hc Hh]; [lia..|].
    now apply normalize_digits_and_hyphens. }
  assert (Hcases : r = s \/ exists y m d, valid_date y m d /\ r = date_text y m d).
  { rewrite normalize_unfold in H.
    destruct (is_nil s || _); [discriminate|].
    destruct (re_match_iso s); [injection H as <-; now left|].
    destruct (re_search month_pattern s) as [[g1 g2]|] eqn:Em.
    - rewrite (month_rule_found _ _ _ _ Em) in H.
      destruct ((Z.of_nat (length g1) <=? int_max_str_digits)
                && ((1 <=? numeral_value g1) && (numeral_value g1 <=? 12)))
        eqn:E.
      + apply andb_true_iff in E as [_ E].
        apply andb_true_iff in E as [E1 E2]. apply Z.leb_le in E1, E2.
        injection H as <-. right.
        pose proof (gregorian_month_length_range (year now) (numeral_value g1)).
        exists (year now), (numeral_value g1),
               (gregorian_month_length (year now) (numeral_value g1)).
        split; [|apply fmt_date_text; lia].
        destruct V as (Hy & _). unfold MINYEAR in Hy. unfold valid_date.
        rewrite days_in_month_gregorian by lia. lia.
      + now apply (later_rules_cases now).
    - rewrite (month_rule_none _ _ Em) in H. now apply (later_rules_cases now). }
  split.
  - destruct Hcases as [->|(y & m & d & Vd & ->)]; [now left|right].
    exists y, m, d. split; [exact Vd|]. split; [reflexivity|]. now apply Hdate.
  - destruct Hcases as [->|(y & m & d & Vd & ->)]; [exact H|]. now apply Hdate.
Qed.

Lemma normalize_result_stable_witness :
  let now := example_now in
  let s := u "来月末" in
  let r := u "2024-02-29" in
  (r = s
   \/ exists y m d,
        valid_date y m d /\ r = date_text y m d
        /\ forall now', normalize_due_date now' (Some r) = Ok (Some r))
  /\ normalize_due_date now (Some r) = Ok (Some r).
Proof.
  intros now s r.
  assert (V : valid_datetime now)
    by (unfold valid_datetime; vm_compute; intuition discriminate).
  assert (H : normalize_due_date now (Some s) = Ok (Some r))
    by (vm_compute; reflexivity).
  exact (normalize_result_stable now s r V H).
Defined.

Local Close Scope Z_scope.

(** ** Stripping white space *)

Lemma lstrip_spaces ws s :
  Forall (fun c => is_space c = true) ws -> lstrip (ws ++ s) = lstrip s.
Proof. induction 1 as [|c ws Hc _ IH]; simpl; [reflexivity|]. now rewrite Hc. Qed.

Lemma lstrip_all_spaces ws :
  Forall (fun c => is_space c = true) ws -> lstrip ws = [].
Proof.
  intros H. rewrite <- (app_nil_r ws). now rewrite lstrip_spaces.
Qed.

Lemma lstrip_head s : no_space_at_head (lstrip s).
Proof.
  induction s as [|c s IH]; simpl; [exact I|].
  destruct (is_space c) eqn:E; [exact IH|]. simpl. exact E.
Qed.

Lemma lstrip_split s :
  exists ws, Forall (fun c => is_space c = true) ws /\ s = ws ++ lstrip s.
Proof.
  induction s as [|c s (ws & Hws & IH)]; simpl; [now exists []|].
  destruct (is_space c) eqn:E.
  - exists (c :: ws). split; [now constructor|]. simpl. now f_equal.
  - now exists [].
Qed.

Lemma lstrip_keeps s : no_space_at_head s -> lstrip s = s.
Proof. destruct s as [|c s]; simpl; [reflexivity|]. now intros ->. Qed.

Lemma no_space_at_head_app s t :
  s <> [] -> no_space_at_head s -> no_space_at_head (s ++ t).
Proof. destruct s; [congruence|]. now simpl. Qed.

(** [strip] takes the white space off both ends and nothing else. *)
Lemma strip_core ws1 core ws2 :
  Forall (fun c => is_space c = true) ws1 ->
  Forall (fun c => is_space c = true) ws2 ->
  no_space_at_head core -> no_space_at_head (rev core) ->
  strip (ws1 ++ core ++ ws2) = core.
Proof.
  intros H1 H2 Hh Hl. unfold strip. rewrite lstrip_spaces by exact H1.
  destruct core as [|c core].
  - simpl. rewrite (lstrip_all_spaces ws2) by exact H2. reflexivity.
  - rewrite (lstrip_keeps ((c :: core) ++ ws2))
      by (apply no_space_at_head_app; [discriminate|exact Hh]).
    rewrite rev_app_distr, lstrip_spaces by (now apply List.Forall_rev).
    rewrite lstrip_keeps by exact Hl. apply rev_involutive.
Qed.

Lemma strip_split s :
  exists ws1 ws2,
    Forall (fun c => is_space c = true) ws1
    /\ Forall (fun c => is_space c = true) ws2
    /\ s = ws1 ++ strip s ++ ws2
    /\ no_space_at_head (strip s) /\ no_space_at_head (rev (strip s)).
Proof.
  destruct (lstrip_split s) as (a & Ha & Es).
  destruct (lstrip_split (rev (lstrip s))) as (b & Hb & Er).
  assert (Et : lstrip s = strip s ++ rev b).
  { unfold strip. rewrite <- rev_app_distr, <- Er. symmetry. apply rev_involutive. }
  exists a, (rev b). split; [exact Ha|]. split; [now apply List.Forall_rev|].
  split; [now rewrite <- Et|]. split.
  - pose proof (lstrip_head s) as Hh. rewrite Et in Hh.
    destruct (strip s); [exact I|exact Hh].
  - unfold strip. rewrite rev_involutive. apply lstrip_head.
Qed.

Lemma strip_around ws1 s ws2 :
  Forall (fun c => is_space c = true) ws1 ->
  Forall (fun c => is_space c = true) ws2 ->
  strip (ws1 ++ s ++ ws2) = strip s.
Proof.
  intros H1 H2.
  destruct (strip_split s) as (a & b & Ha & Hb & Es & Hh & Hl).
  rewrite Es at 1.
  replace (ws1 ++ (a ++ strip s ++ b) ++ ws2)
    with ((ws1 ++ a) ++ strip s ++ (b ++ ws2))
    by (now rewrite <- !app_assoc).
  apply strip_core; try assumption; apply Forall_app; now split.
Qed.

Lemma strip_strip s : strip (strip s) = strip s.
Proof.
  destruct (strip_split s) as (a & b & _ & _ & _ & Hh & Hl).
  rewrite <- (app_nil_r (strip s)) at 1.
  apply (strip_core [] (strip s) []); try assumption; constructor.
Qed.

Lemma strip_trimmed core :
  no_space_at_head core -> no_space_at_head (rev core) -> strip core = core.
Proof.
  intros Hh Hl. rewrite <- (app_nil_r core) at 1.
  apply (strip_core [] core []); try assumption; constructor.
Qed.

Lemma strip_length s : (length (strip s) <= length s)%nat.
Proof.
  destruct (strip_split s) as (a & b & _ & _ & Es & _).
  rewrite Es at 2. rewrite !length_app. lia.
Qed.

(** ** The code fence *)

Lemma startswith_app p r : startswith p (p ++ r) = true.
Proof. unfold startswith. now rewrite lit_app. Qed.

Lemma lit_app_l l1 l2 s :
  lit l1 s = None -> lit (l1 ++ l2) s = None.
Proof.
  revert s. induction l1 as [|a l1 IH]; intros s; simpl; [discriminate|].
  destruct s as [|b s]; [reflexivity|].
  destruct (a =? b)%N; [apply IH|reflexivity].
Qed.

Lemma lit_app_cancel p q s : lit (p ++ q) (p ++ s) = lit q s.
Proof. induction p as [|a p IH]; simpl; [reflexivity|]. now rewrite N.eqb_refl. Qed.

Lemma lit_head_mismatch a l c s : a <> c -> lit (a :: l) (c :: s) = None.
Proof. intros H. simpl. now destruct (N.eqb_spec a c). Qed.

(** The text between the fences, when the response is fenced; the stripped
    text otherwise. *)
Lemma fence_core b :
  let fence := u "```" in
  (match b with [] => True | c :: _ => c <> 0x60%N end ->
   strip_code_fence (u "```json" ++ b ++ fence) = strip b)
  /\ (match b with [] => True | c :: _ => c <> 0x6A%N end ->
      strip_code_fence (fence ++ b ++ fence) = strip b).
Proof.
  intros fence.
  assert (Hend : forall x, endswith fence (x ++ fence) = true).
  { intros x. unfold endswith. rewrite rev_app_distr. apply startswith_app. }
  assert (Htake : forall x,
            take (length (x ++ fence) - 3) (x ++ fence) = x).
  { intros x. rewrite length_app.
    replace (length x + length fence - 3)%nat with (length x)
      by (change (length fence) with 3%nat; lia).
    apply take_app_length. }
  assert (Hrev : no_space_at_head (rev fence)) by (vm_compute; reflexivity).
  split; intros Hb.
  - unfold strip_code_fence. fold fence.
    rewrite (strip_trimmed (u "```json" ++ b ++ fence));
      [|apply no_space_at_head_app; [discriminate|vm_compute; reflexivity]
       |rewrite !rev_app_distr, <- app_assoc;
        apply no_space_at_head_app; [discriminate|exact Hrev]].
    rewrite startswith_app.
    change 7%nat with (length (u "```json")). rewrite drop_app_length.
    destruct b as [|c b].
    + vm_compute. reflexivity.
    + assert (E : startswith fence ((c :: b) ++ fence) = false).
      { unfold startswith. change fence with (96%N :: u "``").
        rewrite <- app_comm_cons, lit_head_mismatch by congruence.
        reflexivity. }
      rewrite E, Hend, Htake. reflexivity.
  - unfold strip_code_fence. fold fence.
    rewrite (strip_trimmed (fence ++ b ++ fence));
      [|apply no_space_at_head_app; [discriminate|vm_compute; reflexivity]
       |rewrite !rev_app_distr, <- app_assoc;
        apply no_space_at_head_app; [discriminate|exact Hrev]].
    assert (E : startswith (u "```json") (fence ++ b ++ fence) = false).
    { unfold startswith. change (u "```json") with (fence ++ u "json").
      rewrite lit_app_cancel.
      destruct b as [|c b]; [vm_compute; reflexivity|].
      change (u "json") with (106%N :: u "son").
      rewrite <- app_comm_cons, lit_head_mismatch by congruence.
      reflexivity. }
    assert (Hdrop : drop 3 (fence ++ b ++ fence) = b ++ fence)
      by (change 3%nat with (length fence); apply drop_app_length).
    rewrite E, startswith_app, !Hdrop, Hend, Htake. reflexivity.
Qed.

(** X8.  The code fence.  A response that consists of a fence opened with
    ```json (or with ``` alone), a body and a closing fence, with any white
    space around, is read as its body with the white space around it
    removed; a response that, once stripped, neither begins nor ends with
    a fence is only stripped.  So the fenced and the bare form of a reply
    are parsed to the same batch. *)
Theorem code_fence_is_removed ws1 ws2 b :
  Forall (fun c => is_space c = true) ws1 ->
  Forall (fun c => is_space c = true) ws2 ->
  let fence := u "```" in
  (match b with [] => True | c :: _ => c <> 0x60%N end ->
   strip_code_fence (ws1 ++ (u "```json" ++ b ++ fence) ++ ws2) = strip b
   /\ forall json_loads clock,
        extract_from_response json_loads clock
          (ws1 ++ (u "```json" ++ b ++ fence) ++ ws2)
        = extract_info_with_gemini clock (json_loads (strip b)))
  /\ (match b with [] => True | c :: _ => c <> 0x6A%N end ->
      strip_code_fence (ws1 ++ (fence ++ b ++ fence) ++ ws2) = strip b)
  /\ (startswith fence (strip b) = false ->
      endswith fence (strip b) = false ->
      strip_code_fence (ws1 ++ b ++ ws2) = strip b).
Proof.
  intros H1 H2 fence.
  assert (Hpre : forall t,
            strip_code_fence (ws1 ++ t ++ ws2) = strip_code_fence t).
  { intros t. unfold strip_code_fence. now rewrite strip_around. }
  destruct (fence_core b) as [F1 F2]. fold fence in F1, F2.
  split; [|split].
  - intros Hb. assert (E := F1 Hb). rewrite <- (Hpre _) in E.
    split; [exact E|]. intros jl clock. unfold extract_from_response.
    now rewrite E.
  - intros Hb. rewrite Hpre. now apply F2.
  - intros Hs He. rewrite Hpre. unfold strip_code_fence.
    assert (E : startswith (u "```json") (strip b) = false).
    { unfold startswith in *. change (u "```json") with (fence ++ u "json").
      destruct (lit fence (strip b)) eqn:El; [discriminate|].
      now rewrite lit_app_l. }
    rewrite E. fold fence. rewrite Hs, He. apply strip_strip.
Qed.

Lemma code_fence_is_removed_witness :
  let ws1 := [] in
  let ws2 := u " " in
  let b := nl ++ u "[{}]" ++ nl in
  let fence := u "```" in
  (match b with [] => True | c :: _ => c <> 0x60%N end ->
   strip_code_fence (ws1 ++ (u "```json" ++ b ++ fence) ++ ws2) = strip b
   /\ forall json_loads clock,
        extract_from_response json_loads clock
          (ws1 ++ (u "```json" ++ b ++ fence) ++ ws2)
        = extract_info_with_gemini clock (json_loads (strip b)))
  /\ (match b with [] => True | c :: _ => c <> 0x6A%N end ->
      strip_code_fence (ws1 ++ (fence ++ b ++ fence) ++ ws2) = strip b)
  /\ (startswith fence (strip b) = false ->
      endswith fence (strip b) = false ->
      strip_code_fence (ws1 ++ b ++ ws2) = strip b).
Proof.
  intros ws1 ws2 b.
  assert (H1 : Forall (fun c => is_space c = true) ws1) by constructor.
  assert (H2 : Forall (fun c => is_space c = true) ws2)
    by (repeat constructor).
  exact (code_fence_is_removed ws1 ws2 b H1 H2).
Defined.

(** ** The rows a call of the persister appends *)

Lemma append_rows_raise n mx ts name url msg records :
  forall idx written w x w',
  append_rows n mx ts name url msg idx records written w = (Raise x, w') ->
  exists new it,
    sheet w' = sheet w ++ new
    /\ outbox w' = outbox w /\ extractions w' = extractions w
    /\ (forall k cells, new !! k = Some cells ->
          exists it', records !! k = Some it'
            /\ row_cells mx ts name url msg (idx + k) it' = Ok cells)
    /\ records !! length new = Some it
    /\ row_cells mx ts name url msg (idx + length new) it = Raise x.
Proof.
  induction records as [|r rest IH]; intros idx written w x w'.
  - simpl. discriminate.
  - rewrite append_rows_cons.
    destruct (row_cells mx ts name url msg idx r) as [cells|e] eqn:Ec.
    + intros H. apply IH in H as (new & it & Hs & Ho & He & Hk & Hit & Hx).
      simpl in Hs, Ho, He.
      exists (cells :: new), it.
      split; [rewrite Hs, <- app_assoc; reflexivity|].
      split; [exact Ho|]. split; [exact He|]. split; [|split].
      * intros [|k] c Hc; simpl in Hc.
        -- injection Hc as <-. exists r. rewrite Nat.add_0_r. now split.
        -- destruct (Hk k c Hc) as (it' & Hi1 & Hi2). exists it'.
           split; [exact Hi1|].
           now replace (idx + S k)%nat with (S idx + k)%nat by lia.
      * exact Hit.
      * simpl. now replace (idx + S (length new))%nat
          with (S idx + length new)%nat by lia.
    + intros [= <- <-]. exists [], r. simpl. rewrite app_nil_r, Nat.add_0_r.
      repeat split; try reflexivity; [|exact Ec].
      intros k c Hc. discriminate.
Qed.

(** X9.  The row numbers.  When the persister returns, the row numbers it
    reports are the positions [len + 1, ..., len + k] after the [len] rows
    the worksheet had; the row found at the reported position of record
    [i] begins with the inquiry number reported for record [i]; the rows
    that were there before are where they were, and no message is sent
    and no extraction requested by the call. *)
Theorem written_rows_locate_records now name batch msg url w b rows nos w' :
  write_to_spreadsheet true now name batch msg url w = (Ok (b, rows, nos), w') ->
  length rows = length batch
  /\ length nos = length batch
  /\ take (length (sheet w)) (sheet w') = sheet w
  /\ length (sheet w') = (length (sheet w) + length batch)%nat
  /\ outbox w' = outbox w /\ extractions w' = extractions w
  /\ forall i r, rows !! i = Some r ->
       r = (Z.of_nat (length (sheet w)) + Z.of_nat i + 1)%Z
       /\ exists n rest,
            nos !! i = Some n
            /\ sheet w' !! Z.to_nat (r - 1) = Some (str_of_int n :: rest).
Proof.
  rewrite write_to_spreadsheet_unfold. cbv zeta.
  pose proof (append_rows_spec (length (sheet w)) (max_inquiry_no_of (sheet w))
                (strftime_ymd_hms now) name url msg batch 0 [] w) as Hspec.
  cbv zeta in Hspec. destruct Hspec as (new & Hs & Ho & He & Hk & Hr).
  destruct (fst (append_rows _ _ _ _ _ _ _ _ _ _)) as [rows'|e]; [|discriminate].
  destruct Hr as [Hlen Hrows]. intros [= <- <- <- <-].
  assert (Hlr : length rows' = length batch)
    by (rewrite Hrows; simpl; now rewrite length_map, length_seq).
  split; [exact Hlr|].
  split; [unfold inquiry_nos; now rewrite length_map, length_seq|].
  split; [rewrite Hs; apply take_app_length|].
  split; [rewrite Hs, length_app, Hlen; reflexivity|].
  split; [exact Ho|]. split; [exact He|].
  intros i r Hi.
  assert (Hlt : (i < length batch)%nat)
    by (rewrite <- Hlr; eapply lookup_lt_Some; eauto).
  rewrite Hrows in Hi. simpl in Hi.
  rewrite list_lookup_fmap, lookup_seq_lt in Hi by exact Hlt.
  simpl in Hi. injection Hi as <-.
  split; [reflexivity|].
  destruct (lookup_lt_is_Some_2 new i ltac:(lia)) as [cells Hc].
  destruct (Hk i cells Hc) as (it & _ & Hrow). simpl in Hrow.
  destruct (row_cells_head _ _ _ _ _ _ _ _ Hrow) as [rest ->].
  exists (max_inquiry_no_of (sheet w) + Z.of_nat i + 1)%Z, rest.
  split; [now apply inquiry_nos_lookup|].
  rewrite Hs, lookup_app_r by lia.
  now replace (Z.to_nat (Z.of_nat (length (sheet w)) + Z.of_nat i + 1 - 1)
               - length (sheet w))%nat with i by lia.
Qed.

Lemma written_rows_locate_records_witness :
  let w' := snd (write_to_spreadsheet true example_now (VStr (u "sato"))
                   [∅; ∅] (u "m") (u "") example_world) in
  let rows := [4; 5]%Z in
  let nos := [8; 9]%Z in
  length rows = length [(∅ : item); ∅]
  /\ length nos = length [(∅ : item); ∅]
  /\ take (length (sheet example_world)) (sheet w') = sheet example_world
  /\ length (sheet w') = (length (sheet example_world) + length [(∅ : item); ∅])%nat
  /\ outbox w' = outbox example_world
  /\ extractions w' = extractions example_world
  /\ forall i r, rows !! i = Some r ->
       r = (Z.of_nat (length (sheet example_world)) + Z.of_nat i + 1)%Z
       /\ exists n rest,
            nos !! i = Some n
            /\ sheet w' !! Z.to_nat (r - 1) = Some (str_of_int n :: rest).
Proof.
  intros w' rows nos.
  assert (H : write_to_spreadsheet true example_now (VStr (u "sato"))
                [∅; ∅] (u "m") (u "") example_world
              = (Ok (true, rows, nos), w')) by (vm_compute; reflexivity).
  exact (written_rows_locate_records example_now (VStr (u "sato")) [∅; ∅]
           (u "m") (u "") example_world true rows nos w' H).
Defined.

(** X10.  A failing call.  When the persister raises, the worksheet is either
    untouched (the worksheet could not be reached) or holds, after the rows
    it had, the rows of the records that precede the first record whose row
    could not be built or stored, and the exception is the one that record
    met: the rows written before the failure stay.  No message is sent and
    no extraction requested by the call. *)
Theorem failed_write_keeps_earlier_rows available now name batch msg url w x w' :
  write_to_spreadsheet available now name batch msg url w = (Raise x, w') ->
  (available = false -> w' = w /\ x = ExternalError)
  /\ (available = true ->
      let mx := max_inquiry_no_of (sheet w) in
      let ts := strftime_ymd_hms now in
      exists new it,
        sheet w' = sheet w ++ new
        /\ outbox w' = outbox w /\ extractions w' = extractions w
        /\ (forall k cells, new !! k = Some cells ->
              exists it', batch !! k = Some it'
                /\ row_cells mx ts name url msg k it' = Ok cells)
        /\ batch !! length new = Some it
        /\ row_cells mx ts name url msg (length new) it = Raise x).
Proof.
  intros H. split.
  - intros ->. unfold write_to_spreadsheet, raise in H. simpl in H.
    injection H as <- <-. now split.
  - intros ->. cbv zeta. rewrite write_to_spreadsheet_unfold in H. cbv zeta in H.
    destruct (append_rows _ _ _ _ _ _ _ _ _ _) as [[rows|e] w1] eqn:Ea;
      simpl in H; [discriminate|].
    injection H as <- <-.
    apply append_rows_raise in Ea. exact Ea.
Qed.

Lemma failed_write_keeps_earlier_rows_witness :
  let w := example_world in
  let res := write_to_spreadsheet true example_now (VStr (u "sato"))
               example_null_tags_batch (u "m") (u "") w in
  fst res = Raise TypeError
  /\ length (sheet (snd res)) = 4%nat
  /\ let mx := max_inquiry_no_of (sheet w) in
     let ts := strftime_ymd_hms example_now in
     exists new it,
       sheet (snd res) = sheet w ++ new
       /\ outbox (snd res) = outbox w /\ extractions (snd res) = extractions w
       /\ (forall k cells, new !! k = Some cells ->
             exists it', example_null_tags_batch !! k = Some it'
               /\ row_cells mx ts (VStr (u "sato")) (u "") (u "m") k it'
                  = Ok cells)
       /\ example_null_tags_batch !! length new = Some it
       /\ row_cells mx ts (VStr (u "sato")) (u "") (u "m") (length new) it
          = Raise TypeError.
Proof.
  intros w res.
  assert (H : write_to_spreadsheet true example_now (VStr (u "sato"))
                example_null_tags_batch (u "m") (u "") w
              = (Raise TypeError, snd res)) by (vm_compute; reflexivity).
  split; [vm_compute; reflexivity|]. split; [vm_compute; reflexivity|].
  exact (proj2 (failed_write_keeps_earlier_rows true example_now
                  (VStr (u "sato")) example_null_tags_batch (u "m") (u "") w
                  TypeError (snd res) H) eq_refl).
Defined.

(** ** Steps of stateful code *)

Lemma M_bind_Ok {A B} (m : M A) (k : A -> M B) w a w1 :
  m w = (Ok a, w1) -> (m ≫= k) w = k a w1.
Proof. intros H. unfold mbind, M_bind. now rewrite H. Qed.

Lemma M_bind_Raise {A B} (m : M A) (k : A -> M B) w x w1 :
  m w = (Raise x, w1) -> (m ≫= k) w = (Raise x, w1).
Proof. intros H. unfold mbind, M_bind. now rewrite H. Qed.

Lemma send_slack_reply_cases e channel thread_ts message w :
  (post_ok e channel thread_ts message = true
   /\ send_slack_reply e channel thread_ts message w
      = (Ok tt, mk_world (sheet w) (outbox w ++ [(channel, thread_ts, message)])
                  (extractions w)))
  \/ (post_ok e channel thread_ts message = false
      /\ send_slack_reply e channel thread_ts message w = (Raise ExternalError, w)).
Proof.
  unfold send_slack_reply. destruct (post_ok _ _ _ _); [left|right]; now split.
Qed.

Lemma effects_bounded_refl w : effects_bounded w w.
Proof.
  split; [|split; now left].
  exists []. rewrite app_nil_r. split; [reflexivity|congruence].
Qed.

(** ** The order of the early answers *)

Lemma handler_body_retry e req w :
  is_retry req = true -> handler_body e req w = (Ok (VStr [], 200%Z), w).
Proof.
  unfold is_retry, handler_body. intros ->. reflexivity.
Qed.

Lemma handler_body_dict e req p w :
  is_retry req = false -> payload req = VDict p ->
  handler_body e req w =
  (if negb (bool_decide (p = ∅))
      && eq_str (get p "type") (u "url_verification") then
     let challenge := get p "challenge" in
     if truthy challenge then mret (challenge, 200%Z)
     else mret (VStr (u "Missing challenge"), 400%Z)
   else if bool_decide (p = ∅) then mret (VStr (u "Invalid request"), 400%Z)
   else if verifier_configured e && negb (signature_valid req) then
     mret (VStr (u "Invalid signature"), 401%Z)
   else if negb (eq_str (get p "type") (u "event_callback")) then mret ok_200
   else
     match get_or p "event" (VDict ∅) with
     | VDict ev =>
       if eq_str (get ev "type") (u "app_mention") then handle_mention e p ev
       else mret ok_200
     | _ => raise AttributeError
     end) w.
Proof.
  unfold is_retry, handler_body. intros -> ->. reflexivity.
Qed.

Lemma get_nonempty (p : gmap string pyval) k v : get p k = VStr v -> p <> ∅.
Proof. intros H ->. unfold get in H. rewrite lookup_empty in H. discriminate. Qed.

Lemma eq_str_false v s : v <> VStr s -> eq_str v s = false.
Proof.
  intros H. destruct (eq_str v s) eqn:E; [|reflexivity].
  apply eq_str_true in E. contradiction.
Qed.

(** X11.  The early answers.  A request with a non-empty retry header is
    acknowledged with an empty body and nothing else happens, whatever it
    carries.  Otherwise a URL verification is answered with its challenge
    (400 when it has none) before any signature check; an empty body is
    refused with 400; then a request whose signature does not verify is
    refused with 401; a body that is not an object is refused with 400 when
    it is false and ends in a 500 when it is true; and an event of another
    type than event_callback is acknowledged.  None of these changes the
    state. *)
Theorem handler_early_answers e req w :
  (is_retry req = true ->
   slack_bot_handler e req w = ((VStr [], 200%Z), w))
  /\ (is_retry req = false ->
      (forall p, payload req = VDict p ->
         (get p "type" = VStr (u "url_verification") ->
          slack_bot_handler e req w =
          (if truthy (get p "challenge") then (get p "challenge", 200%Z)
           else (VStr (u "Missing challenge"), 400%Z), w))
         /\ (p = ∅ ->
             slack_bot_handler e req w
             = ((VStr (u "Invalid request"), 400%Z), w))
         /\ (p <> ∅ -> get p "type" <> VStr (u "url_verification") ->
             (verifier_configured e = true -> signature_valid req = false ->
              slack_bot_handler e req w
              = ((VStr (u "Invalid signature"), 401%Z), w))
             /\ ((verifier_configured e = true -> signature_valid req = true) ->
                 get p "type" <> VStr (u "event_callback") ->
                 slack_bot_handler e req w = (ok_200, w))))
      /\ (forall v, payload req = v -> (forall p, v <> VDict p) ->
          slack_bot_handler e req w =
          (if truthy v then (VStr (u "Internal Server Error"), 500%Z)
           else (VStr (u "Invalid request"), 400%Z), w))).
Proof.
  split; [|intros Hr; split].
  - intros Hr. unfold slack_bot_handler. now rewrite handler_body_retry.
  - intros p Hp. unfold slack_bot_handler.
    rewrite (handler_body_dict e req p w Hr Hp).
    split; [|split].
    + intros Ht. pose proof (get_nonempty _ _ _ Ht) as Hne.
      rewrite (bool_decide_eq_false_2 _ Hne), Ht.
      replace (eq_str (VStr (u "url_verification")) (u "url_verification"))
        with true by (symmetry; now apply eq_str_true).
      cbn [negb andb]. cbv zeta. destruct (truthy (get p "challenge")); reflexivity.
    + intros ->. rewrite bool_decide_eq_true_2 by reflexivity. reflexivity.
    + intros Hne Ht. rewrite (bool_decide_eq_false_2 _ Hne).
      rewrite (eq_str_false _ _ Ht). cbn [negb andb]. split.
      * intros -> ->. reflexivity.
      * intros Hsig He.
        assert (Hv : verifier_configured e && negb (signature_valid req) = false).
        { destruct (verifier_configured e); [|reflexivity]. now rewrite Hsig. }
        rewrite Hv, (eq_str_false _ _ He). reflexivity.
  - intros v Hv Hnd. unfold slack_bot_handler, handler_body.
    unfold is_retry in Hr. rewrite Hr, Hv.
    destruct v as [| | | | |p]; try (destruct (truthy _); reflexivity).
    now destruct (Hnd p).
Qed.

Lemma handler_early_answers_witness :
  let e := example_env (Ok (JsonArray [])) in
  let p : gmap string pyval :=
    {[ "type" := VStr (u "url_verification");
       "challenge" := VStr (u "test-challenge-12345") ]} in
  let req := mk_request None (VDict p) false in
  let w := example_world in
  slack_bot_handler e req w =
  (if truthy (get p "challenge") then (get p "challenge", 200%Z)
   else (VStr (u "Missing challenge"), 400%Z), w).
Proof.
  intros e p req w.
  assert (H1 : is_retry req = false) by reflexivity.
  assert (H2 : payload req = VDict p) by reflexivity.
  assert (H3 : get p "type" = VStr (u "url_verification"))
    by (vm_compute; reflexivity).
  exact (proj1 (proj1 (proj2 (handler_early_answers e req w) H1) p H2) H3).
Defined.

(** ** What a request can do to the state *)

Lemma persist_and_confirm_unfold e channel thread_ts text inquirer url batch w :
  persist_and_confirm e channel thread_ts text inquirer url batch w =
  match write_to_spreadsheet (sheet_available e) (write_clock e) inquirer
          batch text url w with
  | (Ok (_, rows, nos), w2) =>
    match success_message e batch rows nos with
    | Ok m =>
      if post_ok e channel thread_ts m
      then (Ok None,
            mk_world (sheet w2) (outbox w2 ++ [(channel, thread_ts, m)])
              (extractions w2))
      else (Raise ExternalError, w2)
    | Raise x => (Raise x, w2)
    end
  | (Raise x, w2) => (Raise x, w2)
  end.
Proof.
  unfold persist_and_confirm. unfold mbind at 1, M_bind.
  destruct (write_to_spreadsheet _ _ _ _ _ _ w) as [[[[b rows] nos]|x] w2];
    [|reflexivity].
  unfold mbind at 1, M_bind, lift.
  destruct (success_message e batch rows nos) as [m|x]; [|reflexivity].
  unfold mbind at 1, M_bind, send_slack_reply.
  destruct (post_ok e channel thread_ts m); reflexivity.
Qed.

(** The persister only appends rows. *)
Lemma write_to_spreadsheet_effects available now name batch msg url w :
  let res := write_to_spreadsheet available now name batch msg url w in
  exists new,
    sheet (snd res) = sheet w ++ new
    /\ outbox (snd res) = outbox w /\ extractions (snd res) = extractions w
    /\ match fst res with
       | Ok _ => length new = length batch
       | Raise _ => True
       end.
Proof.
  intros res. subst res. destruct available.
  - rewrite write_to_spreadsheet_unfold. cbv zeta.
    pose proof (append_rows_spec (length (sheet w)) (max_inquiry_no_of (sheet w))
                  (strftime_ymd_hms now) name url msg batch 0 [] w) as Hspec.
    cbv zeta in Hspec. destruct Hspec as (new & Hs & Ho & He & _ & Hr).
    exists new.
    destruct (fst (append_rows _ _ _ _ _ _ _ _ _ _)) as [rows|x]; simpl;
      [destruct Hr|]; auto.
  - exists []. unfold write_to_spreadsheet, raise. simpl.
    now rewrite app_nil_r.
Qed.

Lemma persist_and_confirm_effects e channel thread_ts text inquirer url batch w :
  let res := persist_and_confirm e channel thread_ts text inquirer url batch w in
  exists new,
    sheet (snd res) = sheet w ++ new
    /\ extractions (snd res) = extractions w
    /\ match fst res with
       | Ok r => r = None
                 /\ exists m, outbox (snd res) = outbox w ++ [(channel, thread_ts, m)]
       | Raise _ => outbox (snd res) = outbox w
       end.
Proof.
  intros res. subst res. rewrite persist_and_confirm_unfold.
  destruct (write_to_spreadsheet_effects (sheet_available e) (write_clock e)
              inquirer batch text url w) as (new & Hs & Ho & He & _).
  destruct (write_to_spreadsheet _ _ _ _ _ _ w) as [[[[b rows] nos]|x] w2];
    simpl in *; [|now exists new].
  destruct (success_message e batch rows nos) as [m|x]; [|now exists new].
  destruct (post_ok e channel thread_ts m); simpl; [|now exists new].
  exists new. split; [exact Hs|]. split; [exact He|]. split; [reflexivity|].
  exists m. now rewrite Ho.
Qed.

Lemma process_mention_effects e channel thread_ts text inquirer url w :
  let res := process_mention e channel thread_ts text inquirer url w in
  exists new,
    sheet (snd res) = sheet w ++ new
    /\ extractions (snd res) = extractions w ++ [(text, inquirer)]
    /\ match fst res with
       | Ok r => (r = None \/ r = Some ok_200)
                 /\ exists m, outbox (snd res) = outbox w ++ [(channel, thread_ts, m)]
       | Raise _ => outbox (snd res) = outbox w
       end.
Proof.
  intros res. subst res.
  destruct (extract_info_with_gemini (clock e) (gemini e text inquirer))
    as [batch|x] eqn:Ex.
  - rewrite (process_mention_unfold e channel thread_ts text inquirer url w
               batch Ex).
    set (w1 := mk_world (sheet w) (outbox w) (extractions w ++ [(text, inquirer)])).
    assert (Hsend : forall message,
              let res := (_ ← send_slack_reply e channel thread_ts message;
                          mret (Some ok_200)) w1 in
              exists new : sheet_rows,
                sheet (snd res) = sheet w ++ new
                /\ extractions (snd res) = extractions w ++ [(text, inquirer)]
                /\ match fst res with
                   | Ok r => (r = None \/ r = Some ok_200)
                             /\ exists m, outbox (snd res)
                                          = outbox w ++ [(channel, thread_ts, m)]
                   | Raise _ => outbox (snd res) = outbox w
                   end).
    { intros message res. subst res.
      destruct (send_slack_reply_cases e channel thread_ts message w1)
        as [[_ H]|[_ H]].
      - rewrite (M_bind_Ok _ _ _ _ _ H). exists []. simpl.
        rewrite app_nil_r. repeat split; eauto.
      - rewrite (M_bind_Raise _ _ _ _ _ H). exists []. simpl.
        now rewrite app_nil_r. }
    destruct (is_nil batch); [apply Hsend|].
    destruct (email_missing batch); [apply Hsend|].
    destruct (persist_and_confirm_effects e channel thread_ts text inquirer url
                batch w1) as (new & Hs & He & Hr).
    exists new. split; [exact Hs|]. split; [exact He|].
    destruct (fst (persist_and_confirm _ _ _ _ _ _ _ _)) as [r|x]; [|exact Hr].
    destruct Hr as [-> Hm]. split; [now left|exact Hm].
  - unfold process_mention.
    rewrite (M_bind_Raise _ _ w x
               (mk_world (sheet w) (outbox w) (extractions w ++ [(text, inquirer)])))
      by (unfold call_extract; now rewrite Ex).
    exists []. simpl. now rewrite app_nil_r.
Qed.

(** The mention branch once the text is short enough and the link is
    built. *)
Lemma handle_mention_unfold e p ev raw url w :
  get_or ev "text" (VStr []) = VStr raw ->
  (length (clean_text raw) <= 1000)%nat ->
  build_slack_url e (get ev "channel") (get ev "ts")
    (get_or p "team_id" (VStr [])) = Ok url ->
  handle_mention e p ev w =
  match process_mention e (get ev "channel") (get ev "ts") (clean_text raw)
          (resolve_inquirer e (get ev "user")) url w with
  | (Ok r, w1) => (Ok (match r with Some resp => resp | None => ok_200 end), w1)
  | (Raise _, w1) =>
    (Ok ok_200, after_error_reply e (get ev "channel") (get ev "ts") w1)
  end.
Proof.
  intros Ht Hlen Hurl. unfold handle_mention. rewrite Ht.
  destruct (Nat.ltb_spec 1000 (length (clean_text raw))); [lia|].
  rewrite Hurl. unfold lift. unfold mbind at 1, M_bind.
  unfold mbind at 1, M_bind, try_except at 1.
  destruct (process_mention _ _ _ _ _ _ w) as [[r|x] w1]; [reflexivity|].
  unfold mbind, M_bind, try_except, after_error_reply, send_slack_reply.
  destruct (post_ok _ _ _ _); reflexivity.
Qed.

Lemma handle_mention_effects e p ev w :
  let res := handle_mention e p ev w in
  (fst res = Ok ok_200 \/ exists x, fst res = Raise x /\ snd res = w)
  /\ effects_bounded w (snd res).
Proof.
  intros res. subst res.
  destruct (get_or ev "text" (VStr [])) as [| | |raw| |] eqn:Ht;
    try (unfold handle_mention; rewrite Ht; split;
         [right; eexists; split; reflexivity|apply effects_bounded_refl]).
  destruct (Nat.ltb_spec 1000 (length (clean_text raw))) as [Hlong|Hshort].
  - unfold handle_mention. rewrite Ht.
    apply Nat.ltb_lt in Hlong. rewrite Hlong.
    destruct (send_slack_reply_cases e (get ev "channel") (get ev "ts")
                (too_long_message (length (clean_text raw))) w)
      as [[_ H]|[_ H]].
    + rewrite (M_bind_Ok _ _ _ _ _ H). split; [now left|].
      split; [|split; [right; eauto|now left]].
      exists []. simpl. rewrite app_nil_r. split; [reflexivity|congruence].
    + rewrite (M_bind_Raise _ _ _ _ _ H). split; [right; eauto|].
      apply effects_bounded_refl.
  - destruct (build_slack_url e (get ev "channel") (get ev "ts")
                (get_or p "team_id" (VStr []))) as [url|x] eqn:Hurl.
    + rewrite (handle_mention_unfold e p ev raw url w Ht Hshort Hurl).
      destruct (process_mention_effects e (get ev "channel") (get ev "ts")
                  (clean_text raw) (resolve_inquirer e (get ev "user")) url w)
        as (new & Hs & He & Hr).
      destruct (process_mention _ _ _ _ _ _ w) as [[r|x] w1]; simpl in *.
      * destruct Hr as [Hr [m Hm]]. split.
        -- left. destruct Hr as [-> | ->]; reflexivity.
        -- split; [|split; right; eauto]. exists new. split; [exact Hs|eauto].
      * split; [now left|]. unfold after_error_reply.
        destruct (post_ok _ _ _ _); simpl.
        -- split; [|split; right; [rewrite Hr|]; eauto].
           exists new. split; [exact Hs|eauto].
        -- split; [|split; [now left|right; eauto]].
           exists new. split; [exact Hs|eauto].
    + unfold handle_mention. rewrite Ht.
      apply Nat.ltb_ge in Hshort. rewrite Hshort, Hurl.
      split; [right; eexists; split; reflexivity|apply effects_bounded_refl].
Qed.

(** Who reaches the mention branch. *)
Lemma handler_body_cases e req w :
  (exists p ev raw, mention_request e req p ev raw
     /\ handler_body e req w = handle_mention e p ev w)
  \/ (exists r, handler_body e req w = (r, w)).
Proof.
  destruct (is_retry req) eqn:Hr.
  { right. eexists. now apply handler_body_retry. }
  destruct (payload req) as [| | | | |p] eqn:Hp.
  1-5: right; unfold handler_body; unfold is_retry in Hr; rewrite Hr, Hp;
       destruct (truthy _); eexists; reflexivity.
  rewrite (handler_body_dict e req p w Hr Hp).
  destruct (bool_decide (p = ∅)) eqn:Hemp.
  { right. eexists. reflexivity. }
  cbn [negb andb].
  destruct (eq_str (get p "type") (u "url_verification")) eqn:Hv.
  { right. cbv zeta. destruct (truthy _); eexists; reflexivity. }
  destruct (verifier_configured e && negb (signature_valid req)) eqn:Hsig.
  { right. eexists. reflexivity. }
  destruct (eq_str (get p "type") (u "event_callback")) eqn:Hec; cbn [negb].
  2:{ right. eexists. reflexivity. }
  apply eq_str_true in Hec.
  destruct (get_or p "event" (VDict ∅)) as [| | | | |ev] eqn:Hev.
  1-5: right; eexists; reflexivity.
  destruct (eq_str (get ev "type") (u "app_mention")) eqn:Ham.
  2:{ right. eexists. reflexivity. }
  apply eq_str_true in Ham.
  destruct (get_or ev "text" (VStr [])) as [| | |raw| |] eqn:Htext.
  1-3, 5-6: right; unfold handle_mention; rewrite Htext; eexists; reflexivity.
  left. exists p, ev, raw. split; [|reflexivity].
  unfold mention_request. unfold is_retry in Hr.
  split.
  { destruct (retry_num req) as [[|c h]|]; [now right|discriminate|now left]. }
  split; [exact Hp|]. split; [exact Hec|]. split.
  { intros Hc. rewrite Hc in Hsig. simpl in Hsig.
    now destruct (signature_valid req). }
  split; [exact Hev|]. split; [exact Ham|exact Htext].
Qed.

(** X12.  The reach of the handler.  Whatever the request, the handler only
    appends to the worksheet, to the messages sent and to the extractions
    requested: at most one message and one extraction per request, and rows
    only when an extraction was requested.  The state changes only for a
    request that reaches the mention branch (not a retry, signature
    accepted, an app_mention event with a text), and then the answer is OK
    200; an answer 500 means that nothing was done. *)
Theorem handler_effects_are_bounded e req w :
  let res := slack_bot_handler e req w in
  effects_bounded w (snd res)
  /\ (snd res <> w ->
      fst res = ok_200 /\ exists p ev raw, mention_request e req p ev raw)
  /\ (snd (fst res) = 500%Z -> snd res = w).
Proof.
  intros res. subst res. unfold slack_bot_handler.
  destruct (handler_body_cases e req w)
    as [(p & ev & raw & Hreq & ->)|(r & ->)].
  - destruct (handle_mention_effects e p ev w) as [Hres Heff].
    destruct (handle_mention e p ev w) as [[resp|x] w1]; simpl in *.
    + destruct Hres as [[= ->]|(x & [=] & _)].
      split; [exact Heff|]. split; [|discriminate].
      intros _. split; [reflexivity|eauto].
    + destruct Hres as [[=]|(x' & _ & ->)].
      split; [exact Heff|]. split; [congruence|reflexivity].
  - destruct r as [resp|x]; simpl;
      (split; [apply effects_bounded_refl|split; [congruence|reflexivity]]).
Qed.

(** ** Failures while a mention is processed *)

(** X13.  Failures are reported.  For a request that reaches the mention branch
    with a text of at most 1000 characters and whose link could be built:
    when the processing raises at any step (the extraction, the persister,
    the composition or the sending of the confirmation), the handler tries
    to send the generic error message and answers OK 200 either way; what
    had been written before the failure stays in the worksheet.  When it is
    the extraction that raises, nothing is written. *)
Theorem failed_processing_is_reported e req p ev raw url w :
  mention_request e req p ev raw ->
  (length (clean_text raw) <= 1000)%nat ->
  build_slack_url e (get ev "channel") (get ev "ts")
    (get_or p "team_id" (VStr [])) = Ok url ->
  let channel := get ev "channel" in
  let thread_ts := get ev "ts" in
  let text := clean_text raw in
  let inquirer := resolve_inquirer e (get ev "user") in
  (forall x w1,
     process_mention e channel thread_ts text inquirer url w = (Raise x, w1) ->
     slack_bot_handler e req w
     = (ok_200, after_error_reply e channel thread_ts w1)
     /\ sheet (snd (slack_bot_handler e req w)) = sheet w1)
  /\ (forall x,
        extract_info_with_gemini (clock e) (gemini e text inquirer) = Raise x ->
        slack_bot_handler e req w
        = (ok_200,
           after_error_reply e channel thread_ts
             (mk_world (sheet w) (outbox w)
                (extractions w ++ [(text, inquirer)])))).
Proof.
  intros Hreq Hlen Hurl channel thread_ts text inquirer.
  assert (Hh : slack_bot_handler e req w =
               match handle_mention e p ev w with
               | (Ok resp, w') => (resp, w')
               | (Raise _, w') => ((VStr (u "Internal Server Error"), 500%Z), w')
               end).
  { unfold slack_bot_handler.
    now rewrite (handler_reaches_mention e req p ev raw w Hreq). }
  destruct Hreq as (_ & _ & _ & _ & _ & _ & Htext).
  rewrite (handle_mention_unfold e p ev raw url w Htext Hlen Hurl) in Hh.
  fold channel thread_ts text inquirer in Hh.
  split.
  - intros x w1 Hp. rewrite Hp in Hh. rewrite Hh. split; [reflexivity|].
    unfold after_error_reply. simpl. now destruct (post_ok _ _ _ _).
  - intros x Hx.
    assert (Hp : process_mention e channel thread_ts text inquirer url w
                 = (Raise x, mk_world (sheet w) (outbox w)
                               (extractions w ++ [(text, inquirer)]))).
    { unfold process_mention. apply M_bind_Raise.
      unfold call_extract. now rewrite Hx. }
    now rewrite Hp in Hh.
Qed.

Lemma failed_processing_is_reported_witness :
  let e := example_env (Ok (JsonArray [∅; {[ "tags" := VNone ]}])) in
  let raw := u "<@U1> please" in
  let req := example_request raw in
  let p := example_payload raw in
  let ev := example_event raw in
  let w := example_world in
  let url := u "https://app.slack.com/client//C1/p12" in
  let channel := get ev "channel" in
  let thread_ts := get ev "ts" in
  let text := clean_text raw in
  let inquirer := resolve_inquirer e (get ev "user") in
  let w1 := snd (process_mention e channel thread_ts text inquirer url w) in
  length (sheet w1) = 4%nat
  /\ slack_bot_handler e req w
     = (ok_200, after_error_reply e channel thread_ts w1)
  /\ sheet (snd (slack_bot_handler e req w)) = sheet w1.
Proof.
  intros e raw req p ev w url channel thread_ts text inquirer w1.
  assert (H1 : (length (clean_text raw) <= 1000)%nat)
    by (apply Nat.leb_le; vm_compute; reflexivity).
  assert (H2 : build_slack_url e (get ev "channel") (get ev "ts")
                 (get_or p "team_id" (VStr [])) = Ok url)
    by (vm_compute; reflexivity).
  assert (H3 : process_mention e channel thread_ts text inquirer url w
               = (Raise TypeError, w1)) by (vm_compute; reflexivity).
  split; [vm_compute; reflexivity|].
  exact (proj1 (failed_processing_is_reported e req p ev raw url w
                  (example_is_mention_request _ raw) H1 H2) TypeError w1 H3).
Defined.

(** ** The confirmation message *)





(** ** A mention that is registered *)




(** ** The link to the written rows *)

Lemma fold_min_consecutive a n : forall s x,
  (x <= a + Z.of_nat s + 1)%Z ->
  fold_left Z.min (map (fun i => (a + Z.of_nat i + 1)%Z) (seq s n)) x = x.
Proof.
  induction n as [|n IH]; intros s x Hx; simpl; [reflexivity|].
  rewrite IH by lia. lia.
Qed.

Lemma fold_max_consecutive_from a n : forall s x,
  (a + Z.of_nat s <= x)%Z ->
  fold_left Z.max (map (fun i => (a + Z.of_nat i + 1)%Z) (seq s n)) x
  = Z.max x (a + Z.of_nat s + Z.of_nat n)%Z.
Proof.
  induction n as [|n IH]; intros s x Hx; simpl; [lia|].
  rewrite IH by lia. lia.
Qed.

Lemma consecutive_min_max a k :
  let l := map (fun i => (a + Z.of_nat i + 1)%Z) (seq 0 (S k)) in
  list_min l = (a + 1)%Z /\ list_max l = (a + Z.of_nat (S k))%Z.
Proof.
  cbv zeta. unfold list_min, list_max. cbn [seq map]. split.
  - rewrite fold_min_consecutive by lia. lia.
  - rewrite fold_max_consecutive_from by lia. lia.
Qed.

(** X16.  The link.  After a call of the persister that returned, the link put
    in the confirmation spans the rows the call appended, from the first
    to the last, and is labelled with the first and the last inquiry number
    it gave; for a single record both ends are that record's; for an empty
    batch there is no link. *)
Theorem link_spans_written_rows e gid now name batch msg url w b rows nos w' :
  write_to_spreadsheet true now name batch msg url w = (Ok (b, rows, nos), w') ->
  let len := Z.of_nat (length (sheet w)) in
  let mx := max_inquiry_no_of (sheet w) in
  let k := Z.of_nat (length batch) in
  let spreadsheet_url :=
    u "https://docs.google.com/spreadsheets/d/" ++ spreadsheet_key e
    ++ u "/edit" in
  sheet_links e gid rows nos =
  match batch with
  | [] => []
  | [_] =>
    [u "<" ++ spreadsheet_url ++ u "#gid=" ++ str_of_int gid ++ u "&range=A"
     ++ str_of_int (len + 1) ++ u ":N" ++ str_of_int (len + 1)
     ++ u "|問合せNo" ++ str_of_int (mx + 1) ++ u ">"]
  | _ =>
    [u "<" ++ spreadsheet_url ++ u "#gid=" ++ str_of_int gid ++ u "&range=A"
     ++ str_of_int (len + 1) ++ u ":N" ++ str_of_int (len + k)
     ++ u "|問合せNo" ++ str_of_int (mx + 1) ++ u "-"
     ++ str_of_int (mx + k) ++ u ">"]
  end%Z.
Proof.
  rewrite write_to_spreadsheet_unfold. cbv zeta.
  pose proof (append_rows_spec (length (sheet w)) (max_inquiry_no_of (sheet w))
                (strftime_ymd_hms now) name url msg batch 0 [] w) as Hspec.
  cbv zeta in Hspec. destruct Hspec as (new & _ & _ & _ & _ & Hr).
  destruct (fst (append_rows _ _ _ _ _ _ _ _ _ _)) as [rows'|x]; [|discriminate].
  destruct Hr as [_ Hrows]. intros [= <- <- <- <-]. subst rows'.
  destruct batch as [|it rest]; [reflexivity|].
  cbn [app length Nat.add].
  destruct (consecutive_min_max (Z.of_nat (length (sheet w))) (length rest))
    as [Hmin Hmax].
  destruct (consecutive_min_max (max_inquiry_no_of (sheet w)) (length rest))
    as [Hmin' Hmax'].
  unfold inquiry_nos, sheet_links.
  cbn [length] in *.
  set (rows := map (fun k => (Z.of_nat (length (sheet w)) + Z.of_nat k + 1)%Z)
                   (seq 0 (S (length rest)))) in *.
  set (nos := map (fun k => (max_inquiry_no_of (sheet w) + Z.of_nat k + 1)%Z)
                  (seq 0 (S (length rest)))) in *.
  assert (Hr : exists r0 rt, rows = r0 :: rt) by (subst rows; simpl; eauto).
  assert (Hn : exists n0 nt, nos = n0 :: nt) by (subst nos; simpl; eauto).
  destruct Hr as (r0 & rt & Er). destruct Hn as (n0 & nt & En).
  rewrite Er, En. rewrite <- Er, <- En. rewrite Hmin, Hmax, Hmin', Hmax'.
  destruct rest as [|it' rest'].
  - simpl length. rewrite Z.eqb_refl. reflexivity.
  - destruct (Z.eqb_spec (Z.of_nat (length (sheet w)) + 1)
                (Z.of_nat (length (sheet w)) + Z.of_nat (S (length (it' :: rest'))))).
    + simpl length in *. lia.
    + reflexivity.
Qed.

Lemma link_spans_written_rows_witness :
  let e := example_env (Ok (JsonArray [])) in
  let batch : list item := [∅; ∅] in
  let w := example_world in
  let w' := snd (write_to_spreadsheet true example_now (VStr (u "sato"))
                   batch (u "m") (u "") w) in
  let len := Z.of_nat (length (sheet w)) in
  let mx := max_inquiry_no_of (sheet w) in
  let k := Z.of_nat (length batch) in
  let spreadsheet_url :=
    u "https://docs.google.com/spreadsheets/d/" ++ spreadsheet_key e
    ++ u "/edit" in
  sheet_links e 0 [4; 5]%Z [8; 9]%Z =
  [u "<" ++ spreadsheet_url ++ u "#gid=" ++ str_of_int 0 ++ u "&range=A"
   ++ str_of_int (len + 1) ++ u ":N" ++ str_of_int (len + k)
   ++ u "|問合せNo" ++ str_of_int (mx + 1) ++ u "-"
   ++ str_of_int (mx + k) ++ u ">"]%Z.
Proof.
  intros e batch w w' len mx k spreadsheet_url.
  assert (H : write_to_spreadsheet true example_now (VStr (u "sato"))
                batch (u "m") (u "") w
              = (Ok (true, [4; 5]%Z, [8; 9]%Z), w')) by (vm_compute; reflexivity).
  exact (link_spans_written_rows e 0 example_now (VStr (u "sato")) batch
           (u "m") (u "") w true [4; 5]%Z [8; 9]%Z w' H).
Defined.

(** ** The text of a mention *)

Lemma re_sub_go_skip pat : forall s k,
  re_sub_go pat k s = re_sub_go pat 0 (drop k s).
Proof.
  induction s as [|c s IH]; intros k.
  - now destruct k.
  - destruct k as [|k]; [reflexivity|]. simpl. apply IH.
Qed.

Lemma re_sub_go_length pat : forall s k,
  (length (re_sub_go pat k s) <= length s)%nat.
Proof.
  induction s as [|c s IH]; intros k; simpl; [lia|].
  destruct k as [|k]; [|specialize (IH k); lia].
  destruct (pat (c :: s)) as [rest|].
  - specialize (IH (length (c :: s) - length rest - 1)%nat). simpl in IH. lia.
  - specialize (IH 0%nat). simpl. lia.
Qed.

(** A match at the head is dropped, and the search goes on after it. *)
Lemma re_sub_go_match pat m rest :
  m <> [] -> pat (m ++ rest) = Some rest ->
  re_sub_go pat 0 (m ++ rest) = re_sub_go pat 0 rest.
Proof.
  intros Hm H. destruct m as [|c m]; [congruence|].
  rewrite <- app_comm_cons in *. cbn [re_sub_go]. rewrite H.
  rewrite re_sub_go_skip. f_equal.
  replace (length (c :: m ++ rest) - length rest - 1)%nat with (length m)
    by (simpl; rewrite length_app; lia).
  apply drop_app_length.
Qed.

Lemma mention_pattern_lt s r : mention_pattern s = Some r -> In 0x3C%N s.
Proof.
  unfold mention_pattern. intros H.
  apply option_bind_Some in H as (r' & Hl & _).
  apply lit_Some in Hl. subst s. now left.
Qed.

Lemma re_sub_go_no_lt s :
  ~ In 0x3C%N s -> re_sub_go mention_pattern 0 s = s.
Proof.
  induction s as [|c s IH]; intros H; [reflexivity|].
  cbn [re_sub_go].
  destruct (mention_pattern (c :: s)) as [r|] eqn:E.
  - apply mention_pattern_lt in E. contradiction.
  - f_equal. apply IH. intros Hin. apply H. now right.
Qed.

Lemma mention_pattern_at ids ws rest :
  ids <> [] -> Forall (fun c => id_class c = true) ids ->
  Forall (fun c => is_space c = true) ws -> no_space_at_head rest ->
  mention_pattern (u "<@" ++ ids ++ u ">" ++ ws ++ rest) = Some rest.
Proof.
  intros Hne Hids Hws Hrest. unfold mention_pattern.
  rewrite lit_app. cbn [mbind option_bind].
  rewrite span_app_stop; [|exact Hids|vm_compute; reflexivity].
  destruct ids as [|c ids]; [congruence|].
  rewrite lit_app. cbn [mbind option_bind].
  rewrite span_app_stop; [reflexivity|exact Hws|exact Hrest].
Qed.

(** X17.  The text of a mention.  The cleaned text is never longer than the
    text received, so a text of at most 1000 characters is never refused
    for its length; it neither begins nor ends with white space; a text
    without [<] is only stripped; and a mention [<@ID>] at the head of the
    text goes away together with the white space that follows it. *)
Theorem clean_text_removes_mentions raw :
  (length (clean_text raw) <= length raw)%nat
  /\ no_space_at_head (clean_text raw)
  /\ no_space_at_head (rev (clean_text raw))
  /\ (~ In 0x3C%N raw -> clean_text raw = strip raw)
  /\ (forall ids ws rest,
        ids <> [] -> Forall (fun c => id_class c = true) ids ->
        Forall (fun c => is_space c = true) ws -> no_space_at_head rest ->
        raw = u "<@" ++ ids ++ u ">" ++ ws ++ rest ->
        clean_text raw = clean_text rest).
Proof.
  unfold clean_text, re_sub_delete.
  destruct (strip_split (re_sub_go mention_pattern 0 raw))
    as (a & b & _ & _ & _ & Hh & Hl).
  split; [|split; [exact Hh|split; [exact Hl|split]]].
  - etransitivity; [apply strip_length|apply re_sub_go_length].
  - intros H. now rewrite re_sub_go_no_lt.
  - intros ids ws rest Hne Hids Hws Hrest ->.
    replace (u "<@" ++ ids ++ u ">" ++ ws ++ rest)
      with ((u "<@" ++ ids ++ u ">" ++ ws) ++ rest)
      by (now rewrite <- !app_assoc).
    rewrite re_sub_go_match; [reflexivity|discriminate|].
    rewrite <- !app_assoc. now apply mention_pattern_at.
Qed.

(** ** The inquirer *)

(** X18.  The inquirer.  The name written for the inquirer is never empty or
    null: without a user id it is 不明; when the lookup of the user fails
    it is the user id; otherwise it is the first non-empty one of the
    display name, the real name, the name and the user id. *)
Theorem inquirer_is_never_empty e user_id :
  truthy (resolve_inquirer e user_id) = true
  /\ (truthy user_id = false -> resolve_inquirer e user_id = VStr (u "不明"))
  /\ (truthy user_id = true ->
      (forall x, users_info e user_id = Raise x ->
         resolve_inquirer e user_id = user_id)
      /\ (forall d r n, users_info e user_id = Ok (d, r, n) ->
            resolve_inquirer e user_id =
            if truthy d then d else if truthy r then r
            else if truthy n then n else user_id)).
Proof.
  unfold resolve_inquirer, py_or.
  destruct (truthy user_id) eqn:Hu.
  - split; [|split; [discriminate|intros _; split]].
    + destruct (users_info e user_id) as [[[d r] n]|x]; [|exact Hu].
      destruct (truthy d) eqn:Hd; [exact Hd|].
      destruct (truthy r) eqn:Hr; [exact Hr|].
      destruct (truthy n) eqn:Hn; [exact Hn|exact Hu].
    + now intros x ->.
    + now intros d r n ->.
  - split; [vm_compute; reflexivity|]. split; [reflexivity|discriminate].
Qed.

(** ** The answer to a mention *)

Lemma build_slack_url_cases e channel thread_ts team_id :
  (truthy channel && truthy thread_ts = false ->
   build_slack_url e channel thread_ts team_id = Ok [])
  /\ (forall ts, thread_ts = VStr ts ->
        exists url, build_slack_url e channel thread_ts team_id = Ok url)
  /\ (truthy channel = true -> truthy thread_ts = true ->
      (forall ts, thread_ts <> VStr ts) ->
      build_slack_url e channel thread_ts team_id = Raise AttributeError).
Proof.
  unfold build_slack_url. split; [|split].
  - now intros ->.
  - intros ts ->. destruct (truthy channel && truthy (VStr ts)); [|eauto].
    destruct (team_domain e team_id); eauto.
  - intros -> -> H. cbn [andb].
    destruct thread_ts; try reflexivity. now destruct (H s).
Qed.

(** X14.  The answer to a mention.  For a request that reaches the mention
    branch with a text of at most 1000 characters: when the event's
    timestamp is a string, or the channel or the timestamp is missing, the
    handler answers OK 200 whatever the language model, the worksheet and
    Slack do; when channel and timestamp are present and the timestamp is
    not a string, building the link raises outside the inner [try], the
    handler answers 500 and nothing is requested, written or sent. *)
Theorem short_mention_is_acknowledged e req p ev raw w :
  mention_request e req p ev raw ->
  (length (clean_text raw) <= 1000)%nat ->
  let channel := get ev "channel" in
  let thread_ts := get ev "ts" in
  ((truthy channel && truthy thread_ts = false \/ exists ts, thread_ts = VStr ts) ->
   fst (slack_bot_handler e req w) = ok_200)
  /\ (truthy channel = true -> truthy thread_ts = true ->
      (forall ts, thread_ts <> VStr ts) ->
      slack_bot_handler e req w = ((VStr (u "Internal Server Error"), 500%Z), w)).
Proof.
  intros Hreq Hlen channel thread_ts.
  unfold slack_bot_handler.
  rewrite (handler_reaches_mention e req p ev raw w Hreq).
  destruct Hreq as (_ & _ & _ & _ & _ & _ & Htext).
  destruct (build_slack_url_cases e channel thread_ts
              (get_or p "team_id" (VStr []))) as (B1 & B2 & B3).
  split.
  - intros H.
    assert (Hurl : exists url, build_slack_url e channel thread_ts
                                 (get_or p "team_id" (VStr [])) = Ok url).
    { destruct H as [H|[ts H]]; [eauto|]. now apply (B2 ts). }
    destruct Hurl as [url Hurl].
    rewrite (handle_mention_unfold e p ev raw url w Htext Hlen Hurl).
    fold channel thread_ts.
    destruct (process_mention_effects e channel thread_ts (clean_text raw)
                (resolve_inquirer e (get ev "user")) url w)
      as (new & _ & _ & Hr).
    destruct (process_mention _ _ _ _ _ _ w) as [[r|x] w1]; simpl in *;
      [|reflexivity].
    destruct Hr as [[-> | ->] _]; reflexivity.
  - intros Hc Ht Hns. unfold handle_mention. rewrite Htext.
    destruct (Nat.ltb_spec 1000 (length (clean_text raw))); [lia|].
    fold channel thread_ts. rewrite (B3 Hc Ht Hns). reflexivity.
Qed.

Lemma short_mention_is_acknowledged_witness :
  let e := mk_env true (u "KEY") (fun _ => example_now) example_now
             (fun _ _ => Raise ExternalError)
             (fun _ => Raise ExternalError) (fun _ => Raise ExternalError)
             (fun _ _ _ => false) false (Raise ExternalError) (fun _ => []) in
  let req := mk_request None (VDict test_local_payload) true in
  fst (slack_bot_handler e req example_world) = ok_200.
Proof.
  intros e req.
  assert (Hreq : mention_request e req test_local_payload test_local_event
                   example_mention_text).
  { unfold mention_request, req, test_local_payload, test_local_event.
    cbn [retry_num payload signature_valid].
    split; [now left|]. split; [reflexivity|].
    unfold get, get_or.
    repeat split;
      repeat (rewrite lookup_insert_ne by discriminate);
      first [rewrite lookup_insert_eq | rewrite lookup_singleton_eq];
      reflexivity. }
  assert (Hlen : (length (clean_text example_mention_text) <= 1000)%nat)
    by (apply Nat.leb_le; vm_compute; reflexivity).
  refine (proj1 (short_mention_is_acknowledged e req test_local_payload
                   test_local_event example_mention_text example_world
                   Hreq Hlen) _).
  right. eexists. vm_compute. reflexivity.
Defined.

(** ** When the normalizer gives nothing *)

Lemma later_rules_not_none now s : later_rules now s <> Ok None.
Proof.
  assert (Hadd : forall k,
            (delta ← timedelta k; t ← datetime_add now delta;
             Ok (Some (strftime_ymd t))) <> Ok None).
  { intros k. destruct (timedelta k) as [d|]; [|discriminate].
    cbn [mbind result_bind].
    destruct (datetime_add now d); discriminate. }
  assert (Hmr : forall y m,
            ('(_, last_day) ← monthrange y m;
             Ok (Some (fmt_date y m last_day))) <> Ok None).
  { intros y m. destruct (monthrange y m) as [[wd ld]|]; discriminate. }
  unfold later_rules.
  destruct (matched (re_search this_month_pattern s)); [apply Hmr|].
  destruct (matched (re_search next_month_pattern s)).
  { destruct (12 <? month now + 1)%Z; apply Hmr. }
  destruct (matched (re_search next_week_pattern s)); [apply Hadd|].
  destruct (matched (re_search this_week_pattern s)); [apply Hadd|].
  destruct (re_search days_pattern s) as [g1|] eqn:Ed.
  - rewrite (days_rule_found now s g1 Ed).
    destruct (Z.of_nat (length g1) <=? int_max_str_digits)%Z; [|discriminate].
    destruct (timedelta (numeral_value g1)) as [k|x]; cbn [mbind result_bind].
    + destruct (datetime_add now k) as [t|x]; cbn [mbind result_bind].
      * discriminate.
      * destruct x; discriminate.
    + destruct x; discriminate.
  - unfold days_rule. rewrite Ed. discriminate.
Qed.

(** X7.  When the normalizer gives nothing.  The normalizer returns [None] for
    the empty string and for the spellings of null and none in any mix of
    capitals, and for nothing else: no rule of the catalog turns a text
    into [None]. *)
Theorem normalize_none_only_for_null now s :
  normalize_due_date now (Some s) = Ok None
  <-> (s = [] \/ lower s = u "null" \/ lower s = u "none").
Proof.
  rewrite normalize_unfold.
  assert (G : is_nil s || str_in (lower s) [u "null"; u "none"; u ""] = true
              <-> (s = [] \/ lower s = u "null" \/ lower s = u "none")).
  { unfold str_in, pystr_eqb. cbn [existsb].
    rewrite !orb_true_iff, !bool_decide_eq_true. split.
    - intros [H|[H|[H|[H|H]]]]; try discriminate; auto.
      + left. now destruct s.
      + left. destruct s; [reflexivity|discriminate].
    - intros [->|[H|H]]; auto. }
  destruct (is_nil s || _) eqn:E.
  - split; [intros _; now apply G|reflexivity].
  - split.
    + destruct (re_match_iso s); [discriminate|].
      destruct (re_search month_pattern s) as [[g1 g2]|] eqn:Em.
      * rewrite (month_rule_found _ _ _ _ Em).
        destruct (_ && _); [discriminate|].
        intros H. now destruct (later_rules_not_none now s).
      * rewrite (month_rule_none _ _ Em).
        intros H. now destruct (later_rules_not_none now s).
    + intros H. apply G in H. discriminate.
Qed.

(** ** What the confirmation says *)

Lemma item_lines_header e nos idx it n m :
  nos !! (idx - 1)%nat = Some n -> n <> 0%Z ->
  item_lines e nos idx it = Ok m ->
  exists rest, m = record_header idx n ++ rest.
Proof.
  intros Hn Hnz. unfold item_lines. rewrite Hn.
  destruct (Z.eqb_spec n 0) as [|_]; [contradiction|]. cbn [negb].
  match goal with
  | |- context [mbind _ ?t] => destruct t as [tags_part|x]
  end; [|discriminate].
  cbn [mbind result_bind]. intros [= <-].
  eexists. unfold record_header. rewrite <- !app_assoc. reflexivity.
Qed.

Lemma items_lines_headers e nos l : forall idx body,
  items_lines e nos idx l = Ok body ->
  forall i it n, l !! i = Some it ->
    nos !! (idx + i - 1)%nat = Some n -> n <> 0%Z ->
    exists pre post, body = pre ++ record_header (idx + i) n ++ post.
Proof.
  induction l as [|a l IH]; intros idx body; simpl; [intros _ i it n H; discriminate|].
  destruct (item_lines e nos idx a) as [x|] eqn:Ea; [|discriminate].
  cbn [mbind result_bind].
  destruct (items_lines e nos (S idx) l) as [y|] eqn:El; [|discriminate].
  cbn [mbind result_bind]. intros [= <-] [|i] it n Hi Hn Hnz; simpl in Hi.
  - injection Hi as <-. rewrite Nat.add_0_r in *.
    destruct (item_lines_header e nos idx a n x Hn Hnz Ea) as [rest ->].
    exists [], (rest ++ y). now rewrite <- app_assoc.
  - replace (idx + S i)%nat with (S idx + i)%nat in * by lia.
    destruct (IH _ _ El i it n Hi Hn Hnz) as (pre & post & ->).
    exists (x ++ pre), post. now rewrite <- app_assoc.
Qed.

(** X19.  What the confirmation says.  The confirmation composed for a batch
    and the inquiry numbers the persister gave it opens with the sentence
    that states how many records were registered, and holds for every
    record, in its place, a block that begins with the position of the
    record and the inquiry number it was registered under. *)
Theorem confirmation_lists_every_record e batch rows mx m :
  (0 <= mx)%Z ->
  success_message e batch rows (inquiry_nos mx (length batch)) = Ok m ->
  (exists rest, m = confirmation_opening (length batch) ++ rest)
  /\ forall i it, batch !! i = Some it ->
       exists pre post,
         m = pre ++ record_header (S i) (mx + Z.of_nat i + 1)%Z ++ post.
Proof.
  intros Hmx. unfold success_message.
  destruct (items_lines e _ 1 batch) as [body|] eqn:Eb; [|discriminate].
  cbn [mbind result_bind]. intros Hm.
  apply (f_equal (fun r => match r with Ok x => x | Raise _ => [] end)) in Hm.
  cbv beta iota in Hm. subst m. split.
  - eexists. unfold confirmation_opening. rewrite <- !app_assoc. reflexivity.
  - intros i it Hi.
    assert (Hlt : (i < length batch)%nat) by (eapply lookup_lt_Some; eauto).
    destruct (items_lines_headers e _ batch 1 body Eb i it
                (mx + Z.of_nat i + 1)%Z Hi) as (pre & post & ->).
    + replace (1 + i - 1)%nat with i by lia. now apply inquiry_nos_lookup.
    + lia.
    + match goal with
      | |- context [?h ++ ?l ++ pre ++ _] => exists (h ++ l ++ pre), post
      end.
      now rewrite <- !app_assoc.
Qed.

Lemma confirmation_lists_every_record_witness :
  let e := example_env (Ok (JsonArray [])) in
  let batch := [example_account_request; ∅] in
  let m := match success_message e batch [4; 5]%Z
                   (inquiry_nos 7 (length batch)) with
           | Ok m => m
           | Raise _ => []
           end in
  (exists rest, m = confirmation_opening (length batch) ++ rest)
  /\ forall i it, batch !! i = Some it ->
       exists pre post,
         m = pre ++ record_header (S i) (7 + Z.of_nat i + 1)%Z ++ post.
Proof.
  intros e batch m.
  assert (H1 : (0 <= 7)%Z) by lia.
  assert (H2 : success_message e batch [4; 5]%Z (inquiry_nos 7 (length batch))
               = Ok m) by (vm_compute; reflexivity).
  exact (confirmation_lists_every_record e batch [4; 5]%Z 7 m H1 H2).
Defined.
